(* ===== verification/_CoqProject ===== *)
-Q . S2P
Prelude.v
Logging.v
Messagebus.v
Version.v
RoutableRepo.v
PolicyRepo.v
Merger.v
MergerUsage.v
Protocol.v
ProtocolMerge.v
MergeWidth.v
ProtocolRegistry.v
ProtocolFlow.v
ProtocolLog.v
ProtocolEquiv.v
ProtocolErrors.v
FlushTarget.v
EnumAttribute.v
LoadAttribute.v
SharedLibrary.v
