(* ===== verification/Prelude.v ===== *)
(** * Verification of the document protocol layer (documentapi) and of the
    search-core pieces shipped beside it

    ** The program

    The sources under [src/] are seven files of the Vespa code base.

    - [src/documentapi/.../messagebus/documentprotocol.cpp] is the protocol
      facade of the document API: its constructor fills a routing-policy
      registry (ten named factories) and a routable registry (36 message and
      reply types, all under the version specification 6.221); it forwards
      [createPolicy], [encode], [decode] and [getRoutableTypes] to those
      registries, names error codes ([getErrorName]), merges the replies of a
      fan-out ([merge]) through a [ReplyMerger], and tests whether a reply
      carries only errors of one code ([hasOnlyErrorsOfType]).
    - [src/searchcorespi/.../index/indexflushtarget.cpp] is the flush target
      of the memory index: memory gain, bytes to write and the urgency test,
      all on 64-bit integers.
    - [src/searchlib/.../attribute/singleenumattribute.h] declares the single
      value enum attribute; its inline accessors read the enum index vector.
    - [src/searchlib/.../attribute/not_implemented_attribute.h] only declares
      methods.
    - [src/searchlib/src/apps/loadattribute/loadattribute.cpp] is a command
      line tool (option parsing, then load / update / print / save).
    - [src/vespalib/src/tests/signalhandler/my_shared_library.cpp] is the
      shared library of the signal handler test: a function that a worker
      thread runs between two latches while the main test thread dumps its
      stack, and a function that asks for the stack trace of its caller.
    - [src/searchcore/.../request_context/request_context_test.cpp] is a
      test fixture for the request context of the matcher.

    The registries, the reply merger, the message bus types and the version
    classes are used by the facade but their code is not under [src/]; they
    are modelled from the specification ([spec.md], sections 3 and 4) and are
    marked as such below.

    ** The files

    - [Prelude] (this file): the [result] type with its bind notation (scope
      [vespa_scope]), fixed-width integers on [Z] ([wrap], [swrap]) with
      their range and identity lemmas, list helpers shared by the components,
      the tactics [vsimpl], [case_cond] and [by_compute], and the hint
      database [vespa].
    - [Logging], module [Log]: the log macros of [vespa/log/log.h] and the
      part of [printf] the log statements of the sources use: formats are
      parsed into literal characters and conversions ([parse]), filled with
      typed arguments ([render]), and [well_typed] says that every
      conversion meets an argument of its type.
    - [Messagebus]: the message bus values the facade handles: [Error],
      [Reply], [Routable], and [RoutingContext] with its child slots
      (specification, section 3).
    - [Version]: [Version], [VersionSpecification], [matches] and overlap
      (specification, section 3).
    - [RoutableRepo], module [RoutableRepository]: the codec registry
      (specification 4.1): [putFactory], [getFactory], [encode], [decode],
      [getRoutableTypes], the wire header, the well-formedness invariant
      (no two overlapping specifications per type) and its preservation,
      and the equivalence of registries that resolve alike, which every
      operation respects.
    - [PolicyRepo], module [RoutingPolicyRepository]: the routing policy
      registry (specification 4.2) as a [gmap] from names to factories.
    - [Merger], module [ReplyMerger]: the reply merger (specification 4.3).
      The class [ReplyMerger] is the interface between the facade and the
      merger: the operations [init], [merge], [mergedReply] that
      [DocumentProtocol::merge] calls, with the law [mergedReply_contract]
      that the verdict meets [verdict_spec]. [Impl] is a reference
      implementation (lowest successful index, failed replies) and
      [reference] the instance that discharges the law for it.
    - [MergerUsage], module [MergerUsage]: the two-state usage protocol of
      the merger (specification 4.3) as a step relation [step] with its runs
      [steps], the function [run] that decides acceptance, and the wrapper
      [logged] that makes any merger record the calls it receives.
    - [Protocol], module [DocumentProtocol]: the facade, translated from
      [documentprotocol.cpp] function by function; definitions only.
      Enumerators whose numeric values live in [documentprotocol.h] (not
      under [src/]) are inductive types with the names the source uses;
      their numbering is the class [Numbering], and every theorem holds for
      every numbering that is injective, as a C++ [switch] requires of its
      case labels. [positionNumbering] numbers the enumerators by position;
      it and the fixtures [echoCodec], [echoPolicy], [sampleProtocol] serve
      the concrete runs only.
    - [ProtocolMerge]: the specification [mergeSpec] of [merge], with
      [unmasked] and [answered], which describe what the loop is to read
      and translate no code, and the theorems on [merge], [mergeLoop] and
      [applyResult], proved against the class [ReplyMerger].
    - [MergeWidth]: the loop of [merge] and [merge] once more with the child
      index and the mask as 32-bit values, as the source declares them
      ([mergeLoop32], [merge32]), and their agreement with [mergeLoop] and
      [merge].
    - [ProtocolRegistry]: the theorems on the constructor [create] and on
      [encode], [decode], [getRoutableTypes], [putRoutableFactory] and
      [createPolicy] of the protocol it returns.
    - [ProtocolFlow]: the operations of the facade together: what
      [getRoutableTypes] reports against what [encode] and [decode] do, and
      the reply [merge] leaves in a context against the wire.
    - [ProtocolLog], module [ProtocolLog]: the log statements of [encode]
      and [decode] as the events a call issues ([encode_log],
      [decode_log]).
    - [ProtocolEquiv]: the equivalence of protocols whose registries resolve
      alike, the [Proper] instances of the facade's operations, and the
      constructor run on permuted tables ([createFrom]).
    - [ProtocolErrors]: the theorems on [getErrorName],
      [hasOnlyErrorsOfType] and the order of the policy table.
    - [FlushTarget], module [IndexFlushTarget]: every member function of
      [indexflushtarget.cpp], with the 64-bit conversions written out, and
      the debug statement of [needUrgentFlush] ([needUrgentFlush_log]).
    - [EnumAttribute], module [SingleValueEnumAttribute]: the two classes
      of [singleenumattribute.h] and the member functions the header
      defines in the class bodies. What the class template uses of its
      parameter [B] is the class [EnumAttribute]; an object of
      [SingleValueEnumAttribute<B>] is a [B] and a
      [SingleValueEnumAttributeBase].
    - [LoadAttribute], module [LoadAttribute]: the tool of
      [loadattribute.cpp]. A procedure is a value of the monad [Trace] (a
      result or a failed assertion, with the events so far); the attribute
      vector, the factory, the file header and the timer are the class
      [Environment]; the options [GetOpt] returns are arguments of [Main].
    - [SharedLibrary], module [SharedLibrary]: the two functions of
      [my_shared_library.cpp]. A latch is its counter; [my_cool_function]
      gives the next action of the worker at each position of its code,
      [main_test_thread] that of the main thread, which is taken from the
      comment of the function since the test is not part of the sources;
      [step] interleaves the two threads, [run] follows a schedule, [inv]
      is the invariant of the system with both latches at 2.

    ** What the theorems show

    - Facade, merge ([ProtocolMerge]): [merge] returns, on every context and
      mask and with every merger that meets the contract, what the
      specification [mergeSpec] states ([merge_refines_spec]); the theorems
      after it spell the branches out. The loop of [merge] counts every
      child and feeds exactly the non-masked children to the merger in
      ascending index order; with an error-free reply among the non-masked
      children the reply of the lowest such index is moved from its slot
      into the context and nothing else changes; with only failures the
      reply the merger generates is installed and no slot changes, and its
      codes are those the children reported, each once, most reported
      first; a masked child is never touched; the call returns a verdict
      whenever one child is not masked and every non-masked child holds a
      reply; a non-masked child without reply stops the loop; without
      children the assertion [idx != 0] fails, but the assertion counts
      masked children too, so a context whose children are all masked
      passes it and reaches the merger with nothing merged. Run with a
      merger that records its calls, the loop makes one call per non-masked
      child, and the usage protocol admits the request of the verdict
      exactly when one child is not masked ([mergeLoop_obeys_usage]).
    - Facade, width of the index ([MergeWidth]): for fewer than 2^32
      children [merge32] returns what [merge] returns, so the theorems
      above hold of the code at its width ([merge32_agrees]); the bound is
      sharp, for at exactly 2^32 children the index is back at 0 and the
      assertion fails ([merge32_wraps]).
    - Facade, registries ([ProtocolRegistry]): the constructor cannot fail
      and registers exactly the codecs of its table under 6.221, without
      overlap; [createPolicy] on a registered name reaches the factory the
      constructor put there and fails on any other name; what [encode]
      returns is the four-byte identifier of a registered type followed by
      the body of its codec, at a covered version
      ([encode_well_formed]); [decode] after
      [encode] is the identity for every registered type at every version
      6.221 covers, given that the codec of that type inverts its own
      encoding; [decode] is total and answers absent for a short header, an
      unknown type, an uncovered version and a codec that rejects or raises;
      [getRoutableTypes] enumerates the registered types for covered
      versions and nothing otherwise; a second codec for a registered type
      cannot be registered under major 6. The order of the constructor's
      registrations is not observable ([ProtocolEquiv]).
    - Facade, the operations together ([ProtocolFlow]): for every protocol,
      [encode] accepts a routable at a version exactly when
      [getRoutableTypes] reports its type for that version, and [decode]
      answers with a routable only for a reported type
      ([getRoutableTypes_exact]). For the constructed protocol, the reply
      [merge] leaves in a context crosses the wire when the replies of the
      non-masked children do, since a forwarded reply is the reply of a
      child; the generated reply has the routable of the empty reply, of
      type 0, which the protocol does not encode unless a routable type is
      numbered 0 ([merged_reply_crosses_wire]).
    - Facade, log statements ([ProtocolLog]): both statements are well
      typed ([facade_logs_well_typed]); [encode] issues the dump of the blob
      it returns when the logger wants spam and nothing otherwise
      ([encode_logged]); the constructed protocol warns exactly when the
      codec it selected raises, and every other absent result is silent
      ([decode_logged]).
    - Facade, error names and kinds ([ProtocolErrors]): [getErrorName]
      returns, for the code of each of the 26 errors, the name of the
      enumerator without its prefix, each name written out in the
      statement, and delegates every other code to the message bus
      ([getErrorName_spec]); distinct codes have distinct names;
      [hasOnlyErrorsOfType] agrees with [Forall] on the error list and
      holds vacuously of a reply without errors; the policy table is not
      sorted by name, and its order has no effect.
    - Flush target ([FlushTarget]): whatever the statistics, the values
      the target reports have the types the code declares
      ([flush_values_typed]); for statistics below 2^63
      [getApproxBytesToWriteToDisk] is [max 0 (before - after)] and
      [needUrgentFlush] is exactly its disjunction; bytes to write above
      16 GiB imply urgency; a statistic of 2^63 or more is read as negative.
      The debug line of [needUrgentFlush] is well typed and shows the
      values the decision was taken with ([needUrgentFlush_logged]).
    - Enum attribute ([EnumAttribute]): what [get] writes and answers, that
      the three readers agree, the read outside the index vector, and that
      [freezeEnumDictionary] freezes the tree of the store of [B] and
      changes nothing the readers see.
    - Tool ([LoadAttribute]): the flags the option loop computes; that a
      rejected command line prints the usage, returns -1 and touches
      nothing; the calls an accepted run makes on the attribute, in order;
      the calls of [applyUpdate] for each class of attribute, with the
      values the source writes ([applyUpdate_calls]); that a run with [-p]
      leaves in the output
      file the header and the values of each document of the attribute as
      it is after the update, for an attribute of either kind, and closes
      the file ([Main_content]); that a document reporting more values than
      [getMaxValueCount] stops the whole run at the assertion, after the
      update and before the save, with the output file left open
      ([Main_assertion]); that [-f aggregate] is rejected, and that a
      failed open of the output file does not stop the print phase: the
      events of the phase are given exactly, the documents are gone
      through, the assertion can still stop the tool, and the file is
      closed when it does not ([printPhase_failed_open]). [Trace] is a
      lawful monad ([Trace_left_id], [Trace_right_id], [Trace_assoc]).
    - Shared library ([SharedLibrary]): with both latches at 2, the main
      thread dumps the stack of the worker while the worker is inside
      [my_cool_function], and the worker does not return before
      ([dump_sees_worker_inside], by the invariant [inv]); both threads
      return on every schedule ([threads_both_return], stated with the
      inductive [eventually] over the interleaving); every run is finite
      and a complete one takes nine actions ([schedules_terminate], by the
      measure [remaining]); with a latch initialised to 1 or 3 instead the
      stack can be dumped too early, or both threads block
      ([latch_count_mismatch]).

    Every theorem with hypotheses has a concrete run beside it (a lemma
    named after it with the suffix [_witness]) that applies it to an input
    evaluated by the kernel.

    ** Bounds and fuel

    No definition uses fuel: every loop of the modelled code runs over a
    finite list (children of a context, errors of a reply, a registration
    table, the options of a command line, the documents of an attribute) and
    is a structural [Fixpoint]. The child index of [merge] is a [uint32_t]
    in the source and a [nat] in [Protocol]; [MergeWidth] has it at 32 bits
    and proves that nothing changes below 2^32 children. Document
    identifiers and buffer sizes of the attribute code are [nat]: the loops
    over them run below a 32-bit bound that the attribute gives and cannot
    wrap. Flush statistics are kept at their width ([wrap 64],
    [swrap 64]); the theorems say where a bound is needed. A signed
    subtraction that overflows is undefined in C++ and wraps in the model;
    [IndexFlushTarget.defined] tells when it does not overflow. Type
    identifiers and error codes are 32-bit values ([Numbering]). The interleaving of the shared library has nine actions
    in all (four of the worker, five of the main thread); [remaining]
    counts those left and bounds every run, so that no fuel is needed there
    either.

    ** Where the source leaves the behaviour open

    - [DocumentProtocol::decode] catches [vespalib::Exception] only; the
      failures of the registry and of a codec are of that class, and an
      exception of another class has no counterpart in the model.
    - [DocumentProtocol::merge] dereferences the reply of a child without a
      check and moves the reply [removeReply()] returns without a check;
      on an empty slot the first is undefined and the second moves a null
      reply. Both are the error [NoReply] in the model, and the theorems
      on [merge] say when it arises.
    - The constructor of the facade and [encode] have no handler for what
      the registries raise; their model returns the failure as a value, and
      [create_succeeds] shows that the constructor never fails.
    - Signed overflow in [indexflushtarget.cpp] is undefined and wraps in
      the model ([IndexFlushTarget.defined] tells when it does not occur);
      the fields of the flush statistics are taken as 64-bit, since their
      declaration is not part of the sources.
    - [assert] is taken as compiled in; a build with [NDEBUG] is not
      modelled.

    ** Not modelled

    - The bodies of the concrete codecs and routing policies (classes of
      [routablefactories60.h] and [routingpolicyfactories.h]): they are not
      part of the sources; the theorems hold for every interpretation of
      the factories.
    - The logger itself ([vespa/log/log.h]): which levels it wants is the
      argument [wants] of the log definitions; where an event goes is not
      modelled. [printf] is modelled for the conversions the sources use,
      on the LP64 data model. The hexadecimal dump of [encode], the text of
      a version and the protocol name of a routable are arguments.
    - [not_implemented_attribute.h]: the header declares twenty-four member
      functions and defines none; what they do is written in a file that is
      not part of the sources, so there is no behaviour to translate.
    - The member functions [singleenumattribute.h] only declares ([addDoc],
      [onCommit], [clearDocs], [fillValues], [reEnumerate] and the others)
      and its constructor, for the same reason. Every function the header
      defines is modelled.
    - [GetOpt] and [Entry] of the application framework, and with them the
      function [main] of [loadattribute.cpp], which only enters the
      framework: what [getopt] does with options after the file name
      depends on the platform.
    - [request_context_test.cpp]: the class under test, the tensor
      serialisation and the rank properties it is set up with are not part
      of the sources, and the fixture has no behaviour of its own.
    - The signal handler behind [my_totally_tubular_and_groovy_function]
      and the test that loads the shared library: the function takes the
      handler as an argument, and the main thread of the test is modelled
      from the comment in [my_cool_function]. *)

From Stdlib Require Export ZArith Lia.
From stdpp Require Export base tactics option list list_numbers gmap strings sorting
  countable finite.

Declare Scope vespa_scope.
Delimit Scope vespa_scope with vespa.
#[global] Open Scope vespa_scope.

(** ** Results: a value or an error *)

Inductive result (E A : Type) : Type :=
| Ok (a : A)
| Err (e : E).
Arguments Ok {E A} a.
Arguments Err {E A} e.

Definition rbind {E A B} (m : result E A) (k : A → result E B) : result E B :=
  match m with
  | Ok a => k a
  | Err e => Err e
  end.

Definition is_Ok {E A} (m : result E A) : Prop :=
  match m with
  | Ok _ => True
  | Err _ => False
  end.

Definition to_option {E A} (m : result E A) : option A :=
  match m with
  | Ok a => Some a
  | Err _ => None
  end.

Notation "'let?' x ':=' m 'in' k" := (rbind m (fun x => k))
  (at level 10, x name, m at level 100, k at level 200) : vespa_scope.

#[global] Instance is_Ok_dec {E A} (m : result E A) : Decision (is_Ok m).
Proof. destruct m; apply _. Defined.

(** Results over a type with an equivalence: the same error, or equivalent
    values. *)
Inductive result_equiv {E} `{Equiv A} : Equiv (result E A) :=
| Ok_equiv a b : a ≡ b → Ok a ≡ Ok b
| Err_equiv e : Err e ≡ Err e.
#[global] Existing Instance result_equiv.

(** ** Fixed-width integers on [Z] *)

Definition wrap (w z : Z) : Z := (z mod 2 ^ w)%Z.

Definition swrap (w z : Z) : Z :=
  ((z + 2 ^ (w - 1)) mod 2 ^ w - 2 ^ (w - 1))%Z.

Definition in_unsigned (w z : Z) : Prop := (0 ≤ z < 2 ^ w)%Z.

Definition in_signed (w z : Z) : Prop := (- 2 ^ (w - 1) ≤ z < 2 ^ (w - 1))%Z.

(** ** Tactics *)

(** [case_cond] splits on the first [decide] or [bool_decide] of the goal
    and cleans up; [vsimpl] unfolds the result combinators and simplifies. *)
Ltac case_cond :=
  first [ case_decide | case_bool_decide ]; simplify_eq/=; try done; try lia.

Ltac vsimpl :=
  unfold rbind, to_option, is_Ok in *; simplify_eq/=.

(** [by_compute] proves a decidable proposition by evaluating its decision
    procedure. *)
Ltac by_compute := apply (bool_decide_unpack _); vm_compute; exact I.

Create HintDb vespa discriminated.
Create Rewrite HintDb vespa.

(** ** Lemmas on results *)

Section result_lemmas.
Context {E A B : Type}.
Implicit Types (m : result E A) (k : A → result E B).

Lemma rbind_Ok m k b :
  rbind m k = Ok b ↔ ∃ a, m = Ok a ∧ k a = Ok b.
Proof. destruct m; vsimpl; [naive_solver | split; [done | by intros (? & ? & ?)]]. Qed.

Lemma rbind_Err m k e :
  rbind m k = Err e ↔ m = Err e ∨ ∃ a, m = Ok a ∧ k a = Err e.
Proof. destruct m; vsimpl; naive_solver. Qed.

Lemma to_option_Some m a : to_option m = Some a ↔ m = Ok a.
Proof. destruct m; vsimpl; naive_solver. Qed.

Lemma to_option_None m : to_option m = None ↔ ¬ is_Ok m.
Proof. destruct m; vsimpl; naive_solver. Qed.

Lemma is_Ok_alt m : is_Ok m ↔ ∃ a, m = Ok a.
Proof. destruct m; vsimpl; naive_solver. Qed.

End result_lemmas.

#[global] Instance result_equivalence {E} `{Equiv A} :
  Equivalence (≡@{A}) → Equivalence (≡@{result E A}).
Proof.
  intros HA. split.
  - intros [a|e]; by constructor.
  - intros m1 m2 []; by constructor.
  - intros m1 m2 m3 [] Hm; inversion Hm; subst; constructor. by etrans.
Qed.

#[global] Instance Ok_proper {E} `{Equiv A} : Proper ((≡) ==> (≡)) (@Ok E A).
Proof. by constructor. Qed.

#[global] Instance is_Ok_proper {E} `{Equiv A} :
  Proper ((≡) ==> iff) (@is_Ok E A).
Proof. by intros m1 m2 []. Qed.

(** ** Lemmas on widths *)

Section width.
Context (w : Z) (Hw : (0 < w)%Z).

Lemma pow2_half : (2 ^ w = 2 * 2 ^ (w - 1))%Z.
Proof using Hw. rewrite <-Z.pow_succ_r by lia. f_equal; lia. Qed.

Lemma pow2_half_pos : (0 < 2 ^ (w - 1))%Z.
Proof using Hw. apply Z.pow_pos_nonneg; lia. Qed.

Lemma wrap_range z : in_unsigned w (wrap w z).
Proof using Hw.
  unfold in_unsigned, wrap. apply Z.mod_pos_bound, Z.pow_pos_nonneg; lia.
Qed.

Lemma wrap_small z : in_unsigned w z → wrap w z = z.
Proof. unfold in_unsigned, wrap. intros. by apply Z.mod_small. Qed.

Lemma swrap_range z : in_signed w (swrap w z).
Proof using Hw.
  unfold in_signed, swrap.
  pose proof (wrap_range (z + 2 ^ (w - 1))) as Hr.
  unfold in_unsigned, wrap in Hr. pose proof pow2_half. lia.
Qed.

Lemma swrap_small z : in_signed w z → swrap w z = z.
Proof using Hw.
  unfold in_signed, swrap. intros Hz. pose proof pow2_half.
  rewrite Z.mod_small; lia.
Qed.

Lemma swrap_high z :
  (2 ^ (w - 1) ≤ z < 2 ^ w)%Z → swrap w z = (z - 2 ^ w)%Z.
Proof using Hw.
  unfold swrap. intros Hz. pose proof pow2_half.
  replace (z + 2 ^ (w - 1))%Z with ((z - 2 ^ (w - 1)) + 1 * 2 ^ w)%Z by lia.
  rewrite Z.mod_add by lia. rewrite Z.mod_small; lia.
Qed.

Lemma wrap_swrap_small z : in_unsigned w z → wrap w (swrap w z) = z.
Proof using Hw.
  intros Hz. unfold in_unsigned in Hz. pose proof pow2_half.
  destruct (decide (z < 2 ^ (w - 1))%Z).
  - rewrite swrap_small by (unfold in_signed; lia).
    apply wrap_small. unfold in_unsigned; lia.
  - rewrite swrap_high by lia. unfold wrap.
    replace (z - 2 ^ w)%Z with (z + (-1) * 2 ^ w)%Z by lia.
    rewrite Z.mod_add by lia. apply Z.mod_small; lia.
Qed.

End width.

(** ** Lemmas on lists *)

Section list_lemmas.
Context {A : Type}.
Implicit Types (l : list A) (x : A).

Lemma filter_all (P : A → Prop) `{!∀ x, Decision (P x)} l :
  (∀ x, x ∈ l → P x) → filter P l = l.
Proof.
  induction l as [|x l IH]; intros Hall; [done|].
  rewrite filter_cons_True by (apply Hall; left).
  f_equal. apply IH. intros y Hy. apply Hall. by right.
Qed.

Lemma filter_none (P : A → Prop) `{!∀ x, Decision (P x)} l :
  (∀ x, x ∈ l → ¬ P x) → filter P l = [].
Proof.
  induction l as [|x l IH]; intros Hall; [done|].
  rewrite filter_cons_False by (apply Hall; left).
  apply IH. intros y Hy. apply Hall. by right.
Qed.

(** A duplicate-free, non-empty list whose elements all equal [c] is [[c]]. *)
Lemma NoDup_all_eq l c :
  NoDup l → l ≠ [] → (∀ x, x ∈ l → x = c) → l = [c].
Proof.
  destruct l as [|x [|y l]]; intros Hnd Hne Hall; [done| |].
  - f_equal. apply Hall. left.
  - assert (x = c) as -> by (apply Hall; left).
    assert (y = c) as -> by (apply Hall; right; left).
    apply NoDup_cons in Hnd as [Hnin _]. destruct Hnin. left.
Qed.

(** In a list of pairs with distinct first components, the first
    component determines the second. *)
Lemma NoDup_fst_functional {B} (l : list (A * B)) x y1 y2 :
  NoDup l.*1 → (x, y1) ∈ l → (x, y2) ∈ l → y1 = y2.
Proof.
  induction l as [|[a b] l IH]; simpl; [by intros _ ?%elem_of_nil|].
  intros [Ha Hnd]%NoDup_cons H1 H2.
  apply elem_of_cons in H1 as [?|H1]; apply elem_of_cons in H2 as [?|H2];
    simplify_eq; [done | | | by apply IH]; destruct Ha; apply list_elem_of_fmap.
  - by exists (a, y2).
  - by exists (a, y1).
Qed.

(** In a list sorted by a key, the first element with a decidable property
    is the one with the least key among those that have it. *)
Lemma list_find_sorted_min (key : A → nat) (P : A → Prop) `{!∀ x, Decision (P x)}
    (l : list A) j x :
  StronglySorted lt (key <$> l) → list_find P l = Some (j, x) →
  x ∈ l ∧ P x ∧ ∀ y, y ∈ l → P y → key x ≤ key y.
Proof.
  revert j. induction l as [|a l IH]; intros j; [done|].
  rewrite fmap_cons, StronglySorted_cons, Forall_fmap, Forall_forall.
  intros [Hlt Hs]. cbn. case_decide as Ha.
  - intros [= <- <-]. split_and!; [left | done |].
    intros y [->|Hy]%elem_of_cons _; [done|]. apply Nat.lt_le_incl, Hlt, Hy.
  - destruct (list_find P l) as [[j' x']|] eqn:Hf; intros [= <- <-].
    destruct (IH j' Hs eq_refl) as (Hx & HP & Hmin).
    split_and!; [by right | done |].
    intros y [->|Hy]%elem_of_cons HPy; [done | by apply Hmin].
Qed.

End list_lemmas.

(** ** Numbering the members of a finite type by position *)

Lemma position_inj `{Countable A} : Inj (=) (=) (λ x : A, Z.of_nat (encode_nat x)).
Proof. intros x y Hxy. by apply (inj encode_nat), Nat2Z.inj. Qed.

Lemma position_range `{Finite A} (x : A) :
  (Z.of_nat (card A) ≤ 2 ^ 32)%Z → in_unsigned 32 (Z.of_nat (encode_nat x)).
Proof. pose proof (encode_lt_card x). unfold in_unsigned. lia. Qed.

#[export] Hint Resolve wrap_range swrap_range : vespa.
#[export] Hint Rewrite @rbind_Ok @to_option_Some : vespa.
