(* ===== verification/Logging.v ===== *)
(** * Log statements

    The sources log through the macros of [vespa/log/log.h]: [LOG_SETUP]
    names the component of a file, [LOG(level, format, args...)] issues one
    event when the logger wants the level, and [LOG_WOULD_LOG(level)] asks
    whether it does. The text of an event is produced by [printf] from the
    format and the arguments. The macros and [printf] are not part of the
    sources; this file models what the log statements of the sources use of
    them.

    - An argument of a variadic call is a value with its C type ([Arg]), on
      the LP64 data model of the platforms the code is built for:
      [uint32_t] is [unsigned int], [int64_t] is [long], [uint64_t] is
      [unsigned long].
    - [parse] reads a format into literal characters and conversions; the
      conversions are those the sources use ([%s], [%u], [%d], [%ld],
      [%lu]) and [%%]. [render] fills the conversions with the arguments in
      order. A conversion that meets an argument of another type, or none,
      is undefined behaviour in C and [None] here.
    - A number is printed at its width: [%u] prints its argument modulo
      2^32, [%ld] prints it as a signed 64-bit integer. *)

From Stdlib Require Import Ascii.
From stdpp Require Import pretty.
From S2P Require Import Prelude.

Module Log.

Inductive LogLevel :=
| fatal
| error
| warning
| config
| info
| event
| debug
| spam.

(** An argument after the default promotions. *)
Inductive Arg :=
| ArgString (s : string)
| ArgUnsignedInt (z : Z)
| ArgInt (z : Z)
| ArgLong (z : Z)
| ArgUnsignedLong (z : Z).

Inductive Piece :=
| Char (c : ascii)
| Conv_s
| Conv_u
| Conv_d
| Conv_ld
| Conv_lu.

#[global] Instance LogLevel_eq_dec : EqDecision LogLevel.
Proof. solve_decision. Defined.
#[global] Instance Arg_eq_dec : EqDecision Arg.
Proof. solve_decision. Defined.
#[global] Instance Piece_eq_dec : EqDecision Piece.
Proof. solve_decision. Defined.

(** The format of [uint64_t] in [inttypes.h]. *)
Definition PRIu64 : string := "lu".

(** The line feed, [\n] in a C literal. *)
Definition LF : string := String (ascii_of_nat 10) EmptyString.

Fixpoint parse (format : string) : option (list Piece) :=
  match format with
  | EmptyString => Some []
  | String "%" rest =>
      match rest with
      | String "%" rest' => cons (Char "%") <$> parse rest'
      | String "s" rest' => cons Conv_s <$> parse rest'
      | String "u" rest' => cons Conv_u <$> parse rest'
      | String "d" rest' => cons Conv_d <$> parse rest'
      | String "l" (String "d" rest') => cons Conv_ld <$> parse rest'
      | String "l" (String "u" rest') => cons Conv_lu <$> parse rest'
      | _ => None
      end
  | String c rest => cons (Char c) <$> parse rest
  end.

(** One conversion applied to one argument. *)
Definition convert (p : Piece) (a : Arg) : option string :=
  match p, a with
  | Conv_s, ArgString s => Some s
  | Conv_u, ArgUnsignedInt z => Some (pretty (wrap 32 z))
  | Conv_d, ArgInt z => Some (pretty (swrap 32 z))
  | Conv_ld, ArgLong z => Some (pretty (swrap 64 z))
  | Conv_lu, ArgUnsignedLong z => Some (pretty (wrap 64 z))
  | _, _ => None
  end.

(** Arguments left over are ignored, as in C. *)
Fixpoint render (pieces : list Piece) (args : list Arg) : option string :=
  match pieces with
  | [] => Some EmptyString
  | Char c :: pieces' => String c <$> render pieces' args
  | p :: pieces' =>
      match args with
      | a :: args' =>
          s ← convert p a; rest ← render pieces' args'; Some (s +:+ rest)
      | [] => None
      end
  end.

Definition printf (format : string) (args : list Arg) : option string :=
  pieces ← parse format; render pieces args.

Record LogEvent := mkLog {
  component : string;
  level : LogLevel;
  format : string;
  args : list Arg;
}.

(** The text of an event. *)
Definition message (ev : LogEvent) : option string :=
  printf (format ev) (args ev).

(** [LOG(level, format, args...)] in a file whose [LOG_SETUP] names
    [component], with a logger that wants the levels [wants]. *)
Definition LOG (wants : LogLevel → bool) (component : string) (level : LogLevel)
    (format : string) (args : list Arg) : list LogEvent :=
  if wants level then [mkLog component level format args] else [].

(** ** Typing of formats *)

Definition isConv (p : Piece) : bool :=
  match p with
  | Char _ => false
  | _ => true
  end.

(** The conversions of a format, in order. *)
Definition holes (pieces : list Piece) : list Piece :=
  filter (λ p, isConv p) pieces.

(** The C type a conversion expects. *)
Definition accepts (p : Piece) (a : Arg) : Prop := is_Some (convert p a).

#[global] Instance accepts_dec p a : Decision (accepts p a).
Proof. unfold accepts. apply _. Defined.

(** The arguments have the types the conversions expect, one by one. *)
Definition well_typed (format : string) (args : list Arg) : Prop :=
  ∃ pieces, parse format = Some pieces ∧
    Forall2 accepts (holes pieces) (take (length (holes pieces)) args) .

Section lemmas.
Implicit Types (pieces : list Piece) (args : list Arg) (p : Piece) (a : Arg).

Lemma append_empty_r (s : string) : s +:+ EmptyString = s.
Proof.
  induction s as [|c s IH]; [done|].
  change (String c (s +:+ EmptyString) = String c s). by rewrite IH.
Qed.

Lemma holes_Char c pieces : holes (Char c :: pieces) = holes pieces.
Proof. done. Qed.

Lemma holes_Conv p pieces : isConv p → holes (p :: pieces) = p :: holes pieces.
Proof. intros. unfold holes. by rewrite filter_cons_True. Qed.

Lemma render_Conv p pieces args :
  isConv p →
  render (p :: pieces) args =
    match args with
    | a :: args' => s ← convert p a; rest ← render pieces args'; Some (s +:+ rest)
    | [] => None
    end.
Proof. by destruct p. Qed.

(** [render] succeeds exactly when there is an argument of the right type
    for every conversion. *)
Lemma render_is_Some pieces args :
  is_Some (render pieces args) ↔
  Forall2 accepts (holes pieces) (take (length (holes pieces)) args).
Proof.
  revert args. induction pieces as [|p pieces IH]; intros args.
  - split; [constructor | by eexists].
  - destruct (isConv p) eqn:Hp.
    + rewrite holes_Conv, render_Conv by by rewrite Hp.
      destruct args as [|a args]; simpl.
      * split; [by intros [] | inversion 1].
      * rewrite Forall2_cons, <-IH. unfold accepts, is_Some.
        destruct (convert p a), (render pieces args); naive_solver.
    + destruct p; try done. rewrite holes_Char, <-IH. cbn [render].
      by rewrite fmap_is_Some.
Qed.

(** Formats are type safe: a well-typed call prints a text, and only a
    well-typed call does. *)
Lemma printf_is_Some format args :
  is_Some (printf format args) ↔ well_typed format args.
Proof.
  unfold printf, well_typed. destruct (parse format) as [pieces|]; simpl.
  - rewrite render_is_Some. naive_solver.
  - split; [by intros [] | by intros (? & ? & _)].
Qed.

#[global] Instance well_typed_dec format args : Decision (well_typed format args).
Proof.
  refine (cast_if (decide (is_Some (printf format args))));
    by rewrite <-printf_is_Some.
Defined.

Lemma elem_of_LOG wants component level format args ev :
  ev ∈ LOG wants component level format args ↔
  wants level = true ∧ ev = mkLog component level format args.
Proof.
  unfold LOG. destruct (wants level).
  - rewrite list_elem_of_singleton. naive_solver.
  - rewrite elem_of_nil. naive_solver.
Qed.

End lemmas.

(** [parse_format] evaluates the parser on the formats of the goal, which
    are literals. *)
Ltac parse_format :=
  repeat match goal with
  | |- context [parse ?fmt] =>
      let p := eval vm_compute in (parse fmt) in
      change (parse fmt) with p
  end.

End Log.
