(* ===== verification/Messagebus.v ===== *)
(** * Message bus values handled by the document protocol

    The message bus library is a collaborator of the protocol layer; its code
    is not part of the sources. This file holds what the facade touches:
    errors, replies, routables and the routing context with its child slots,
    as the specification (section 3) describes them. A routing context is an
    ordered sequence of slots, each empty or holding one reply, plus the
    reply of the context itself. *)

From S2P Require Import Prelude.

(** An error of a reply: a 32-bit code and a message. *)
Record Error := mkError {
  getCode : Z;
  getMessage : string;
}.

(** A routable: the type identifier and the opaque payload. *)
Record Routable := mkRoutable {
  getType : Z;
  getBody : list Z;
}.

(** A reply is a routable that also records errors. *)
Record Reply := mkReply {
  asRoutable : Routable;
  errors : list Error;
}.

#[global] Instance Error_eq_dec : EqDecision Error.
Proof. solve_decision. Defined.
#[global] Instance Routable_eq_dec : EqDecision Routable.
Proof. solve_decision. Defined.
#[global] Instance Reply_eq_dec : EqDecision Reply.
Proof. solve_decision. Defined.

Definition getNumErrors (r : Reply) : nat := length (errors r).

Definition getError (r : Reply) (i : nat) : option Error := errors r !! i.

Definition hasErrors (r : Reply) : bool := bool_decide (errors r ≠ []).

(** The reply with type 0, no payload and no error. *)
Definition EmptyReply : Reply := mkReply (mkRoutable 0 []) [].

Definition withErrors (es : list Error) (r : Reply) : Reply :=
  mkReply (asRoutable r) es.

(** The codes a reply reports, in order. *)
Definition codes (r : Reply) : list Z := getCode <$> errors r.

Record RoutingContext := mkContext {
  children : list (option Reply);
  getReply : option Reply;
}.

Definition setReply (r : Reply) (ctx : RoutingContext) : RoutingContext :=
  mkContext (children ctx) (Some r).

(** [skip(i).removeReply()]: the reply of child [i] leaves its slot. [None]
    when there is no such child or its slot is empty. *)
Definition removeReply (i : nat) (ctx : RoutingContext) :
    option (Reply * RoutingContext) :=
  match children ctx !! i with
  | Some (Some r) => Some (r, mkContext (<[i := None]> (children ctx)) (getReply ctx))
  | _ => None
  end.

(** Fixtures for concrete runs: a reply of type [type] that reports the
    codes [cs], and a context with the given slots and no reply. *)
Definition replyWith (type : Z) (cs : list Z) : Reply :=
  mkReply (mkRoutable type []) ((λ c, mkError c EmptyString) <$> cs).

Definition contextOf (slots : list (option Reply)) : RoutingContext :=
  mkContext slots None.

(** ** Lemmas *)

Lemma hasErrors_false r : hasErrors r = false ↔ errors r = [].
Proof.
  unfold hasErrors. rewrite bool_decide_eq_false. split; [|naive_solver].
  intros H. by destruct (decide (errors r = [])).
Qed.

Lemma hasErrors_true r : hasErrors r = true ↔ errors r ≠ [].
Proof. unfold hasErrors. by rewrite bool_decide_eq_true. Qed.

Lemma hasErrors_numErrors r : hasErrors r = bool_decide (0 < getNumErrors r).
Proof.
  unfold hasErrors, getNumErrors. apply bool_decide_ext.
  destruct (errors r); simpl; [split; [done | lia] | split; [lia | done]].
Qed.

Lemma getError_Some r i : i < getNumErrors r → is_Some (getError r i).
Proof. apply lookup_lt_is_Some_2. Qed.

Lemma codes_withErrors es r : codes (withErrors es r) = getCode <$> es.
Proof. done. Qed.

Section removeReply.
Context (i : nat) (ctx ctx' : RoutingContext) (r : Reply).
Hypothesis Hrm : removeReply i ctx = Some (r, ctx').

Lemma removeReply_slot : children ctx !! i = Some (Some r).
Proof using Hrm.
  unfold removeReply in Hrm.
  destruct (children ctx !! i) as [[?|]|]; by simplify_eq.
Qed.

Lemma removeReply_children : children ctx' = <[i := None]> (children ctx).
Proof using Hrm.
  unfold removeReply in Hrm.
  destruct (children ctx !! i) as [[?|]|]; by simplify_eq.
Qed.

Lemma removeReply_cleared : children ctx' !! i = Some None.
Proof using Hrm.
  rewrite removeReply_children. apply list_lookup_insert_eq.
  eapply lookup_lt_Some, removeReply_slot.
Qed.

Lemma removeReply_other j : j ≠ i → children ctx' !! j = children ctx !! j.
Proof using Hrm.
  intros. rewrite removeReply_children. by apply list_lookup_insert_ne.
Qed.

Lemma removeReply_length : length (children ctx') = length (children ctx).
Proof using Hrm. rewrite removeReply_children. apply length_insert. Qed.

Lemma removeReply_getReply : getReply ctx' = getReply ctx.
Proof using Hrm.
  unfold removeReply in Hrm.
  destruct (children ctx !! i) as [[?|]|]; by simplify_eq.
Qed.

End removeReply.

Lemma removeReply_Some i ctx r :
  children ctx !! i = Some (Some r) →
  removeReply i ctx = Some (r, mkContext (<[i := None]> (children ctx)) (getReply ctx)).
Proof. unfold removeReply. by intros ->. Qed.

#[export] Hint Resolve removeReply_slot removeReply_cleared removeReply_length : vespa.
