(* ===== verification/Version.v ===== *)
(** * Protocol versions and version specifications

    A protocol version is a (major, minor) pair. A version specification
    [(major, minorFloor)] applies to every version with that major and a
    minor at or above the floor (specification, section 3). Two
    specifications overlap when some version is covered by both. *)

From S2P Require Import Prelude.

Record Version := mkVersion {
  getMajor : nat;
  getMinor : nat;
}.

Record VersionSpecification := mkVersionSpecification {
  specMajor : nat;
  specMinorFloor : nat;
}.

#[global] Instance Version_eq_dec : EqDecision Version.
Proof. solve_decision. Defined.
#[global] Instance VersionSpecification_eq_dec : EqDecision VersionSpecification.
Proof. solve_decision. Defined.

(** [matches s v]: the specification [s] covers the version [v]. *)
Definition matches (s : VersionSpecification) (v : Version) : bool :=
  bool_decide (getMajor v = specMajor s) && bool_decide (specMinorFloor s ≤ getMinor v).

(** Two specifications of one major always share the versions above both
    floors, so they overlap exactly when their majors agree. *)
Definition overlaps (s1 s2 : VersionSpecification) : bool :=
  bool_decide (specMajor s1 = specMajor s2).

(** The registrations of one type, in registration order. *)
Definition lookupSpec {F} (v : Version) (regs : list (VersionSpecification * F)) :
    option (VersionSpecification * F) :=
  snd <$> list_find (λ p, matches p.1 v = true) regs.

(** No two registrations of the list overlap. *)
Definition disjointSpecs {F} (regs : list (VersionSpecification * F)) : Prop :=
  ∀ i j p q, regs !! i = Some p → regs !! j = Some q → i ≠ j →
    overlaps p.1 q.1 = false.

(** ** Lemmas *)

Lemma matches_spec s v :
  matches s v = true ↔ getMajor v = specMajor s ∧ specMinorFloor s ≤ getMinor v.
Proof.
  unfold matches. by rewrite andb_true_iff, !bool_decide_eq_true.
Qed.

Lemma overlaps_spec s1 s2 :
  overlaps s1 s2 = true ↔ ∃ v, matches s1 v = true ∧ matches s2 v = true.
Proof.
  unfold overlaps. rewrite bool_decide_eq_true. split.
  - intros Hm.
    exists (mkVersion (specMajor s1) (specMinorFloor s1 `max` specMinorFloor s2)).
    rewrite !matches_spec. simpl. lia.
  - intros (v & [? ?]%matches_spec & [? ?]%matches_spec). congruence.
Qed.

Lemma overlaps_sym s1 s2 : overlaps s1 s2 = overlaps s2 s1.
Proof. unfold overlaps. apply bool_decide_ext. naive_solver. Qed.

Lemma overlaps_refl s : overlaps s s = true.
Proof. unfold overlaps. by apply bool_decide_eq_true. Qed.

Lemma matches_overlaps s1 s2 v :
  matches s1 v = true → matches s2 v = true → overlaps s1 s2 = true.
Proof. intros. apply overlaps_spec. eauto. Qed.

Section lookupSpec.
Context {F : Type}.
Implicit Types (regs : list (VersionSpecification * F)) (v : Version).

Lemma lookupSpec_Some regs v p :
  lookupSpec v regs = Some p → p ∈ regs ∧ matches p.1 v = true.
Proof.
  unfold lookupSpec. intros Hf.
  destruct (list_find _ regs) as [[i q]|] eqn:Hfind; simplify_eq/=.
  apply list_find_Some in Hfind as (Hi & Hm & _).
  split; [by eapply list_elem_of_lookup_2 | done].
Qed.

Lemma lookupSpec_None regs v :
  lookupSpec v regs = None ↔ ∀ p, p ∈ regs → matches p.1 v = false.
Proof.
  unfold lookupSpec. rewrite fmap_None, list_find_None, Forall_forall.
  apply forall_proper; intros p. apply forall_proper; intros _.
  by rewrite not_true_iff_false.
Qed.

Lemma disjointSpecs_nil : disjointSpecs (@nil (VersionSpecification * F)).
Proof. intros i j p q Hi. by rewrite lookup_nil in Hi. Qed.

(** Appending a registration whose specification overlaps none of the list
    keeps the list disjoint. *)
Lemma disjointSpecs_snoc regs s f :
  disjointSpecs regs →
  (∀ p, p ∈ regs → overlaps s p.1 = false) →
  disjointSpecs (regs ++ [(s, f)]).
Proof.
  intros Hd Hs i j p q Hi Hj Hij.
  apply lookup_app_Some in Hi as [Hi|[Hil Hi]];
    apply lookup_app_Some in Hj as [Hj|[Hjl Hj]].
  - eauto.
  - apply list_lookup_singleton_Some in Hj as [_ <-]. simpl.
    rewrite overlaps_sym. apply Hs. by eapply list_elem_of_lookup_2.
  - apply list_lookup_singleton_Some in Hi as [_ <-]. simpl.
    apply Hs. by eapply list_elem_of_lookup_2.
  - apply list_lookup_singleton_Some in Hi as [? _].
    apply list_lookup_singleton_Some in Hj as [? _]. lia.
Qed.

(** In a disjoint list at most one registration covers a version, so the
    registration found does not depend on the order of the list. *)
Lemma disjointSpecs_unique regs v p q :
  disjointSpecs regs → p ∈ regs → q ∈ regs →
  matches p.1 v = true → matches q.1 v = true → p = q.
Proof.
  intros Hd [i Hi]%list_elem_of_lookup_1 [j Hj]%list_elem_of_lookup_1 Hp Hq.
  destruct (decide (i = j)) as [->|Hij]; [congruence|].
  pose proof (Hd i j p q Hi Hj Hij) as Hno.
  by rewrite (matches_overlaps _ _ v) in Hno.
Qed.

Lemma lookupSpec_elem_of regs v p :
  disjointSpecs regs → p ∈ regs → matches p.1 v = true →
  lookupSpec v regs = Some p.
Proof.
  intros Hd Hp Hm. destruct (lookupSpec v regs) as [q|] eqn:Hq.
  - apply lookupSpec_Some in Hq as [? ?]. f_equal. by eapply disjointSpecs_unique.
  - rewrite lookupSpec_None in Hq. by rewrite (Hq p Hp) in Hm.
Qed.

(** Resolution is invariant under permutation of a disjoint list. *)
Lemma lookupSpec_Permutation regs regs' v :
  disjointSpecs regs → regs ≡ₚ regs' → disjointSpecs regs' →
  lookupSpec v regs = lookupSpec v regs'.
Proof.
  intros Hd Hp Hd'. destruct (lookupSpec v regs) as [p|] eqn:Hl.
  - apply lookupSpec_Some in Hl as [Hin Hm]. symmetry.
    apply lookupSpec_elem_of; [done| by rewrite <-Hp |done].
  - symmetry. rewrite lookupSpec_None in *. intros p Hin. apply Hl.
    by rewrite Hp.
Qed.

End lookupSpec.

#[export] Hint Resolve disjointSpecs_nil disjointSpecs_snoc : vespa.
