(* ===== verification/RoutableRepo.v ===== *)
(** * The routable codec registry

    [RoutableRepository] maps a routable type and a protocol version to the
    codec registered for them (specification 4.1). Its code is not part of
    the sources; the definitions follow the specification: registration
    refuses a version specification that overlaps one already present for the
    type, [encode] fails when no codec covers the pair, [decode] reads the
    type from the fixed header and answers absent when the bytes are too
    short, the type is unknown for the version, or the codec rejects them. A
    codec may also raise; only the facade turns that into absent.

    The wire header is the type identifier as four bytes in network order. *)

From S2P Require Import Prelude Messagebus Version.

Module RoutableRepository.

(** A codec: the encoder of a body and its decoder. The decoder answers
    [Ok (Some r)], rejects with [Ok None], or raises with [Err msg]. *)
Record IRoutableFactory := mkFactory {
  encodeBody : Routable → list Z;
  decodeBody : list Z → result string (option Routable);
}.

Inductive RepoError :=
| ConfigurationError (type : Z) (spec : VersionSpecification)
| UnsupportedTypeOrVersion (type : Z) (v : Version).

Record RoutableRepository := mkRepo {
  factoryTypes : gmap Z (list (VersionSpecification * IRoutableFactory));
}.

Definition empty : RoutableRepository := mkRepo ∅.

(** The registrations of a type, in registration order. *)
Definition registrations (type : Z) (repo : RoutableRepository) :
    list (VersionSpecification * IRoutableFactory) :=
  default [] (factoryTypes repo !! type).

Definition putFactory (spec : VersionSpecification) (type : Z)
    (factory : IRoutableFactory) (repo : RoutableRepository) :
    result RepoError RoutableRepository :=
  let regs := registrations type repo in
  if decide (Exists (λ p, overlaps spec p.1 = true) regs)
  then Err (ConfigurationError type spec)
  else Ok (mkRepo (<[type := regs ++ [(spec, factory)]]> (factoryTypes repo))).

Definition getFactory (v : Version) (type : Z) (repo : RoutableRepository) :
    option IRoutableFactory :=
  snd <$> lookupSpec v (registrations type repo).

(** The header: a 32-bit integer, most significant byte first. *)
Definition putInt (t : Z) : list Z := reverse (Z_to_little_endian 4 8 t).

Definition getInt (data : list Z) : option (Z * list Z) :=
  if decide (length data < 4) then None
  else Some (little_endian_to_Z 8 (reverse (take 4 data)), drop 4 data).

Definition encode (v : Version) (r : Routable) (repo : RoutableRepository) :
    result RepoError (list Z) :=
  match getFactory v (getType r) repo with
  | None => Err (UnsupportedTypeOrVersion (getType r) v)
  | Some f => Ok (putInt (getType r) ++ encodeBody f r)
  end.

Definition decode (v : Version) (data : list Z) (repo : RoutableRepository) :
    result string (option Routable) :=
  match getInt data with
  | None => Ok None
  | Some (type, body) =>
      match getFactory v type repo with
      | None => Ok None
      | Some f => decodeBody f body
      end
  end.

(** The types with a codec for [v] are appended to [out]; their number is
    returned with the new vector. *)
Definition supportedTypes (v : Version) (repo : RoutableRepository) : list Z :=
  filter (λ t, is_Some (getFactory v t repo)) (map_to_list (factoryTypes repo)).*1.

Definition getRoutableTypes (v : Version) (out : list Z) (repo : RoutableRepository) :
    nat * list Z :=
  (length (supportedTypes v repo), out ++ supportedTypes v repo).

(** The invariant: per type, no two registered specifications overlap. *)
Definition wf (repo : RoutableRepository) : Prop :=
  ∀ type, disjointSpecs (registrations type repo).

(** A byte string: every element is a byte. *)
Definition bytes (bs : list Z) : Prop := Forall (λ b, 0 ≤ b < 2 ^ 8)%Z bs.

(** ** The header round-trips *)

Lemma length_putInt t : length (putInt t) = 4.
Proof.
  unfold putInt. rewrite length_reverse.
  apply Nat2Z.inj. by rewrite length_Z_to_little_endian.
Qed.

Lemma bytes_putInt t : bytes (putInt t).
Proof.
  unfold bytes, putInt. rewrite Forall_reverse.
  by apply Z_to_little_endian_bound.
Qed.

Lemma getInt_putInt t body :
  in_unsigned 32 t → getInt (putInt t ++ body) = Some (t, body).
Proof.
  intros Ht. unfold getInt.
  rewrite decide_False by (rewrite length_app, length_putInt; lia).
  rewrite (take_app_length' (putInt t)) by (by rewrite length_putInt).
  rewrite (drop_app_length' (putInt t)) by (by rewrite length_putInt).
  unfold putInt. rewrite reverse_involutive.
  rewrite little_endian_to_Z_to_little_endian by lia.
  do 2 f_equal. exact (wrap_small 32 t Ht).
Qed.

Lemma getInt_short data : length data < 4 → getInt data = None.
Proof. intros. unfold getInt. by rewrite decide_True. Qed.

Lemma getInt_Some data t body :
  getInt data = Some (t, body) → 4 ≤ length data ∧ body = drop 4 data.
Proof. unfold getInt. case_decide; intros; simplify_eq. split; [lia | done]. Qed.

(** ** Registration *)

Section registry.
Implicit Types (repo : RoutableRepository) (spec : VersionSpecification)
  (f : IRoutableFactory) (v : Version) (type : Z).

Lemma registrations_empty type : registrations type empty = [].
Proof. unfold registrations, empty. simpl. by rewrite lookup_empty. Qed.

Lemma wf_empty : wf empty.
Proof. intros type. rewrite registrations_empty. apply disjointSpecs_nil. Qed.

Lemma putFactory_Ok spec type f repo repo' :
  putFactory spec type f repo = Ok repo' ↔
  (∀ p, p ∈ registrations type repo → overlaps spec p.1 = false) ∧
  repo' = mkRepo (<[type := registrations type repo ++ [(spec, f)]]> (factoryTypes repo)).
Proof.
  unfold putFactory. case_decide as He; split.
  - done.
  - intros [Hno _]. apply Exists_exists in He as (p & Hp & Ho).
    by rewrite (Hno p Hp) in Ho.
  - intros ?; simplify_eq. split; [|done]. intros p Hp.
    apply not_true_is_false. intros Ho. apply He, Exists_exists. eauto.
  - by intros [_ ->].
Qed.

Lemma putFactory_Err spec type f repo e :
  putFactory spec type f repo = Err e ↔
  e = ConfigurationError type spec ∧
  ∃ p, p ∈ registrations type repo ∧ overlaps spec p.1 = true.
Proof.
  unfold putFactory. case_decide as He; split.
  - intros ?; simplify_eq. split; [done|]. by apply Exists_exists in He.
  - by intros [-> _].
  - done.
  - intros [_ Hex]. destruct He. by apply Exists_exists.
Qed.

Lemma registrations_putFactory spec type f repo repo' type' :
  putFactory spec type f repo = Ok repo' →
  registrations type' repo' =
    if decide (type = type') then registrations type repo ++ [(spec, f)]
    else registrations type' repo.
Proof.
  intros [_ ->]%putFactory_Ok. unfold registrations at 1. simpl.
  case_decide as Ht.
  - subst. by rewrite lookup_insert_eq.
  - by rewrite lookup_insert_ne.
Qed.

Lemma putFactory_wf spec type f repo repo' :
  wf repo → putFactory spec type f repo = Ok repo' → wf repo'.
Proof.
  intros Hwf Hput type'. rewrite (registrations_putFactory _ _ _ _ _ _ Hput).
  apply putFactory_Ok in Hput as [Hno _].
  case_decide; [by apply disjointSpecs_snoc | done].
Qed.

(** What a successful registration changes in resolution: the new codec
    answers for its type at the versions its specification covers, and
    nothing else moves. *)
Lemma getFactory_putFactory spec type f repo repo' v type' :
  putFactory spec type f repo = Ok repo' →
  getFactory v type' repo' =
    if decide (type = type' ∧ matches spec v = true) then Some f
    else getFactory v type' repo.
Proof.
  intros Hput. unfold getFactory.
  rewrite (registrations_putFactory _ _ _ _ _ _ Hput).
  apply putFactory_Ok in Hput as [Hno _].
  destruct (decide (type = type')) as [<-|Hne]; [|by rewrite decide_False by tauto].
  unfold lookupSpec.
  destruct (list_find _ (registrations type repo)) as [[i p]|] eqn:Hfind.
  - erewrite list_find_app_l by done.
    apply list_find_Some in Hfind as (Hi & Hm & _).
    rewrite decide_False; [done|]. intros [_ Hs].
    pose proof (Hno p (list_elem_of_lookup_2 _ _ _ Hi)) as Ho.
    by rewrite (matches_overlaps _ _ v) in Ho.
  - rewrite list_find_app_r by done. simpl.
    destruct (decide (matches spec v = true)) as [Hm|Hm].
    + by rewrite decide_True by done.
    + by rewrite decide_False by tauto.
Qed.

Lemma getFactory_Some v type repo f :
  getFactory v type repo = Some f →
  ∃ spec, (spec, f) ∈ registrations type repo ∧ matches spec v = true.
Proof.
  unfold getFactory. intros ([spec f'] & Hl & ?)%fmap_Some. simplify_eq/=.
  apply lookupSpec_Some in Hl as [? ?]. eauto.
Qed.

Lemma getFactory_registered v type repo spec f :
  wf repo → (spec, f) ∈ registrations type repo → matches spec v = true →
  getFactory v type repo = Some f.
Proof.
  intros Hwf Hin Hm. unfold getFactory.
  by rewrite (lookupSpec_elem_of _ v (spec, f)).
Qed.

(** ** Encoding and decoding *)

Lemma encode_Ok v r repo bs :
  encode v r repo = Ok bs ↔
  ∃ f, getFactory v (getType r) repo = Some f ∧
       bs = putInt (getType r) ++ encodeBody f r.
Proof. unfold encode. destruct (getFactory _ _ _); naive_solver. Qed.

Lemma encode_Err v r repo e :
  encode v r repo = Err e ↔
  getFactory v (getType r) repo = None ∧ e = UnsupportedTypeOrVersion (getType r) v.
Proof. unfold encode. destruct (getFactory _ _ _); naive_solver. Qed.

Lemma decode_encode v r repo bs f :
  in_unsigned 32 (getType r) →
  getFactory v (getType r) repo = Some f →
  encode v r repo = Ok bs →
  decode v bs repo = decodeBody f (encodeBody f r).
Proof.
  intros Ht Hf (f' & Hf' & ->)%encode_Ok. simplify_eq.
  unfold decode. rewrite getInt_putInt by done. by rewrite Hf.
Qed.

Lemma decode_short v data repo : length data < 4 → decode v data repo = Ok None.
Proof. intros. unfold decode. by rewrite getInt_short. Qed.

Lemma decode_unknown v data repo t body :
  getInt data = Some (t, body) → getFactory v t repo = None →
  decode v data repo = Ok None.
Proof. intros Hg Hf. unfold decode. by rewrite Hg, Hf. Qed.

(** ** Enumeration *)

Lemma elem_of_supportedTypes v repo t :
  t ∈ supportedTypes v repo ↔ is_Some (getFactory v t repo).
Proof.
  unfold supportedTypes. rewrite list_elem_of_filter. split; [tauto|].
  intros Hs. split; [done|]. destruct Hs as [f Hf].
  apply getFactory_Some in Hf as (spec & Hin & _).
  unfold registrations in Hin.
  destruct (factoryTypes repo !! t) as [regs|] eqn:Hl;
    [|by apply elem_of_nil in Hin].
  apply list_elem_of_fmap. exists (t, regs). split; [done|].
  by apply elem_of_map_to_list.
Qed.

Lemma NoDup_supportedTypes v repo : NoDup (supportedTypes v repo).
Proof. apply NoDup_filter, NoDup_fst_map_to_list. Qed.

Lemma getRoutableTypes_count v out repo :
  (getRoutableTypes v out repo).1 = length (getRoutableTypes v [] repo).2.
Proof. done. Qed.

End registry.

(** ** Registries that resolve alike

    Two registries are equivalent when they resolve every version and type
    to the same codec. Every operation respects the equivalence, and the
    order of two registrations is not observable. *)

#[global] Instance repo_equiv : Equiv RoutableRepository := λ repo1 repo2,
  ∀ v type, getFactory v type repo1 = getFactory v type repo2.

#[global] Instance repo_equivalence : Equivalence (≡@{RoutableRepository}).
Proof.
  split; [by intros repo v t | by intros repo1 repo2 H v t|].
  intros repo1 repo2 repo3 H1 H2 v t. by rewrite H1.
Qed.

#[global] Instance getFactory_proper v type :
  Proper ((≡) ==> (=)) (getFactory v type).
Proof. intros repo1 repo2 H. apply H. Qed.

#[global] Instance encode_proper v r : Proper ((≡) ==> (=)) (encode v r).
Proof. intros repo1 repo2 H. unfold encode. by rewrite H. Qed.

#[global] Instance decode_proper v data : Proper ((≡) ==> (=)) (decode v data).
Proof.
  intros repo1 repo2 H. unfold decode.
  destruct (getInt data) as [[t body]|]; [|done]. by rewrite H.
Qed.

#[global] Instance supportedTypes_proper v :
  Proper ((≡) ==> (≡ₚ)) (supportedTypes v).
Proof.
  intros repo1 repo2 H. apply NoDup_Permutation; [apply NoDup_supportedTypes..|].
  intros t. by rewrite !elem_of_supportedTypes, H.
Qed.

#[global] Instance getRoutableTypes_proper v out :
  Proper ((≡) ==> prod_relation (=) (≡ₚ)) (getRoutableTypes v out).
Proof.
  intros repo1 repo2 H. unfold getRoutableTypes. split; simpl; by rewrite H.
Qed.

Section equivalence.
Implicit Types (repo : RoutableRepository) (spec : VersionSpecification)
  (f : IRoutableFactory) (v : Version) (type : Z).

(** Whether a registration succeeds is a matter of resolution alone: no
    version the new specification covers may have a codec already. *)
Lemma putFactory_is_Ok spec type f repo :
  is_Ok (putFactory spec type f repo) ↔
  ∀ v, matches spec v = true → getFactory v type repo = None.
Proof.
  rewrite is_Ok_alt. setoid_rewrite putFactory_Ok. split.
  - intros (? & Hno & _) v Hv. unfold getFactory.
    rewrite (proj2 (lookupSpec_None _ v)); [done|].
    intros p Hp. apply not_true_is_false. intros Hm.
    pose proof (Hno p Hp) as Ho. by rewrite (matches_overlaps _ _ v Hv Hm) in Ho.
  - intros Hnone. eexists. split; [|done]. intros p Hp.
    apply not_true_is_false. intros (v & Hv & Hm)%overlaps_spec.
    specialize (Hnone v Hv). unfold getFactory in Hnone.
    apply fmap_None in Hnone. rewrite lookupSpec_None in Hnone.
    by rewrite (Hnone p Hp) in Hm.
Qed.

Lemma putFactory_error spec type f repo e :
  putFactory spec type f repo = Err e → e = ConfigurationError type spec.
Proof. by intros [-> _]%putFactory_Err. Qed.

End equivalence.

#[global] Instance putFactory_proper spec type f :
  Proper ((≡) ==> (≡)) (putFactory spec type f).
Proof.
  intros repo1 repo2 H.
  assert (is_Ok (putFactory spec type f repo1) ↔
          is_Ok (putFactory spec type f repo2)) as H1.
  { rewrite !putFactory_is_Ok.
    split; intros Hn v Hv; [rewrite <-(H v type) | rewrite (H v type)]; by apply Hn. }
  destruct (putFactory spec type f repo1) as [r1|e1] eqn:Hp1,
    (putFactory spec type f repo2) as [r2|e2] eqn:Hp2; simpl in *; try tauto.
  - constructor. intros v t.
    by rewrite (getFactory_putFactory _ _ _ _ _ _ _ Hp1),
      (getFactory_putFactory _ _ _ _ _ _ _ Hp2), H.
  - apply putFactory_error in Hp1 as ->. apply putFactory_error in Hp2 as ->.
    constructor.
Qed.

(** Two registrations that both succeed succeed in the other order too,
    and give a registry that resolves alike. *)
Lemma putFactory_swap spec1 type1 f1 spec2 type2 f2 repo r1 r12 :
  putFactory spec1 type1 f1 repo = Ok r1 →
  putFactory spec2 type2 f2 r1 = Ok r12 →
  ∃ r2 r21, putFactory spec2 type2 f2 repo = Ok r2 ∧
            putFactory spec1 type1 f1 r2 = Ok r21 ∧ r12 ≡ r21.
Proof.
  intros Hp1 Hp12.
  assert (∀ v, matches spec2 v = true →
    ¬ (type1 = type2 ∧ matches spec1 v = true) ∧ getFactory v type2 repo = None)
    as Hfree.
  { intros v Hv.
    pose proof (proj1 (putFactory_is_Ok spec2 type2 f2 r1)) as Hn.
    rewrite Hp12 in Hn. specialize (Hn I v Hv).
    rewrite (getFactory_putFactory _ _ _ _ _ _ _ Hp1) in Hn.
    by case_decide. }
  destruct (putFactory spec2 type2 f2 repo) as [r2|] eqn:Hp2; last first.
  { assert (is_Ok (putFactory spec2 type2 f2 repo)) as Hok
      by (apply putFactory_is_Ok; intros; by apply Hfree).
    by rewrite Hp2 in Hok. }
  destruct (putFactory spec1 type1 f1 r2) as [r21|] eqn:Hp21; last first.
  { assert (is_Ok (putFactory spec1 type1 f1 r2)) as Hok.
    { apply putFactory_is_Ok. intros v Hv.
      rewrite (getFactory_putFactory _ _ _ _ _ _ _ Hp2).
      rewrite decide_False by (intros [-> ?]; by destruct (Hfree v) as [[] _]).
      pose proof (proj1 (putFactory_is_Ok spec1 type1 f1 repo)) as Hn.
      rewrite Hp1 in Hn. by apply Hn. }
    by rewrite Hp21 in Hok. }
  exists r2, r21. split_and!; [done..|]. intros v t.
  rewrite (getFactory_putFactory _ _ _ _ _ _ _ Hp12),
    (getFactory_putFactory _ _ _ _ _ _ _ Hp1),
    (getFactory_putFactory _ _ _ _ _ _ _ Hp21),
    (getFactory_putFactory _ _ _ _ _ _ _ Hp2).
  repeat case_decide; try done. destruct_and!. subst.
  by destruct (Hfree v) as [[] _].
Qed.

End RoutableRepository.

#[export] Hint Resolve RoutableRepository.wf_empty RoutableRepository.putFactory_wf : vespa.
