(* ===== verification/PolicyRepo.v ===== *)
(** * The routing policy registry

    [RoutingPolicyRepository] maps a policy name to the factory that builds
    policy instances from a parameter string (specification 4.2). Its code is
    not part of the sources. Registration overwrites: the last factory put
    under a name is the one [createPolicy] uses. A name without a factory is
    [UnknownPolicyName]; a factory that refuses its parameter is
    [PolicyConstructionError], carrying the name and the parameter.

    The registry is generic in the type [F] of factories and [P] of policy
    instances; what a factory does with a parameter is the function
    [create], supplied by the client. *)

From S2P Require Import Prelude.

Module RoutingPolicyRepository.

Inductive PolicyError :=
| UnknownPolicyName (name : string)
| PolicyConstructionError (name param : string).

#[global] Instance PolicyError_eq_dec : EqDecision PolicyError.
Proof. solve_decision. Defined.

Record RoutingPolicyRepository (F : Type) := mkRepo {
  factories : gmap string F;
}.
Arguments mkRepo {F} _.
Arguments factories {F} _.

Definition empty {F} : RoutingPolicyRepository F := mkRepo ∅.

Definition putFactory {F} (name : string) (factory : F)
    (repo : RoutingPolicyRepository F) : RoutingPolicyRepository F :=
  mkRepo (<[name := factory]> (factories repo)).

Definition getFactory {F} (name : string) (repo : RoutingPolicyRepository F) :
    option F :=
  factories repo !! name.

Definition createPolicy {F P} (create : F → string → option P)
    (name param : string) (repo : RoutingPolicyRepository F) :
    result PolicyError P :=
  match getFactory name repo with
  | None => Err (UnknownPolicyName name)
  | Some factory =>
      match create factory param with
      | Some policy => Ok policy
      | None => Err (PolicyConstructionError name param)
      end
  end.

(** ** Lemmas *)

Section lemmas.
Context {F P : Type} (create : F → string → option P).
Implicit Types (repo : RoutingPolicyRepository F) (name param : string) (f : F).

Lemma getFactory_empty name : getFactory name (@empty F) = None.
Proof. apply lookup_empty. Qed.

Lemma policy_getFactory_putFactory name name' f repo :
  getFactory name' (putFactory name f repo) =
    if decide (name = name') then Some f else getFactory name' repo.
Proof. unfold getFactory, putFactory. simpl. apply lookup_insert. Qed.

(** Re-registration: the newest factory of a name wins. *)
Lemma putFactory_twice name f f' repo :
  putFactory name f' (putFactory name f repo) = putFactory name f' repo.
Proof. unfold putFactory. simpl. by rewrite insert_insert_eq. Qed.

Lemma putFactory_comm name name' f f' repo :
  name ≠ name' →
  putFactory name f (putFactory name' f' repo) =
  putFactory name' f' (putFactory name f repo).
Proof. intros. unfold putFactory. simpl. f_equal. by apply insert_insert_ne. Qed.

(** The factory found after a sequence of registrations is the last one
    registered under the name. *)
Lemma getFactory_foldl (table : list (string * F)) name repo :
  getFactory name (foldl (λ r p, putFactory p.1 p.2 r) repo table) =
    match list_find (λ p, p.1 = name) (reverse table) with
    | Some (_, p) => Some p.2
    | None => getFactory name repo
    end.
Proof.
  revert repo. induction table as [|[n f] table IH] using rev_ind; intros repo.
  - done.
  - rewrite foldl_app, reverse_app. simpl.
    rewrite policy_getFactory_putFactory. case_decide; [done|].
    rewrite IH. by destruct (list_find _ (reverse table)) as [[? ?]|].
Qed.

Lemma getFactory_foldl_notin (table : list (string * F)) name repo :
  name ∉ table.*1 →
  getFactory name (foldl (λ r p, putFactory p.1 p.2 r) repo table) =
    getFactory name repo.
Proof.
  revert repo. induction table as [|[n f] table IH]; intros repo Hn; [done|].
  simpl in *. apply not_elem_of_cons in Hn as [? ?].
  rewrite IH, policy_getFactory_putFactory by done. by rewrite decide_False.
Qed.

(** With one row per name, the factory of a row is the one found under its
    name. *)
Lemma getFactory_foldl_elem_of (table : list (string * F)) name f repo :
  NoDup table.*1 → (name, f) ∈ table →
  getFactory name (foldl (λ r p, putFactory p.1 p.2 r) repo table) = Some f.
Proof.
  revert repo. induction table as [|[n g] table IH]; intros repo Hnd Hin;
    [by apply elem_of_nil in Hin|].
  simpl in *. apply NoDup_cons in Hnd as [Hn Hnd].
  apply elem_of_cons in Hin as [[= -> ->]|Hin]; [|by apply IH].
  rewrite getFactory_foldl_notin, policy_getFactory_putFactory by done.
  by rewrite decide_True.
Qed.

(** With one row per name, the order of the rows does not matter. *)
Lemma getFactory_foldl_Permutation (table table' : list (string * F)) name repo :
  NoDup table.*1 → table ≡ₚ table' →
  getFactory name (foldl (λ r p, putFactory p.1 p.2 r) repo table) =
  getFactory name (foldl (λ r p, putFactory p.1 p.2 r) repo table').
Proof.
  intros Hnd Hperm.
  assert (NoDup table'.*1) as Hnd' by by rewrite <-Hperm.
  destruct (decide (name ∈ table.*1)) as [Hin|Hnin].
  - apply list_elem_of_fmap in Hin as ([n f] & -> & Hin). simpl.
    rewrite (getFactory_foldl_elem_of table n f) by done.
    by rewrite (getFactory_foldl_elem_of table' n f) by (done || by rewrite <-Hperm).
  - rewrite (getFactory_foldl_notin table) by done.
    by rewrite (getFactory_foldl_notin table') by by rewrite <-Hperm.
Qed.

Lemma createPolicy_Ok name param repo policy :
  createPolicy create name param repo = Ok policy ↔
  ∃ f, getFactory name repo = Some f ∧ create f param = Some policy.
Proof.
  unfold createPolicy. destruct (getFactory name repo) as [f|]; [|naive_solver].
  destruct (create f param) eqn:?; naive_solver.
Qed.

Lemma createPolicy_unknown name param repo :
  getFactory name repo = None →
  createPolicy create name param repo = Err (UnknownPolicyName name).
Proof. unfold createPolicy. by intros ->. Qed.

Lemma createPolicy_rejected name param repo f :
  getFactory name repo = Some f → create f param = None →
  createPolicy create name param repo = Err (PolicyConstructionError name param).
Proof. unfold createPolicy. by intros -> ->. Qed.

Lemma createPolicy_Err name param repo e :
  createPolicy create name param repo = Err e →
  e = UnknownPolicyName name ∨ e = PolicyConstructionError name param.
Proof.
  unfold createPolicy. destruct (getFactory name repo) as [f|]; [|naive_solver].
  destruct (create f param); naive_solver.
Qed.

End lemmas.

End RoutingPolicyRepository.
