(* ===== verification/Merger.v ===== *)
(** * The reply merger

    [ReplyMerger] collapses the replies of a fan-out into one verdict
    (specification 4.3). Its code is not part of the sources; what the facade
    relies on is stated as an interface, and a reference implementation
    written from the specification discharges it.

    - The verdict ([Result]) forwards the lowest child index whose reply has
      no error, or carries a synthesized reply when every merged reply
      failed.
    - The synthesized reply has one error per distinct code observed,
      annotated with the number of children that reported the code, ordered
      by descending number and then ascending code. When one code is all
      that was observed, the first error reported with it is carried as it
      was reported.
    - [verdict_spec] is the contract over the list of merged replies. The
      class [ReplyMerger] packs the three operations the facade calls with
      the law that they meet the contract; the facade's theorems are proved
      against the class.
    - [Impl] is the reference implementation: it keeps the lowest successful
      index and the failed replies, and [Impl.mergedReply_refines] shows that
      this state implements the contract. *)

From stdpp Require Import pretty.
From S2P Require Import Prelude Messagebus.

Module ReplyMerger.

Inductive Result :=
| Forward (idx : nat)
| Synthesized (reply : Reply).

Definition isSuccessful (res : Result) : bool :=
  if res is Forward _ then true else false.

Definition hasGeneratedReply (res : Result) : bool :=
  if res is Synthesized _ then true else false.

Definition getSuccessfulReplyIndex (res : Result) : nat :=
  if res is Forward idx then idx else 0.

Definition releaseGeneratedReply (res : Result) : option Reply :=
  if res is Synthesized reply then Some reply else None.

(** Asking for a verdict with nothing merged breaks the contract. *)
Inductive MergerError :=
| NothingMerged.

#[global] Instance Result_eq_dec : EqDecision Result.
Proof. solve_decision. Defined.
#[global] Instance MergerError_eq_dec : EqDecision MergerError.
Proof. solve_decision. Defined.

(** ** Aggregation of failures *)

(** The number of replies that report the code [c]. *)
Definition reporters (c : Z) (rs : list Reply) : nat :=
  length (filter (λ r, c ∈ codes r) rs).

(** The distinct codes observed, in order of first appearance. *)
Definition observed (rs : list Reply) : list Z := remove_dups (rs ≫= codes).

(** Entries are ordered by descending number of reporters, then by
    ascending code. *)
Definition entry_le (a b : Z * nat) : Prop :=
  b.2 < a.2 ∨ (a.2 = b.2 ∧ (a.1 ≤ b.1)%Z).

#[global] Instance entry_le_dec : RelDecision entry_le.
Proof. intros a b. unfold entry_le. apply _. Defined.

Definition entries (rs : list Reply) : list (Z * nat) :=
  merge_sort entry_le ((λ c, (c, reporters c rs)) <$> observed rs).

(** The first error reported with code [c]. *)
Definition firstError (c : Z) (rs : list Reply) : Error :=
  default (mkError c EmptyString) (head (filter (λ e, getCode e = c) (rs ≫= errors))).

Definition annotated (e : Z * nat) : Error := mkError e.1 (pretty e.2).

Definition synthesize (rs : list Reply) : Reply :=
  withErrors
    match entries rs with
    | [(c, _)] => [firstError c rs]
    | es => annotated <$> es
    end
    EmptyReply.

(** ** The order on entries *)

#[global] Instance entry_le_total : Total entry_le.
Proof. intros [c n] [c' n']. unfold entry_le. simpl. lia. Qed.

#[global] Instance entry_le_trans : Transitive entry_le.
Proof. intros [c n] [c' n'] [c'' n'']. unfold entry_le. simpl. lia. Qed.

#[global] Instance entry_le_antisymm : AntiSymm (=) entry_le.
Proof.
  intros [c n] [c' n']. unfold entry_le. simpl. intros ? ?.
  f_equal; lia.
Qed.

(** ** Lemmas on aggregation *)

Section aggregation.
Implicit Types (rs : list Reply) (c : Z) (e : Z * nat).

Lemma elem_of_observed c rs : c ∈ observed rs ↔ ∃ r, r ∈ rs ∧ c ∈ codes r.
Proof.
  unfold observed. rewrite elem_of_remove_dups, list_elem_of_bind. naive_solver.
Qed.

Lemma reporters_pos c rs : c ∈ observed rs → 0 < reporters c rs.
Proof.
  intros (r & Hr & Hc)%elem_of_observed. unfold reporters.
  assert (r ∈ filter (λ r, c ∈ codes r) rs) as Hin by by apply list_elem_of_filter.
  destruct (filter _ rs); [by apply elem_of_nil in Hin | simpl; lia].
Qed.

Lemma reporters_le c rs : reporters c rs ≤ length rs.
Proof. apply length_filter. Qed.

Lemma entries_Permutation rs :
  entries rs ≡ₚ (λ c, (c, reporters c rs)) <$> observed rs.
Proof. apply merge_sort_Permutation. Qed.

Lemma elem_of_entries e rs :
  e ∈ entries rs ↔ e.1 ∈ observed rs ∧ e.2 = reporters e.1 rs.
Proof.
  rewrite entries_Permutation, list_elem_of_fmap. destruct e as [c n]. simpl.
  split; [by intros (c' & [= -> ->] & ?) | intros [? ->]; eauto].
Qed.

Lemma entries_fst rs : (entries rs).*1 ≡ₚ observed rs.
Proof.
  rewrite entries_Permutation, <-list_fmap_compose.
  by rewrite (list_fmap_ext _ id (observed rs)), list_fmap_id.
Qed.

Lemma NoDup_entries_fst rs : NoDup (entries rs).*1.
Proof. rewrite entries_fst. apply NoDup_remove_dups. Qed.

Lemma entries_sorted rs : StronglySorted entry_le (entries rs).
Proof. apply StronglySorted_merge_sort; apply _. Qed.

(** The entries are determined by the set of observed codes and their
    numbers: any sorted list with the same elements is the same list. *)
Lemma entries_unique rs es :
  StronglySorted entry_le es → es ≡ₚ entries rs → es = entries rs.
Proof.
  intros Hs Hp.
  apply (StronglySorted_unique entry_le); [done | apply entries_sorted | done].
Qed.

Lemma entries_nil rs : entries rs = [] ↔ ∀ r, r ∈ rs → errors r = [].
Proof.
  split.
  - intros He r Hr. destruct (errors r) as [|x xs] eqn:Hes; [done|].
    assert ((getCode x, reporters (getCode x) rs) ∈ entries rs) as Hin.
    { apply elem_of_entries. split; [|done]. apply elem_of_observed.
      exists r. split; [done|]. unfold codes. rewrite Hes. simpl. left. }
    rewrite He in Hin. by apply elem_of_nil in Hin.
  - intros Hall. apply Permutation_nil_r. rewrite entries_Permutation.
    destruct (observed rs) as [|c l] eqn:Ho; [done|].
    assert (c ∈ observed rs) as Hc by (rewrite Ho; left).
    apply elem_of_observed in Hc as (r & Hr & Hc). unfold codes in Hc.
    rewrite (Hall r Hr) in Hc. by apply elem_of_nil in Hc.
Qed.

Lemma getCode_firstError c rs : getCode (firstError c rs) = c.
Proof.
  unfold firstError.
  destruct (filter _ (rs ≫= errors)) as [|x l] eqn:Hf; [done|]. simpl.
  assert (x ∈ filter (λ x, getCode x = c) (rs ≫= errors)) as Hin
    by (rewrite Hf; left).
  by apply list_elem_of_filter in Hin as [? _].
Qed.

(** The first error reported with an observed code is an error some reply
    reported. *)
Lemma firstError_elem_of c rs : c ∈ observed rs → firstError c rs ∈ rs ≫= errors.
Proof.
  intros (r & Hr & (x & -> & Hx)%list_elem_of_fmap)%elem_of_observed.
  unfold firstError.
  assert (x ∈ filter (λ y, getCode y = getCode x) (rs ≫= errors)) as Hin.
  { apply list_elem_of_filter. split; [done|]. apply list_elem_of_bind. eauto. }
  destruct (filter _ (rs ≫= errors)) as [|y l] eqn:Hf; [by apply elem_of_nil in Hin|].
  simpl. assert (y ∈ filter (λ y, getCode y = getCode x) (rs ≫= errors)) as Hy
    by (rewrite Hf; left).
  by apply list_elem_of_filter in Hy as [_ ?].
Qed.

(** The codes of the synthesized reply are the codes of the entries, in
    their order, whether or not the aggregation is a single code. *)
Lemma codes_synthesize rs : codes (synthesize rs) = (entries rs).*1.
Proof.
  unfold synthesize. rewrite codes_withErrors.
  destruct (entries rs) as [|[c n] [|e es]];
    [done | simpl; by rewrite getCode_firstError |].
  by rewrite <-list_fmap_compose.
Qed.

Lemma observed_uniform c rs :
  (∃ r, r ∈ rs ∧ errors r ≠ []) →
  (∀ r c', r ∈ rs → c' ∈ codes r → c' = c) →
  observed rs = [c].
Proof.
  intros (r & Hr & Hne) Hall. apply NoDup_all_eq.
  - apply NoDup_remove_dups.
  - destruct (errors r) as [|x xs] eqn:Hes; [done|]. intros Ho.
    assert (getCode x ∈ observed rs) as Hin.
    { apply elem_of_observed. exists r. split; [done|].
      unfold codes. rewrite Hes. left. }
    rewrite Ho in Hin. by apply elem_of_nil in Hin.
  - intros c' (r' & ? & ?)%elem_of_observed. eauto.
Qed.

Lemma entries_uniform c rs :
  (∃ r, r ∈ rs ∧ errors r ≠ []) →
  (∀ r c', r ∈ rs → c' ∈ codes r → c' = c) →
  entries rs = [(c, reporters c rs)].
Proof. intros. unfold entries. by rewrite (observed_uniform c). Qed.

(** One code observed: the synthesized reply carries the first error
    reported with it, and nothing else. *)
Lemma synthesize_uniform c rs :
  (∃ r, r ∈ rs ∧ errors r ≠ []) →
  (∀ r c', r ∈ rs → c' ∈ codes r → c' = c) →
  errors (synthesize rs) = [firstError c rs].
Proof. intros. unfold synthesize. by rewrite (entries_uniform c). Qed.

End aggregation.

(** ** The contract *)

(** The verdict the specification promises for the replies [ms], merged
    with their child indices. *)
Inductive verdict_spec (ms : list (nat * Reply)) :
    result MergerError Result → Prop :=
| verdict_nothing :
    ms = [] → verdict_spec ms (Err NothingMerged)
| verdict_forward idx r :
    (idx, r) ∈ ms → errors r = [] →
    (∀ j r', (j, r') ∈ ms → errors r' = [] → idx ≤ j) →
    verdict_spec ms (Ok (Forward idx))
| verdict_synthesized :
    ms ≠ [] → (∀ p, p ∈ ms → errors p.2 ≠ []) →
    verdict_spec ms (Ok (Synthesized (synthesize ms.*2))).

(** The interface of a merger: a fresh merger, [merge] of one child's reply,
    and the verdict, which meets the contract for the replies merged so
    far. *)
Class ReplyMerger (M : Type) := {
  init : M;
  merge : nat → Reply → M → M;
  mergedReply : M → result MergerError Result;
  mergedReply_contract ms :
    verdict_spec ms (mergedReply (foldl (λ m p, merge p.1 p.2 m) init ms));
}.

(** Merging a list of indexed replies, first to last. *)
Definition mergeAll `{ReplyMerger M} (ms : list (nat * Reply)) (m : M) : M :=
  foldl (λ m p, merge p.1 p.2 m) m ms.

(** ** What every merger guarantees *)

Section contract.
Context `{ReplyMerger M}.
Implicit Types (m : M) (ms : list (nat * Reply)) (r : Reply).

Lemma mergeAll_snoc ms idx r m :
  mergeAll (ms ++ [(idx, r)]) m = merge idx r (mergeAll ms m).
Proof. unfold mergeAll. by rewrite foldl_app. Qed.

Lemma mergeAll_cons ms idx r m :
  mergeAll ((idx, r) :: ms) m = mergeAll ms (merge idx r m).
Proof. done. Qed.

(** The contract determines the verdict. *)
Lemma verdict_spec_det ms a b : verdict_spec ms a → verdict_spec ms b → a = b.
Proof.
  intros Ha Hb.
  destruct Ha as [Hnil | idx r Hin Hok Hmin | Hne Hall];
    destruct Hb as [Hnil' | idx' r' Hin' Hok' Hmin' | Hne' Hall'];
    simplify_eq; try done;
    try match goal with H : _ ∈ [] |- _ => by apply elem_of_nil in H end.
  - do 2 f_equal. apply Nat.le_antisymm; eauto.
  - by destruct (Hall' _ Hin).
  - by destruct (Hall _ Hin').
Qed.

Lemma mergedReply_mergeAll ms : verdict_spec ms (mergedReply (mergeAll ms init)).
Proof. apply mergedReply_contract. Qed.

Lemma mergedReply_forward ms idx r :
  (idx, r) ∈ ms → errors r = [] →
  (∀ j r', (j, r') ∈ ms → errors r' = [] → idx ≤ j) →
  mergedReply (mergeAll ms init) = Ok (Forward idx).
Proof.
  intros. eapply verdict_spec_det; [apply mergedReply_contract|].
  by eapply verdict_forward.
Qed.

Lemma mergedReply_synthesized ms :
  ms ≠ [] → (∀ p, p ∈ ms → errors p.2 ≠ []) →
  mergedReply (mergeAll ms init) = Ok (Synthesized (synthesize ms.*2)).
Proof.
  intros. eapply verdict_spec_det; [apply mergedReply_contract|].
  by apply verdict_synthesized.
Qed.

Lemma mergedReply_nothing : mergedReply (mergeAll [] init) = Err NothingMerged.
Proof.
  eapply verdict_spec_det; [apply (mergedReply_contract [])|].
  by apply verdict_nothing.
Qed.

Lemma mergedReply_is_Ok ms : is_Ok (mergedReply (mergeAll ms init)) ↔ ms ≠ [].
Proof.
  pose proof (mergedReply_mergeAll ms) as Hv.
  destruct Hv as [-> | idx r Hin _ _ | Hne _]; simpl; split; try done.
  intros _ ->. by apply elem_of_nil in Hin.
Qed.

End contract.

(** ** The reference implementation *)

Module Impl.

Record State := mkState {
  successIndex : option nat;
  failures : list Reply;
}.

Definition init : State := mkState None [].

Definition lower (idx : nat) (best : option nat) : nat :=
  match best with
  | Some j => idx `min` j
  | None => idx
  end.

Definition merge (idx : nat) (r : Reply) (m : State) : State :=
  if hasErrors r
  then mkState (successIndex m) (failures m ++ [r])
  else mkState (Some (lower idx (successIndex m))) (failures m).

Definition mergedReply (m : State) : result MergerError Result :=
  match successIndex m with
  | Some idx => Ok (Forward idx)
  | None =>
      match failures m with
      | [] => Err NothingMerged
      | rs => Ok (Synthesized (synthesize rs))
      end
  end.

(** The state [m] represents the merged replies [ms]. *)
Record represents (m : State) (ms : list (nat * Reply)) : Prop := {
  rep_failures : failures m = filter (λ r, errors r ≠ []) ms.*2;
  rep_success :
    match successIndex m with
    | Some idx => ∃ r, (idx, r) ∈ ms ∧ errors r = [] ∧
                       ∀ j r', (j, r') ∈ ms → errors r' = [] → idx ≤ j
    | None => ∀ p, p ∈ ms → errors p.2 ≠ []
    end;
}.

Section refinement.
Implicit Types (m : State) (ms : list (nat * Reply)) (r : Reply).

Lemma represents_init : represents init [].
Proof. split; [done | by intros p ?%elem_of_nil]. Qed.

Lemma represents_merge_failure idx r m ms :
  errors r ≠ [] → represents m ms →
  represents (mkState (successIndex m) (failures m ++ [r])) (ms ++ [(idx, r)]).
Proof.
  intros He [Hf Hs]. split; simpl.
  - rewrite fmap_app, filter_app, Hf. simpl.
    by rewrite (filter_singleton_True _ _ []).
  - destruct (successIndex m) as [best|].
    + destruct Hs as (r0 & Hin & Hok & Hmin). exists r0.
      split_and!; [set_solver | done |]. intros j r' Hj Hr'.
      apply elem_of_app in Hj as [Hj|Hj%list_elem_of_singleton]; [eauto|].
      by simplify_eq.
    + intros p [Hp|Hp%list_elem_of_singleton]%elem_of_app; [eauto|by subst].
Qed.

Lemma represents_merge_success idx r m ms :
  errors r = [] → represents m ms →
  represents (mkState (Some (lower idx (successIndex m))) (failures m))
    (ms ++ [(idx, r)]).
Proof.
  intros He [Hf Hs]. split; simpl.
  - rewrite fmap_app, filter_app, Hf. simpl.
    rewrite (filter_singleton_False _ _ []) by (by intros ?).
    by rewrite app_nil_r.
  - destruct (successIndex m) as [best|]; simpl.
    + destruct Hs as (r0 & Hin & Hok & Hmin).
      destruct (decide (idx ≤ best)).
      * rewrite Nat.min_l by done. exists r. split_and!; [set_solver | done |].
        intros j r' [Hj|Hj%list_elem_of_singleton]%elem_of_app Hr';
          [etrans; eauto | by simplify_eq].
      * rewrite Nat.min_r by lia. exists r0. split_and!; [set_solver | done |].
        intros j r' [Hj|Hj%list_elem_of_singleton]%elem_of_app Hr';
          [eauto | simplify_eq; lia].
    + exists r. split_and!; [set_solver | done |].
      intros j r' [Hj|Hj%list_elem_of_singleton]%elem_of_app Hr';
        [by destruct (Hs _ Hj) | by simplify_eq].
Qed.

Lemma represents_merge idx r m ms :
  represents m ms → represents (merge idx r m) (ms ++ [(idx, r)]).
Proof.
  intros Hrep. unfold merge. destruct (hasErrors r) eqn:He.
  - apply represents_merge_failure; [|done]. by apply hasErrors_true.
  - apply represents_merge_success; [|done]. by apply hasErrors_false.
Qed.

Lemma represents_foldl ms :
  represents (foldl (λ m p, merge p.1 p.2 m) init ms) ms.
Proof.
  induction ms as [|[idx r] ms IH] using rev_ind.
  - apply represents_init.
  - rewrite foldl_app. by apply represents_merge.
Qed.

Lemma mergedReply_represents m ms :
  represents m ms → verdict_spec ms (mergedReply m).
Proof.
  intros [Hf Hs]. unfold mergedReply.
  destruct (successIndex m) as [idx|].
  - destruct Hs as (r & ? & ? & ?). by eapply verdict_forward.
  - rewrite Hf, filter_all by (by intros r ([j r'] & -> & ?%Hs)%list_elem_of_fmap).
    destruct ms as [|p ms]; [by apply verdict_nothing|].
    by apply verdict_synthesized.
Qed.

(** Refinement: merging the replies one by one and asking for the verdict
    gives the verdict of the contract. *)
Lemma mergedReply_refines ms :
  verdict_spec ms (mergedReply (foldl (λ m p, merge p.1 p.2 m) init ms)).
Proof. apply mergedReply_represents, represents_foldl. Qed.

End refinement.

End Impl.

#[global] Instance reference : ReplyMerger Impl.State := {
  init := Impl.init;
  merge := Impl.merge;
  mergedReply := Impl.mergedReply;
  mergedReply_contract := Impl.mergedReply_refines;
}.

End ReplyMerger.
