(* ===== verification/MergerUsage.v ===== *)
(** * The usage protocol of the reply merger

    A merger has two states (specification 4.3): accumulating, in which
    [merge] is called once per child index, and resolved, which it enters
    when the verdict is requested, after one child at least was merged.

    - [step] is the step relation of that state machine over the calls a
      client makes, [steps] a run of it, [accepted] a sequence of calls that
      a fresh merger admits. [next] and [run] compute the same, so that
      acceptance is decidable.
    - [logged] wraps a merger so that it records the calls [merge] it
      receives. It is a merger again: its verdicts are those of the merger
      it wraps. Running a client with it shows the calls the client makes. *)

From S2P Require Import Prelude Messagebus Merger.

Module MergerUsage.

Import ReplyMerger.

Inductive Phase :=
| Accumulating
| Resolved.

(** The calls of a client on the merger. *)
Inductive Call :=
| CallMerge (idx : nat) (reply : Reply)
| CallMergedReply.

(** The state of the protocol: the phase and the child indices merged. *)
Record Usage := mkUsage {
  phase : Phase;
  merged : gset nat;
}.

#[global] Instance Phase_eq_dec : EqDecision Phase.
Proof. solve_decision. Defined.
#[global] Instance Call_eq_dec : EqDecision Call.
Proof. solve_decision. Defined.
#[global] Instance Usage_eq_dec : EqDecision Usage.
Proof. solve_decision. Defined.

Definition fresh : Usage := mkUsage Accumulating ∅.

Inductive step : Usage → Call → Usage → Prop :=
| step_merge used idx reply :
    idx ∉ used →
    step (mkUsage Accumulating used) (CallMerge idx reply)
         (mkUsage Accumulating ({[idx]} ∪ used))
| step_mergedReply used :
    used ≠ ∅ →
    step (mkUsage Accumulating used) CallMergedReply (mkUsage Resolved used).

Inductive steps : Usage → list Call → Usage → Prop :=
| steps_nil u : steps u [] u
| steps_cons u c u' cs u'' :
    step u c u' → steps u' cs u'' → steps u (c :: cs) u''.

Definition accepted (cs : list Call) : Prop := ∃ u, steps fresh cs u.

(** The step relation as a function. *)
Definition next (u : Usage) (c : Call) : option Usage :=
  match phase u, c with
  | Accumulating, CallMerge idx _ =>
      if decide (idx ∈ merged u) then None
      else Some (mkUsage Accumulating ({[idx]} ∪ merged u))
  | Accumulating, CallMergedReply =>
      if decide (merged u = ∅) then None else Some (mkUsage Resolved (merged u))
  | Resolved, _ => None
  end.

Fixpoint run (cs : list Call) (u : Usage) : option Usage :=
  match cs with
  | [] => Some u
  | c :: cs' => u' ← next u c; run cs' u'
  end.

(** The calls that merge the indexed replies [ms], first to last. *)
Definition mergeCalls (ms : list (nat * Reply)) : list Call :=
  (λ p, CallMerge p.1 p.2) <$> ms.

(** ** A merger that records its calls *)

Section logged.
Context `{merger : ReplyMerger M}.

Definition Logged : Type := M * list Call.

Definition logged_init : Logged := (init, []).

Definition logged_merge (idx : nat) (reply : Reply) (m : Logged) : Logged :=
  (merge idx reply m.1, m.2 ++ [CallMerge idx reply]).

Definition logged_mergedReply (m : Logged) : result MergerError Result :=
  mergedReply m.1.

Lemma logged_foldl ms m :
  foldl (λ m p, logged_merge p.1 p.2 m) m ms =
  (mergeAll ms m.1, m.2 ++ mergeCalls ms).
Proof.
  revert m. induction ms as [|[idx r] ms IH]; intros [m l]; simpl.
  - by rewrite app_nil_r.
  - rewrite IH. simpl. by rewrite <-app_assoc.
Qed.

Lemma logged_contract ms :
  verdict_spec ms
    (logged_mergedReply (foldl (λ m p, logged_merge p.1 p.2 m) logged_init ms)).
Proof. rewrite logged_foldl. apply mergedReply_mergeAll. Qed.

(** The wrapped merger meets the contract of the merger it wraps. *)
Definition logged : ReplyMerger Logged := {|
  init := logged_init;
  merge := logged_merge;
  mergedReply := logged_mergedReply;
  mergedReply_contract := logged_contract;
|}.

Lemma mergeAll_logged ms :
  mergeAll (H := logged) ms logged_init = (mergeAll ms init, mergeCalls ms).
Proof. unfold mergeAll at 1. simpl. by rewrite logged_foldl. Qed.

End logged.

(** ** The state machine *)

Section protocol.
Implicit Types (u : Usage) (c : Call) (cs : list Call) (ms : list (nat * Reply)).

Lemma next_Some u c u' : next u c = Some u' ↔ step u c u'.
Proof.
  split.
  - destruct u as [[] used], c as [idx r|]; unfold next; simpl;
      repeat case_decide; intros; simplify_eq; by constructor.
  - destruct 1; unfold next; simpl; by rewrite decide_False.
Qed.

Lemma run_steps cs u u' : run cs u = Some u' ↔ steps u cs u'.
Proof.
  revert u. induction cs as [|c cs IH]; intros u; simpl.
  - split; [intros [= ->]; constructor | by inversion 1].
  - rewrite bind_Some. setoid_rewrite next_Some. setoid_rewrite IH. split.
    + intros (? & ? & ?). by econstructor.
    + inversion 1; eauto.
Qed.

Lemma accepted_run cs : accepted cs ↔ is_Some (run cs fresh).
Proof. unfold accepted, is_Some. by setoid_rewrite run_steps. Qed.

#[global] Instance accepted_dec cs : Decision (accepted cs).
Proof. refine (cast_if (decide (is_Some (run cs fresh)))); by rewrite accepted_run. Defined.

(** The protocol is deterministic. *)
Lemma steps_det u cs u1 u2 : steps u cs u1 → steps u cs u2 → u1 = u2.
Proof. rewrite <-!run_steps. congruence. Qed.

Lemma steps_app u cs1 cs2 u'' :
  steps u (cs1 ++ cs2) u'' ↔ ∃ u', steps u cs1 u' ∧ steps u' cs2 u''.
Proof.
  revert u. induction cs1 as [|c cs1 IH]; intros u; simpl.
  - split; [eauto using steps_nil | by intros (? & Hs & ?); inversion Hs; subst].
  - split.
    + inversion 1 as [|? ? u1 ? ? Hc Hs]; subst.
      apply IH in Hs as (u' & ? & ?). eauto using steps_cons.
    + intros (u' & Hs & ?). inversion Hs; subst.
      econstructor; [done|]. apply IH. eauto.
Qed.

(** Invariants of the runs, by induction on the relation. *)

(** An index once merged stays merged. *)
Lemma steps_merged u cs u' : steps u cs u' → merged u ⊆ merged u'.
Proof.
  induction 1 as [|u c u' cs u'' Hc _ IH]; [done|].
  etrans; [|done]. destruct Hc; set_solver.
Qed.

(** The resolved state is terminal. *)
Lemma steps_Resolved u cs u' :
  phase u = Resolved → steps u cs u' → cs = [] ∧ u' = u.
Proof. intros Hu. destruct 1 as [|? ? ? ? ? Hc]; [done|]. destruct Hc; done. Qed.

(** A verdict was requested only after one child at least was merged. *)
Lemma steps_verdict u cs u' :
  (phase u = Resolved → merged u ≠ ∅) → steps u cs u' →
  phase u' = Resolved → merged u' ≠ ∅.
Proof.
  intros Hu. induction 1 as [|u c u' cs u'' Hc _ IH]; [done|].
  apply IH. destruct Hc; done.
Qed.

(** The verdict is requested at most once, and last. *)
Lemma steps_mergedReply_last u cs1 cs2 u' :
  steps u (cs1 ++ CallMergedReply :: cs2) u' → cs2 = [] ∧ phase u' = Resolved.
Proof.
  intros (u1 & _ & Hs)%steps_app.
  inversion Hs as [|? ? u2 ? ? Hc Hrest]; subst.
  inversion Hc; subst. by apply steps_Resolved in Hrest as [-> ->].
Qed.

(** Merging replies with distinct indices that were not merged before. *)
Lemma steps_mergeCalls used ms :
  NoDup ms.*1 → (∀ i, i ∈ ms.*1 → i ∉ used) →
  steps (mkUsage Accumulating used) (mergeCalls ms)
        (mkUsage Accumulating (list_to_set ms.*1 ∪ used)).
Proof.
  revert used. induction ms as [|[idx r] ms IH]; intros used; simpl.
  - intros _ _. rewrite (left_id_L ∅ (∪)). constructor.
  - intros [Hidx Hnd]%NoDup_cons Hfresh.
    econstructor; [constructor; set_solver|].
    match goal with
    | |- steps _ _ (mkUsage _ ?X) =>
        replace X with (list_to_set ms.*1 ∪ ({[idx]} ∪ used) : gset nat) by set_solver
    end.
    apply IH; [done|]. set_solver.
Qed.

Lemma steps_mergeCalls_inv u ms u' :
  steps u (mergeCalls ms) u' →
  NoDup ms.*1 ∧ (∀ i, i ∈ ms.*1 → i ∉ merged u) ∧
  u' = mkUsage (phase u) (list_to_set ms.*1 ∪ merged u).
Proof.
  revert u. induction ms as [|[idx r] ms IH]; intros u; simpl.
  - inversion 1; subst. destruct u'. rewrite (left_id_L ∅ (∪)).
    split_and!; [constructor | set_solver | done].
  - inversion 1 as [|? ? u1 ? ? Hc Hs]; subst. inversion Hc; subst.
    apply IH in Hs as (Hnd & Hfresh & ->). simpl in *.
    split_and!; [apply NoDup_cons; set_solver | set_solver |].
    f_equal. set_solver.
Qed.

(** A fresh merger admits merging [ms] and then asking for the verdict
    exactly when the indices are pairwise distinct and there is one at
    least. *)
Lemma accepted_mergeCalls ms :
  accepted (mergeCalls ms ++ [CallMergedReply]) ↔ NoDup ms.*1 ∧ ms ≠ [].
Proof.
  unfold accepted. setoid_rewrite steps_app. split.
  - intros (u & u' & (Hnd & _ & ->)%steps_mergeCalls_inv & Hs).
    split; [done|]. intros ->. inversion Hs as [|? ? ? ? ? Hc]; subst.
    inversion Hc; subst. set_solver.
  - intros [Hnd Hne]. eexists _, _. split.
    + apply steps_mergeCalls; [done | set_solver].
    + econstructor; [|constructor]. constructor.
      destruct ms as [|[idx r] ms]; [done | set_solver].
Qed.

End protocol.

End MergerUsage.
