(* ===== verification/Protocol.v ===== *)
(** * The document protocol facade

    [DocumentProtocol] is translated from
    [src/documentapi/src/vespa/documentapi/messagebus/documentprotocol.cpp],
    one definition per function, in the order of the file.

    - Enumerators the source names but whose values are fixed in
      [documentprotocol.h] are inductive types ([RoutableType], [DocError]);
      the class [Numbering] gives them 32-bit values and demands what a C++
      [switch] and an [enum] give: distinct values.
    - The factory classes named by the constructor are the inductive types
      [RoutingPolicyFactories] and [RoutableFactories60]. What a factory does
      is outside the sources: [codec] interprets a routable factory as its
      encoder and decoder, [createWith] a policy factory as its constructor
      of policies, [getName] is the message bus' table of error names.
    - A failure the registries raise propagates through the facade as [Err];
      [decode] alone catches it and answers absent.
    - [merge] runs the loop over the children of the context with its index
      and mask, asserts [idx != 0], asks the merger for the verdict and
      moves the forwarded reply out of its slot or installs the generated
      one. A failed assertion is [AssertionFailed].

    Where the source leaves the behaviour open, the model decides, and the
    theorems say when the case cannot arise:

    - [decode] catches [vespalib::Exception] only. The failures of the
      registry and of a codec are exceptions of that class (specification,
      section 4.1), and [Err] stands for them; an exception of another class
      would leave [decode] and has no counterpart here.
    - The loop of [merge] calls [it.getReplyRef()] without a check; on a
      child without reply the call is undefined in the source. The model
      makes it the error [NoReply] with the index of the child. In the same
      way [removeReply()] on a slot that is empty or outside the children,
      from which the source would move a null reply into the context, is
      [NoReply] in [applyResult].
    - The constructor hands its [LoadTypeSet] argument to the constructor
      of the routable registry and does nothing else with it; the
      specification gives the load types no part in what the registry
      does, and [create] starts from the empty registry without them.
      [create] and [encode] have a result type
      because the registry of the specification can refuse a registration
      and a routable; the source has no handler for either, the exception
      leaves the facade. For the constructor's own tables the refusal does
      not arise ([create_succeeds] in [ProtocolRegistry]).
    - [ReplyMerger] and the registries are modelled from the specification.

    This file holds the definitions; the theorems are in [ProtocolMerge],
    [ProtocolRegistry] and [ProtocolErrors]. The numbering by position and
    the fixtures at the end ([echoCodec], [raisingCodec], [echoPolicy],
    [sampleProtocol]) are used by the concrete runs only. *)

From S2P Require Import Prelude Messagebus Version RoutableRepo PolicyRepo Merger.

Module DocumentProtocol.

Import RoutableRepository RoutingPolicyRepository ReplyMerger.

(** The routable types the constructor registers. *)
Inductive RoutableType :=
| MESSAGE_CREATEVISITOR
| MESSAGE_DESTROYVISITOR
| MESSAGE_DOCUMENTLIST
| MESSAGE_DOCUMENTSUMMARY
| MESSAGE_EMPTYBUCKETS
| MESSAGE_GETBUCKETLIST
| MESSAGE_GETBUCKETSTATE
| MESSAGE_GETDOCUMENT
| MESSAGE_MAPVISITOR
| MESSAGE_PUTDOCUMENT
| MESSAGE_QUERYRESULT
| MESSAGE_REMOVEDOCUMENT
| MESSAGE_REMOVELOCATION
| MESSAGE_SEARCHRESULT
| MESSAGE_STATBUCKET
| MESSAGE_UPDATEDOCUMENT
| MESSAGE_VISITORINFO
| REPLY_CREATEVISITOR
| REPLY_DESTROYVISITOR
| REPLY_DOCUMENTIGNORED
| REPLY_DOCUMENTLIST
| REPLY_DOCUMENTSUMMARY
| REPLY_EMPTYBUCKETS
| REPLY_GETBUCKETLIST
| REPLY_GETBUCKETSTATE
| REPLY_GETDOCUMENT
| REPLY_MAPVISITOR
| REPLY_PUTDOCUMENT
| REPLY_QUERYRESULT
| REPLY_REMOVEDOCUMENT
| REPLY_REMOVELOCATION
| REPLY_SEARCHRESULT
| REPLY_STATBUCKET
| REPLY_UPDATEDOCUMENT
| REPLY_VISITORINFO
| REPLY_WRONGDISTRIBUTION.

(** The error codes [getErrorName] names. *)
Inductive DocError :=
| ERROR_MESSAGE_IGNORED
| ERROR_POLICY_FAILURE
| ERROR_DOCUMENT_NOT_FOUND
| ERROR_EXISTS
| ERROR_BUCKET_NOT_FOUND
| ERROR_BUCKET_DELETED
| ERROR_NOT_IMPLEMENTED
| ERROR_ILLEGAL_PARAMETERS
| ERROR_IGNORED
| ERROR_UNKNOWN_COMMAND
| ERROR_UNPARSEABLE
| ERROR_NO_SPACE
| ERROR_INTERNAL_FAILURE
| ERROR_PROCESSING_FAILURE
| ERROR_TIMESTAMP_EXIST
| ERROR_STALE_TIMESTAMP
| ERROR_NODE_NOT_READY
| ERROR_WRONG_DISTRIBUTION
| ERROR_REJECTED
| ERROR_ABORTED
| ERROR_BUSY
| ERROR_NOT_CONNECTED
| ERROR_DISK_FAILURE
| ERROR_IO_FAILURE
| ERROR_SUSPENDED
| ERROR_TEST_AND_SET_CONDITION_FAILED.

#[global] Instance RoutableType_eq_dec : EqDecision RoutableType.
Proof. solve_decision. Defined.
#[global] Instance DocError_eq_dec : EqDecision DocError.
Proof. solve_decision. Defined.

(** Both enumerations are finite: their members in the order of the
    constructor and of the switch. *)
Definition allRoutableTypes : list RoutableType :=
  [ MESSAGE_CREATEVISITOR;
    MESSAGE_DESTROYVISITOR;
    MESSAGE_DOCUMENTLIST;
    MESSAGE_DOCUMENTSUMMARY;
    MESSAGE_EMPTYBUCKETS;
    MESSAGE_GETBUCKETLIST;
    MESSAGE_GETBUCKETSTATE;
    MESSAGE_GETDOCUMENT;
    MESSAGE_MAPVISITOR;
    MESSAGE_PUTDOCUMENT;
    MESSAGE_QUERYRESULT;
    MESSAGE_REMOVEDOCUMENT;
    MESSAGE_REMOVELOCATION;
    MESSAGE_SEARCHRESULT;
    MESSAGE_STATBUCKET;
    MESSAGE_UPDATEDOCUMENT;
    MESSAGE_VISITORINFO;
    REPLY_CREATEVISITOR;
    REPLY_DESTROYVISITOR;
    REPLY_DOCUMENTIGNORED;
    REPLY_DOCUMENTLIST;
    REPLY_DOCUMENTSUMMARY;
    REPLY_EMPTYBUCKETS;
    REPLY_GETBUCKETLIST;
    REPLY_GETBUCKETSTATE;
    REPLY_GETDOCUMENT;
    REPLY_MAPVISITOR;
    REPLY_PUTDOCUMENT;
    REPLY_QUERYRESULT;
    REPLY_REMOVEDOCUMENT;
    REPLY_REMOVELOCATION;
    REPLY_SEARCHRESULT;
    REPLY_STATBUCKET;
    REPLY_UPDATEDOCUMENT;
    REPLY_VISITORINFO;
    REPLY_WRONGDISTRIBUTION ].

Definition allDocErrors : list DocError :=
  [ ERROR_MESSAGE_IGNORED;
    ERROR_POLICY_FAILURE;
    ERROR_DOCUMENT_NOT_FOUND;
    ERROR_EXISTS;
    ERROR_BUCKET_NOT_FOUND;
    ERROR_BUCKET_DELETED;
    ERROR_NOT_IMPLEMENTED;
    ERROR_ILLEGAL_PARAMETERS;
    ERROR_IGNORED;
    ERROR_UNKNOWN_COMMAND;
    ERROR_UNPARSEABLE;
    ERROR_NO_SPACE;
    ERROR_INTERNAL_FAILURE;
    ERROR_PROCESSING_FAILURE;
    ERROR_TIMESTAMP_EXIST;
    ERROR_STALE_TIMESTAMP;
    ERROR_NODE_NOT_READY;
    ERROR_WRONG_DISTRIBUTION;
    ERROR_REJECTED;
    ERROR_ABORTED;
    ERROR_BUSY;
    ERROR_NOT_CONNECTED;
    ERROR_DISK_FAILURE;
    ERROR_IO_FAILURE;
    ERROR_SUSPENDED;
    ERROR_TEST_AND_SET_CONDITION_FAILED ].

#[global] Program Instance RoutableType_finite : Finite RoutableType :=
  {| enum := allRoutableTypes |}.
Next Obligation. by_compute. Qed.
Next Obligation. intros []; by_compute. Qed.

#[global] Program Instance DocError_finite : Finite DocError :=
  {| enum := allDocErrors |}.
Next Obligation. by_compute. Qed.
Next Obligation. intros []; by_compute. Qed.

(** The values of the enumerators: 32-bit and pairwise distinct. *)
Class Numbering := {
  typeId : RoutableType → Z;
  typeId_inj :: Inj (=) (=) typeId;
  typeId_range t : in_unsigned 32 (typeId t);
  errorCode : DocError → Z;
  errorCode_inj :: Inj (=) (=) errorCode;
  errorCode_range e : in_unsigned 32 (errorCode e);
}.

(** A numbering for concrete runs: every enumerator is numbered by its
    position. The values of [documentprotocol.h] are another instance. *)
Definition positionNumbering_typeId (t : RoutableType) : Z := Z.of_nat (encode_nat t).
Definition positionNumbering_errorCode (e : DocError) : Z := Z.of_nat (encode_nat e).

Definition positionNumbering : Numbering := {|
  typeId := positionNumbering_typeId;
  typeId_inj := position_inj;
  typeId_range t := position_range t ltac:(by_compute);
  errorCode := positionNumbering_errorCode;
  errorCode_inj := position_inj;
  errorCode_range e := position_range e ltac:(by_compute);
|}.

Inductive MergeError :=
| AssertionFailed (what : string)
| NoReply (idx : nat)
| MergerFailed (e : MergerError).

#[global] Instance MergeError_eq_dec : EqDecision MergeError.
Proof. solve_decision. Defined.

Definition NAME : string := "document".

Section protocol.
Context {DocumentTypeRepo IRoutingPolicy : Type}.

(** The factory classes of [routingpolicyfactories.h] the constructor
    instantiates. *)
Inductive RoutingPolicyFactories :=
| AndPolicyFactory
| ContentPolicyFactory
| MessageTypePolicyFactory
| DocumentRouteSelectorPolicyFactory (repo : DocumentTypeRepo) (cfg : string)
| ExternPolicyFactory
| LocalServicePolicyFactory
| RoundRobinPolicyFactory
| StoragePolicyFactory
| SubsetServicePolicyFactory
| LoadBalancerPolicyFactory.

(** The factory classes of [routablefactories60.h] the constructor
    instantiates. *)
Inductive RoutableFactories60 :=
| CreateVisitorMessageFactory
| DestroyVisitorMessageFactory
| DocumentListMessageFactory (repo : DocumentTypeRepo)
| DocumentSummaryMessageFactory
| EmptyBucketsMessageFactory
| GetBucketListMessageFactory
| GetBucketStateMessageFactory
| GetDocumentMessageFactory
| MapVisitorMessageFactory
| PutDocumentMessageFactory (repo : DocumentTypeRepo)
| QueryResultMessageFactory
| RemoveDocumentMessageFactory
| RemoveLocationMessageFactory (repo : DocumentTypeRepo)
| SearchResultMessageFactory
| StatBucketMessageFactory
| UpdateDocumentMessageFactory (repo : DocumentTypeRepo)
| VisitorInfoMessageFactory
| CreateVisitorReplyFactory
| DestroyVisitorReplyFactory
| DocumentIgnoredReplyFactory
| DocumentListReplyFactory
| DocumentSummaryReplyFactory
| EmptyBucketsReplyFactory
| GetBucketListReplyFactory
| GetBucketStateReplyFactory
| GetDocumentReplyFactory (repo : DocumentTypeRepo)
| MapVisitorReplyFactory
| PutDocumentReplyFactory
| QueryResultReplyFactory
| RemoveDocumentReplyFactory
| RemoveLocationReplyFactory
| SearchResultReplyFactory
| StatBucketReplyFactory
| UpdateDocumentReplyFactory
| VisitorInfoReplyFactory
| WrongDistributionReplyFactory.

Context `{numbering : Numbering}.
Context (codec : RoutableFactories60 → IRoutableFactory).
Context (createWith : RoutingPolicyFactories → string → option IRoutingPolicy).
Context (getName : Z → string).

Record DocumentProtocol := mkDocumentProtocol {
  _routingPolicyRepository : RoutingPolicyRepository RoutingPolicyFactories;
  _routableRepository : RoutableRepository;
  _repo : DocumentTypeRepo;
}.

(** ** The constructor *)

(** The configuration string handed to the policy factories. *)
Definition configString (configId : string) : string :=
  if decide (configId = EmptyString) then "client" else configId.

(** The policy factories the constructor registers, in its order. *)
Definition policyTable (repo : DocumentTypeRepo) (cfg : string) :
    list (string * RoutingPolicyFactories) :=
  [ ("AND", AndPolicyFactory);
    ("Content", ContentPolicyFactory);
    ("MessageType", MessageTypePolicyFactory);
    ("DocumentRouteSelector", DocumentRouteSelectorPolicyFactory repo cfg);
    ("Extern", ExternPolicyFactory);
    ("LocalService", LocalServicePolicyFactory);
    ("RoundRobin", RoundRobinPolicyFactory);
    ("Storage", StoragePolicyFactory);
    ("SubsetService", SubsetServicePolicyFactory);
    ("LoadBalancer", LoadBalancerPolicyFactory) ].

Definition version6 : VersionSpecification := mkVersionSpecification 6 221.

Definition from6 : list VersionSpecification := [version6].

(** The routable factories the constructor registers, in its order. *)
Definition routableTable (repo : DocumentTypeRepo) :
    list (RoutableType * RoutableFactories60) :=
  [ (MESSAGE_CREATEVISITOR, CreateVisitorMessageFactory);
    (MESSAGE_DESTROYVISITOR, DestroyVisitorMessageFactory);
    (MESSAGE_DOCUMENTLIST, DocumentListMessageFactory repo);
    (MESSAGE_DOCUMENTSUMMARY, DocumentSummaryMessageFactory);
    (MESSAGE_EMPTYBUCKETS, EmptyBucketsMessageFactory);
    (MESSAGE_GETBUCKETLIST, GetBucketListMessageFactory);
    (MESSAGE_GETBUCKETSTATE, GetBucketStateMessageFactory);
    (MESSAGE_GETDOCUMENT, GetDocumentMessageFactory);
    (MESSAGE_MAPVISITOR, MapVisitorMessageFactory);
    (MESSAGE_PUTDOCUMENT, PutDocumentMessageFactory repo);
    (MESSAGE_QUERYRESULT, QueryResultMessageFactory);
    (MESSAGE_REMOVEDOCUMENT, RemoveDocumentMessageFactory);
    (MESSAGE_REMOVELOCATION, RemoveLocationMessageFactory repo);
    (MESSAGE_SEARCHRESULT, SearchResultMessageFactory);
    (MESSAGE_STATBUCKET, StatBucketMessageFactory);
    (MESSAGE_UPDATEDOCUMENT, UpdateDocumentMessageFactory repo);
    (MESSAGE_VISITORINFO, VisitorInfoMessageFactory);
    (REPLY_CREATEVISITOR, CreateVisitorReplyFactory);
    (REPLY_DESTROYVISITOR, DestroyVisitorReplyFactory);
    (REPLY_DOCUMENTIGNORED, DocumentIgnoredReplyFactory);
    (REPLY_DOCUMENTLIST, DocumentListReplyFactory);
    (REPLY_DOCUMENTSUMMARY, DocumentSummaryReplyFactory);
    (REPLY_EMPTYBUCKETS, EmptyBucketsReplyFactory);
    (REPLY_GETBUCKETLIST, GetBucketListReplyFactory);
    (REPLY_GETBUCKETSTATE, GetBucketStateReplyFactory);
    (REPLY_GETDOCUMENT, GetDocumentReplyFactory repo);
    (REPLY_MAPVISITOR, MapVisitorReplyFactory);
    (REPLY_PUTDOCUMENT, PutDocumentReplyFactory);
    (REPLY_QUERYRESULT, QueryResultReplyFactory);
    (REPLY_REMOVEDOCUMENT, RemoveDocumentReplyFactory);
    (REPLY_REMOVELOCATION, RemoveLocationReplyFactory);
    (REPLY_SEARCHRESULT, SearchResultReplyFactory);
    (REPLY_STATBUCKET, StatBucketReplyFactory);
    (REPLY_UPDATEDOCUMENT, UpdateDocumentReplyFactory);
    (REPLY_VISITORINFO, VisitorInfoReplyFactory);
    (REPLY_WRONGDISTRIBUTION, WrongDistributionReplyFactory) ].

Definition createPolicy (name param : string) (p : DocumentProtocol) :
    result PolicyError IRoutingPolicy :=
  RoutingPolicyRepository.createPolicy createWith name param
    (_routingPolicyRepository p).

Definition putRoutingPolicyFactory (name : string)
    (factory : RoutingPolicyFactories) (p : DocumentProtocol) : DocumentProtocol :=
  mkDocumentProtocol
    (RoutingPolicyRepository.putFactory name factory (_routingPolicyRepository p))
    (_routableRepository p) (_repo p).

Definition encode (version : Version) (routable : Routable) (p : DocumentProtocol) :
    result RepoError (list Z) :=
  RoutableRepository.encode version routable (_routableRepository p).

(** The exception of the registry or of a codec is caught: absent. *)
Definition decode (version : Version) (data : list Z) (p : DocumentProtocol) :
    option Routable :=
  match RoutableRepository.decode version data (_routableRepository p) with
  | Ok routable => routable
  | Err _ => None
  end.

Definition getRoutableTypes (version : Version) (out : list Z)
    (p : DocumentProtocol) : nat * list Z :=
  RoutableRepository.getRoutableTypes version out (_routableRepository p).

Definition putRoutableFactory (type : Z) (factory : IRoutableFactory)
    (version : VersionSpecification) (p : DocumentProtocol) :
    result RepoError DocumentProtocol :=
  let? repo := RoutableRepository.putFactory version type factory
                 (_routableRepository p) in
  Ok (mkDocumentProtocol (_routingPolicyRepository p) repo (_repo p)).

(** The overload that takes a vector of version specifications. *)
Fixpoint putRoutableFactories (type : Z) (factory : IRoutableFactory)
    (versions : list VersionSpecification) (p : DocumentProtocol) :
    result RepoError DocumentProtocol :=
  match versions with
  | [] => Ok p
  | version :: versions' =>
      let? p' := putRoutableFactory type factory version p in
      putRoutableFactories type factory versions' p'
  end.

(** The registrations of the constructor's second half, one per row. *)
Fixpoint putRoutableTable (rows : list (RoutableType * RoutableFactories60))
    (p : DocumentProtocol) : result RepoError DocumentProtocol :=
  match rows with
  | [] => Ok p
  | (type, factory) :: rows' =>
      let? p' := putRoutableFactories (typeId type) (codec factory) from6 p in
      putRoutableTable rows' p'
  end.

Definition create (repo : DocumentTypeRepo) (configId : string) :
    result RepoError DocumentProtocol :=
  let cfg := configString configId in
  let p := mkDocumentProtocol RoutingPolicyRepository.empty
             RoutableRepository.empty repo in
  let p := foldl (λ p row, putRoutingPolicyFactory row.1 row.2 p) p
             (policyTable repo cfg) in
  putRoutableTable (routableTable repo) p.

(** ** Error names *)

(** The cases of the switch, in its order. *)
Definition errorCases : list (DocError * string) :=
  [ (ERROR_MESSAGE_IGNORED, "MESSAGE_IGNORED");
    (ERROR_POLICY_FAILURE, "POLICY_FAILURE");
    (ERROR_DOCUMENT_NOT_FOUND, "DOCUMENT_NOT_FOUND");
    (ERROR_EXISTS, "EXISTS");
    (ERROR_BUCKET_NOT_FOUND, "BUCKET_NOT_FOUND");
    (ERROR_BUCKET_DELETED, "BUCKET_DELETED");
    (ERROR_NOT_IMPLEMENTED, "NOT_IMPLEMENTED");
    (ERROR_ILLEGAL_PARAMETERS, "ILLEGAL_PARAMETERS");
    (ERROR_IGNORED, "IGNORED");
    (ERROR_UNKNOWN_COMMAND, "UNKNOWN_COMMAND");
    (ERROR_UNPARSEABLE, "UNPARSEABLE");
    (ERROR_NO_SPACE, "NO_SPACE");
    (ERROR_INTERNAL_FAILURE, "INTERNAL_FAILURE");
    (ERROR_PROCESSING_FAILURE, "PROCESSING_FAILURE");
    (ERROR_TIMESTAMP_EXIST, "TIMESTAMP_EXIST");
    (ERROR_STALE_TIMESTAMP, "STALE_TIMESTAMP");
    (ERROR_NODE_NOT_READY, "NODE_NOT_READY");
    (ERROR_WRONG_DISTRIBUTION, "WRONG_DISTRIBUTION");
    (ERROR_REJECTED, "REJECTED");
    (ERROR_ABORTED, "ABORTED");
    (ERROR_BUSY, "BUSY");
    (ERROR_NOT_CONNECTED, "NOT_CONNECTED");
    (ERROR_DISK_FAILURE, "DISK_FAILURE");
    (ERROR_IO_FAILURE, "IO_FAILURE");
    (ERROR_SUSPENDED, "SUSPENDED");
    (ERROR_TEST_AND_SET_CONDITION_FAILED, "TEST_AND_SET_CONDITION_FAILED") ].

(** The switch takes the first case whose label is the code; without one
    the message bus names the code. *)
Definition getErrorName (code : Z) : string :=
  match list_find (λ case, errorCode case.1 = code) errorCases with
  | Some (_, (_, name)) => name
  | None => getName code
  end.

(** ** Merging replies *)

Context `{merger : ReplyMerger M}.

(** The loop of [merge]: [idx] counts every child, masked or not; a child
    outside the mask gives its reply to the merger. *)
Fixpoint mergeLoop (mask : gset nat) (idx : nat) (it : list (option Reply))
    (rm : M) : result MergeError (nat * M) :=
  match it with
  | [] => Ok (idx, rm)
  | child :: it' =>
      if decide (idx ∈ mask) then mergeLoop mask (S idx) it' rm
      else
        match child with
        | Some reply => mergeLoop mask (S idx) it' (ReplyMerger.merge idx reply rm)
        | None => Err (NoReply idx)
        end
  end.

(** What [merge] does with the verdict. *)
Definition applyResult (res : Result) (ctx : RoutingContext) :
    result MergeError RoutingContext :=
  if isSuccessful res then
    let okIdx := getSuccessfulReplyIndex res in
    match removeReply okIdx ctx with
    | Some (reply, ctx') => Ok (setReply reply ctx')
    | None => Err (NoReply okIdx)
    end
  else if hasGeneratedReply res then
    match releaseGeneratedReply res with
    | Some reply => Ok (setReply reply ctx)
    | None => Err (AssertionFailed "res.hasGeneratedReply()")
    end
  else Err (AssertionFailed "res.hasGeneratedReply()").

Definition merge (ctx : RoutingContext) (mask : gset nat) :
    result MergeError RoutingContext :=
  let? st := mergeLoop mask 0 (children ctx) ReplyMerger.init in
  if decide (st.1 = 0) then Err (AssertionFailed "idx != 0")
  else
    match mergedReply st.2 with
    | Err e => Err (MergerFailed e)
    | Ok res => applyResult res ctx
    end.

(** The overload without mask. *)
Definition merge_ctx (ctx : RoutingContext) : result MergeError RoutingContext :=
  merge ctx ∅.

(** The loop of [hasOnlyErrorsOfType] with [n] iterations left from [i]. *)
Fixpoint hasOnlyErrorsOfType_from (reply : Reply) (errCode : Z) (n i : nat) : bool :=
  match n with
  | 0 => true
  | S n' =>
      match getError reply i with
      | Some e =>
          if decide (getCode e ≠ errCode) then false
          else hasOnlyErrorsOfType_from reply errCode n' (S i)
      | None => true
      end
  end.

Definition hasOnlyErrorsOfType (reply : Reply) (errCode : Z) : bool :=
  hasOnlyErrorsOfType_from reply errCode (getNumErrors reply) 0.

End protocol.

(** ** Fixtures for concrete runs *)

(** A codec that carries the body as it is and decodes every body to a
    routable of type 0. *)
Definition echoCodec {D} (f : @RoutableFactories60 D) : IRoutableFactory :=
  mkFactory getBody (λ body, Ok (Some (mkRoutable 0 body))).

(** A codec whose decoder raises. *)
Definition raisingCodec {D} (f : @RoutableFactories60 D) : IRoutableFactory :=
  mkFactory getBody (λ body, Err "unparseable").

(** A policy factory that refuses the empty parameter and otherwise
    returns the parameter as the policy. *)
Definition echoPolicy {D} (f : @RoutingPolicyFactories D) (param : string) :
    option string :=
  if decide (param = EmptyString) then None else Some param.

(** The protocol the constructor builds over a one-element repository
    type, with the enumerators numbered by position. *)
Definition sampleProtocol : @DocumentProtocol unit :=
  match create (numbering := positionNumbering) echoCodec tt EmptyString with
  | Ok p => p
  | Err _ => mkDocumentProtocol RoutingPolicyRepository.empty RoutableRepository.empty tt
  end.

End DocumentProtocol.
