(* ===== verification/ProtocolMerge.v ===== *)
(** * Merging the replies of a fan-out

    The specification [mergeSpec] of [DocumentProtocol.merge] and the
    theorems on [merge], the loop [mergeLoop] and the use of the verdict
    [applyResult]. They hold for every merger that meets the contract of
    [ReplyMerger]; the concrete runs at the end use the reference
    implementation.

    [unmasked] and [answered] belong to the specification, not to the
    code: [unmasked mask 0 (children ctx)] is the list of replies the loop
    is to hand to the merger; [answered] says that the loop finds a reply
    in every slot it dereferences. *)

From S2P Require Import Prelude Messagebus Merger MergerUsage Protocol.

Import ReplyMerger MergerUsage DocumentProtocol.

(** ** What [merge] promises

    [mergeSpec] states the result of [merge] without the loop and without a
    merger: the first non-masked child without a reply is an error; so is a
    context without children; otherwise the lowest non-masked child with an
    error-free reply is forwarded, and when there is none the failures are
    aggregated. *)

(** The non-masked children that hold a reply, with their indices, from
    index [idx] on: what the loop hands to the merger. *)
Fixpoint unmasked (mask : gset nat) (idx : nat) (it : list (option Reply)) :
    list (nat * Reply) :=
  match it with
  | [] => []
  | child :: it' =>
      if decide (idx ∈ mask) then unmasked mask (S idx) it'
      else
        match child with
        | Some reply => (idx, reply) :: unmasked mask (S idx) it'
        | None => unmasked mask (S idx) it'
        end
  end.

(** Every child outside the mask holds a reply. *)
Definition answered (mask : gset nat) (idx : nat) (it : list (option Reply)) : Prop :=
  ∀ k child, it !! k = Some child → idx + k ∉ mask → is_Some child.

(** The first child outside the mask whose slot is empty. *)
Definition firstUnanswered (mask : gset nat) (it : list (option Reply)) : option nat :=
  fst <$> list_find (λ p : nat * option Reply, p.1 ∉ mask ∧ p.2 = None) (imap pair it).

(** The first error-free reply among [rs], with its child index. *)
Definition lowestSuccess (rs : list (nat * Reply)) : option (nat * Reply) :=
  snd <$> list_find (λ p : nat * Reply, errors p.2 = []) rs.

Definition mergeSpec (ctx : RoutingContext) (mask : gset nat) :
    result MergeError RoutingContext :=
  match firstUnanswered mask (children ctx) with
  | Some k => Err (NoReply k)
  | None =>
      if decide (children ctx = []) then Err (AssertionFailed "idx != 0")
      else
        let rs := unmasked mask 0 (children ctx) in
        match lowestSuccess rs with
        | Some (i, r) => Ok (mkContext (<[i := None]> (children ctx)) (Some r))
        | None =>
            if decide (rs = []) then Err (MergerFailed NothingMerged)
            else Ok (mkContext (children ctx) (Some (synthesize rs.*2)))
        end
  end.

Section merging.
Context `{merger : ReplyMerger M}.

(** ** Lemmas on the loop of [merge] *)

Section mergeLoop.
Implicit Types (mask : gset nat) (it : list (option Reply)) (rm : M).

Lemma answered_cons mask idx child it :
  answered mask idx (child :: it) ↔
  (idx ∉ mask → is_Some child) ∧ answered mask (S idx) it.
Proof.
  unfold answered. split.
  - intros Ha. split.
    + intros. apply (Ha 0); [done | by rewrite Nat.add_0_r].
    + intros k c Hk Hm. apply (Ha (S k)); [done | by rewrite Nat.add_succ_r].
  - intros [H0 Ha] [|k] c Hk Hm; simplify_eq/=.
    + apply H0. by rewrite Nat.add_0_r in Hm.
    + eapply Ha; [done | by rewrite Nat.add_succ_r in Hm].
Qed.

Lemma mergeLoop_answered mask idx it rm :
  answered mask idx it →
  mergeLoop mask idx it rm =
    Ok (idx + length it, mergeAll (unmasked mask idx it) rm).
Proof.
  revert idx rm. induction it as [|child it IH]; intros idx rm Ha; simpl.
  - by rewrite Nat.add_0_r.
  - apply answered_cons in Ha as [Hc Ha]. rewrite Nat.add_succ_r.
    case_decide; [by rewrite IH|].
    destruct (Hc ltac:(done)) as [reply ->]. by rewrite IH.
Qed.

Lemma mergeLoop_Ok mask idx it rm n rm' :
  mergeLoop mask idx it rm = Ok (n, rm') →
  answered mask idx it ∧ n = idx + length it ∧
  rm' = mergeAll (unmasked mask idx it) rm.
Proof.
  revert idx rm. induction it as [|child it IH]; intros idx rm Hl; simpl in *.
  - simplify_eq. split_and!; [intros k c Hk; by rewrite lookup_nil in Hk | lia | done].
  - rewrite answered_cons, Nat.add_succ_r. case_decide.
    + apply IH in Hl as (? & ? & ?). split_and!; [tauto | done..].
    + destruct child as [reply|]; [|done].
      apply IH in Hl as (? & ? & ?). split_and!; [eauto | done..].
Qed.

(** The first child outside the mask without a reply stops the loop. *)
Lemma mergeLoop_NoReply mask idx it rm k :
  it !! k = Some None → idx + k ∉ mask → answered mask idx (take k it) →
  mergeLoop mask idx it rm = Err (NoReply (idx + k)).
Proof.
  revert idx rm k. induction it as [|child it IH]; intros idx rm k Hk Hm Ha;
    [by rewrite lookup_nil in Hk|].
  destruct k as [|k]; simplify_eq/=.
  - rewrite Nat.add_0_r in Hm |- *. by rewrite decide_False.
  - rewrite Nat.add_succ_r in Hm |- *. apply answered_cons in Ha as [Hc Ha].
    case_decide; [by apply (IH (S idx) _ k)|].
    destruct (Hc ltac:(done)) as [reply ->]. by apply (IH (S idx) _ k).
Qed.

Lemma elem_of_unmasked mask idx it i r :
  (i, r) ∈ unmasked mask idx it ↔
  idx ≤ i ∧ i ∉ mask ∧ it !! (i - idx) = Some (Some r).
Proof.
  revert idx r. induction it as [|child it IH]; intros idx r; simpl.
  - rewrite elem_of_nil, lookup_nil. naive_solver.
  - destruct (decide (i = idx)) as [->|Hne].
    + rewrite Nat.sub_diag. simpl.
      assert (∀ r', (idx, r') ∉ unmasked mask (S idx) it) as Hnot
        by (intros r' (? & _)%IH; lia).
      case_decide; [|destruct child as [reply|]]; rewrite ?elem_of_cons;
        naive_solver.
    + assert ((i, r) ∈ unmasked mask (S idx) it ↔
        idx ≤ i ∧ i ∉ mask ∧ (child :: it) !! (i - idx) = Some (Some r)) as Hrest.
      { rewrite IH. destruct (decide (idx < i)) as [Hlt|]; [|naive_solver lia].
        replace (i - idx) with (S (i - S idx)) by lia. naive_solver lia. }
      case_decide; [done|]. destruct child as [reply|]; [|done].
      rewrite elem_of_cons, Hrest. naive_solver.
Qed.

Lemma unmasked_lower_bound mask idx it i r :
  (i, r) ∈ unmasked mask idx it → idx ≤ i.
Proof. by intros (? & _)%elem_of_unmasked. Qed.

(** The loop merges in ascending index order, each index once. *)
Lemma unmasked_sorted mask idx it :
  StronglySorted lt (unmasked mask idx it).*1.
Proof.
  revert idx. induction it as [|child it IH]; intros idx; simpl; [constructor|].
  case_decide; [done|]. destruct child as [reply|]; [|done].
  simpl. constructor; [done|]. apply Forall_forall.
  intros j ([j' r] & -> & Hj%unmasked_lower_bound)%list_elem_of_fmap.
  simpl. lia.
Qed.

Lemma NoDup_unmasked mask idx it : NoDup (unmasked mask idx it).*1.
Proof.
  generalize (unmasked_sorted mask idx it).
  generalize ((unmasked mask idx it).*1). intros l.
  induction 1 as [|x l _ IH Hall]; [constructor|].
  apply NoDup_cons. split; [|done].
  intros Hx. rewrite Forall_forall in Hall. specialize (Hall x Hx). lia.
Qed.

Lemma unmasked_nil mask idx it :
  unmasked mask idx it = [] ↔
  ∀ k r, it !! k = Some (Some r) → idx + k ∈ mask.
Proof.
  split.
  - intros Hnil k r Hk. destruct (decide (idx + k ∈ mask)) as [|Hm]; [done|].
    assert ((idx + k, r) ∈ unmasked mask idx it) as Hin.
    { apply elem_of_unmasked. split_and!; [lia | done |].
      by replace (idx + k - idx) with k by lia. }
    rewrite Hnil in Hin. by apply elem_of_nil in Hin.
  - intros Hall. destruct (unmasked mask idx it) as [|[i r] l] eqn:Hu; [done|].
    assert ((i, r) ∈ unmasked mask idx it) as Hin by (rewrite Hu; left).
    apply elem_of_unmasked in Hin as (? & Hm & Hl). destruct Hm.
    replace i with (idx + (i - idx)) by lia. eauto.
Qed.

End mergeLoop.

(** ** Lemmas on [merge] *)

Section merge.
Implicit Types (ctx : RoutingContext) (mask : gset nat).

Lemma elem_of_unmasked_0 mask it i r :
  (i, r) ∈ unmasked mask 0 it ↔ i ∉ mask ∧ it !! i = Some (Some r).
Proof. rewrite elem_of_unmasked, Nat.sub_0_r. naive_solver lia. Qed.

Lemma applyResult_Forward i ctx r :
  children ctx !! i = Some (Some r) →
  applyResult (Forward i) ctx = Ok (mkContext (<[i := None]> (children ctx)) (Some r)).
Proof. intros Hi. unfold applyResult. simpl. by rewrite (removeReply_Some _ _ r). Qed.

Lemma applyResult_Synthesized reply ctx :
  applyResult (Synthesized reply) ctx = Ok (mkContext (children ctx) (Some reply)).
Proof. done. Qed.

(** With every non-masked child answered, [merge] is the verdict of the
    merger over those children, applied to the context. *)
Lemma merge_answered ctx mask :
  answered mask 0 (children ctx) → children ctx ≠ [] →
  merge ctx mask =
    match mergedReply (mergeAll (unmasked mask 0 (children ctx)) init) with
    | Err e => Err (MergerFailed e)
    | Ok res => applyResult res ctx
    end.
Proof.
  intros Ha Hne. unfold merge. rewrite mergeLoop_answered by done. simpl.
  rewrite decide_False; [done|]. destruct (children ctx); simpl; [done | lia].
Qed.

(** The two ways [merge] succeeds. *)
Lemma merge_Ok_inv ctx mask ctx' :
  merge ctx mask = Ok ctx' →
  answered mask 0 (children ctx) ∧
  ((∃ i r, children ctx !! i = Some (Some r) ∧ i ∉ mask ∧ errors r = [] ∧
      (∀ j r', (j, r') ∈ unmasked mask 0 (children ctx) → errors r' = [] → i ≤ j) ∧
      ctx' = mkContext (<[i := None]> (children ctx)) (Some r)) ∨
   (unmasked mask 0 (children ctx) ≠ [] ∧
    (∀ p, p ∈ unmasked mask 0 (children ctx) → errors p.2 ≠ []) ∧
    ctx' = mkContext (children ctx)
             (Some (synthesize (unmasked mask 0 (children ctx)).*2)))).
Proof.
  unfold merge. intros Hm.
  destruct (mergeLoop mask 0 (children ctx) init) as [[n rm]|e] eqn:Hl; [|done].
  apply mergeLoop_Ok in Hl as (Ha & -> & ->). simpl in Hm.
  case_decide; [done|]. split; [done|].
  pose proof (mergedReply_mergeAll (unmasked mask 0 (children ctx))) as Hv.
  destruct Hv as [Hnil | i r Hin Hok Hmin | Hne Hall]; [done | left | right].
  - apply elem_of_unmasked_0 in Hin as [? Hi].
    rewrite (applyResult_Forward _ _ r) in Hm by done. naive_solver.
  - rewrite applyResult_Synthesized in Hm. naive_solver.
Qed.

(** What holds of every reply in a slot outside the mask holds of every
    reply handed to the merger. *)
Lemma unmasked_forall (P : Reply → Prop) mask it :
  (∀ i r, i ∉ mask → it !! i = Some (Some r) → P r) →
  ∀ p, p ∈ unmasked mask 0 it → P p.2.
Proof. intros HP [j r] [? ?]%elem_of_unmasked_0. eauto. Qed.

(** An answered child outside the mask is handed to the merger. *)
Lemma unmasked_nonempty mask it :
  answered mask 0 it → (∃ i, i < length it ∧ i ∉ mask) → unmasked mask 0 it ≠ [].
Proof.
  intros Ha (i & Hi & Hm) Hnil.
  destruct (lookup_lt_is_Some_2 _ _ Hi) as [child Hc].
  destruct (Ha i child Hc Hm) as [r ->].
  assert ((i, r) ∈ unmasked mask 0 it) as Hin by by apply elem_of_unmasked_0.
  rewrite Hnil in Hin. by apply elem_of_nil in Hin.
Qed.

Lemma unmasked_children ctx mask :
  unmasked mask 0 (children ctx) ≠ [] → children ctx ≠ [].
Proof. intros Hne Hnil. by rewrite Hnil in Hne. Qed.

(** When everything handed to the merger failed, [merge] installs the
    generated reply. *)
Lemma merge_all_failed ctx mask :
  answered mask 0 (children ctx) →
  unmasked mask 0 (children ctx) ≠ [] →
  (∀ p, p ∈ unmasked mask 0 (children ctx) → errors p.2 ≠ []) →
  merge ctx mask =
    Ok (mkContext (children ctx)
          (Some (synthesize (unmasked mask 0 (children ctx)).*2))).
Proof.
  intros Ha Hne Hfail. rewrite merge_answered by eauto using unmasked_children.
  by rewrite mergedReply_synthesized.
Qed.

(** The lowest error-free child outside the mask is the reply the merger
    forwards. *)
Lemma mergedReply_lowest ctx mask i r :
  children ctx !! i = Some (Some r) → i ∉ mask → errors r = [] →
  (∀ j r', j < i → j ∉ mask → children ctx !! j = Some (Some r') → errors r' ≠ []) →
  mergedReply (mergeAll (unmasked mask 0 (children ctx)) init) = Ok (Forward i).
Proof.
  intros Hi Hm Hok Hlow. apply (mergedReply_forward _ i r); [|done|].
  - by apply elem_of_unmasked_0.
  - intros j r' [? Hj]%elem_of_unmasked_0 Hok'.
    destruct (decide (i ≤ j)); [done|]. destruct (Hlow j r'); [lia | done..].
Qed.

(** ** Lemmas on the specification *)

Lemma firstUnanswered_None mask it :
  firstUnanswered mask it = None → answered mask 0 it.
Proof.
  unfold firstUnanswered. rewrite fmap_None, list_find_None, Forall_lookup.
  intros Hall k c Hk Hm. destruct c as [r|]; [by eexists|].
  destruct (Hall k (k, None)); [by rewrite list_lookup_imap, Hk | done].
Qed.

Lemma firstUnanswered_Some mask it k :
  firstUnanswered mask it = Some k →
  it !! k = Some None ∧ k ∉ mask ∧ answered mask 0 (take k it).
Proof.
  unfold firstUnanswered. intros ([j [i c]] & Hf & ?)%fmap_Some_1. simplify_eq/=.
  apply list_find_Some in Hf as (Hj & [Hm Hnone] & Hbefore). simpl in *.
  rewrite list_lookup_imap in Hj.
  destruct (it !! j) as [c'|] eqn:Hc; simplify_eq/=. split_and!; [done..|].
  intros k c' [Hk Hlt]%lookup_take_Some Hmk. destruct c' as [r|]; [by eexists|].
  destruct (Hbefore k (k, None)); [by rewrite list_lookup_imap, Hk | done..].
Qed.

Lemma lowestSuccess_Some mask it i r :
  lowestSuccess (unmasked mask 0 it) = Some (i, r) →
  (i, r) ∈ unmasked mask 0 it ∧ errors r = [] ∧
  ∀ j r', (j, r') ∈ unmasked mask 0 it → errors r' = [] → i ≤ j.
Proof.
  unfold lowestSuccess. intros ([j [i' r0]] & Hf & ?)%fmap_Some_1. simplify_eq/=.
  apply (list_find_sorted_min fst) in Hf as (? & ? & Hmin);
    [|apply unmasked_sorted].
  split_and!; [done..|]. intros j' r' Hin Hok. by apply (Hmin (j', r')).
Qed.

Lemma lowestSuccess_None rs :
  lowestSuccess rs = None → ∀ p, p ∈ rs → errors p.2 ≠ [].
Proof.
  unfold lowestSuccess. rewrite fmap_None, list_find_None, Forall_forall. eauto.
Qed.

#[global] Instance answered_dec mask idx it : Decision (answered mask idx it).
Proof.
  revert idx. induction it as [|child it IH]; intros idx.
  - left. intros k c Hk. by rewrite lookup_nil in Hk.
  - refine (cast_if (decide ((idx ∉ mask → is_Some child) ∧ answered mask (S idx) it)));
      by rewrite answered_cons.
Defined.

(** ** Theorems on [merge] *)

(** C1. [merge] implements its specification with every merger that meets
    the contract: on every context and mask it returns what [mergeSpec]
    states, the errors included. *)
Theorem merge_refines_spec ctx mask : merge ctx mask = mergeSpec ctx mask.
Proof.
  unfold mergeSpec. destruct (firstUnanswered _ _) as [k|] eqn:Hf.
  { apply firstUnanswered_Some in Hf as (Hk & Hm & Ha).
    unfold merge. by rewrite (mergeLoop_NoReply mask 0 _ _ k). }
  apply firstUnanswered_None in Hf. case_decide as Hnil.
  { unfold merge. by rewrite Hnil. }
  rewrite merge_answered by done.
  destruct (lowestSuccess _) as [[i r]|] eqn:Hs.
  - apply lowestSuccess_Some in Hs as (Hin & Hok & Hmin).
    rewrite (mergedReply_forward _ i r) by done.
    apply applyResult_Forward. by apply elem_of_unmasked_0 in Hin as [_ ?].
  - case_decide as Hrs; [by rewrite Hrs, mergedReply_nothing|].
    by rewrite mergedReply_synthesized by eauto using lowestSuccess_None.
Qed.

(** C2. When every non-masked child has answered and child [i] is the
    lowest non-masked child whose reply has no error, [merge] moves that
    reply out of slot [i] into the context and leaves every other slot as it
    was. *)
Theorem merge_forwards_lowest_success ctx mask i r :
  answered mask 0 (children ctx) →
  children ctx !! i = Some (Some r) → i ∉ mask → errors r = [] →
  (∀ j r', j < i → j ∉ mask → children ctx !! j = Some (Some r') → errors r' ≠ []) →
  merge ctx mask = Ok (mkContext (<[i := None]> (children ctx)) (Some r)).
Proof.
  intros Ha Hi Hm Hok Hlow.
  rewrite merge_answered by (done || by intros Hnil; rewrite Hnil in Hi).
  rewrite (mergedReply_lowest _ _ i r) by done. by apply applyResult_Forward.
Qed.

(** C3. When every non-masked child has answered with errors, and one child
    at least is not masked, [merge] installs the reply synthesized from
    those replies in index order and changes no slot. *)
Theorem merge_synthesizes_failures ctx mask :
  answered mask 0 (children ctx) →
  (∃ i, i < length (children ctx) ∧ i ∉ mask) →
  (∀ i r, i ∉ mask → children ctx !! i = Some (Some r) → errors r ≠ []) →
  merge ctx mask =
    Ok (mkContext (children ctx)
          (Some (synthesize (unmasked mask 0 (children ctx)).*2))).
Proof.
  intros Ha Hex Hfail.
  apply merge_all_failed; [done | by apply unmasked_nonempty |].
  by apply (unmasked_forall (λ r, errors r ≠ [])).
Qed.

(** C7. [merge] always produces a verdict when every non-masked child has
    answered and one child at least is not masked: it succeeds, the context
    holds a reply afterwards, and the number of slots is unchanged. *)
Theorem merge_returns_verdict ctx mask :
  answered mask 0 (children ctx) →
  (∃ i, i < length (children ctx) ∧ i ∉ mask) →
  ∃ ctx', merge ctx mask = Ok ctx' ∧ is_Some (getReply ctx') ∧
          length (children ctx') = length (children ctx).
Proof.
  intros Ha Hex. pose proof (unmasked_nonempty _ _ Ha Hex) as Hne.
  rewrite merge_answered by eauto using unmasked_children.
  pose proof (mergedReply_mergeAll (unmasked mask 0 (children ctx))) as Hv.
  destruct Hv as [Hnil | j r Hin Hok Hmin | _ Hall]; [done | |].
  - apply elem_of_unmasked_0 in Hin as [_ Hj].
    rewrite (applyResult_Forward _ _ r) by done.
    eexists. split_and!; [done | by eexists | apply length_insert].
  - eexists. split_and!; [done | by eexists | done].
Qed.

(** C4. A masked child never takes part: whatever [merge] returns, the
    slots of masked children are as they were, and a slot that did change
    belonged to a non-masked child whose error-free reply is now the reply
    of the context. *)
Theorem merge_masked_untouched ctx mask ctx' i :
  merge ctx mask = Ok ctx' →
  (i ∈ mask → children ctx' !! i = children ctx !! i) ∧
  (children ctx' !! i ≠ children ctx !! i →
    ∃ r, children ctx !! i = Some (Some r) ∧ errors r = [] ∧
         getReply ctx' = Some r).
Proof.
  intros (_ & [(j & r & Hj & Hm & Hok & _ & ->) | (_ & _ & ->)])%merge_Ok_inv;
    simpl; [|done].
  destruct (decide (i = j)) as [->|Hne].
  - split; [done | eauto].
  - by rewrite list_lookup_insert_ne by done.
Qed.

(** C8. The synthesized reply lists every code reported by a non-masked
    child exactly once, ordered by descending number of reporting children
    and then by ascending code. *)
Theorem merge_failure_codes ctx mask :
  answered mask 0 (children ctx) →
  (∃ i, i < length (children ctx) ∧ i ∉ mask) →
  (∀ i r, i ∉ mask → children ctx !! i = Some (Some r) → errors r ≠ []) →
  ∃ ctx' reply,
    merge ctx mask = Ok ctx' ∧ getReply ctx' = Some reply ∧
    NoDup (codes reply) ∧
    (∀ c, c ∈ codes reply ↔
       ∃ i r, i ∉ mask ∧ children ctx !! i = Some (Some r) ∧ c ∈ codes r) ∧
    codes reply = (entries (unmasked mask 0 (children ctx)).*2).*1 ∧
    StronglySorted entry_le (entries (unmasked mask 0 (children ctx)).*2).
Proof.
  intros Ha Hex Hfail. do 2 eexists. split.
  { apply merge_all_failed; [done | by apply unmasked_nonempty |].
    by apply (unmasked_forall (λ r, errors r ≠ [])). }
  simpl. split; [done|]. rewrite codes_synthesize.
  split_and!; [apply NoDup_entries_fst | | done | apply entries_sorted].
  intros c. rewrite entries_fst, elem_of_observed. split.
  - intros (r & ([i r'] & -> & [? ?]%elem_of_unmasked_0)%list_elem_of_fmap & ?).
    eauto.
  - intros (i & r & ? & ? & ?). exists r. split; [|done].
    apply list_elem_of_fmap. exists (i, r). split; [done|].
    by apply elem_of_unmasked_0.
Qed.

(** C10. The assertion [idx != 0] counts masked children too: a context with
    children that are all masked passes it, and the verdict is requested
    from a merger that has merged nothing. *)
Theorem merge_all_masked ctx mask :
  children ctx ≠ [] →
  (∀ i, i < length (children ctx) → i ∈ mask) →
  merge ctx mask = Err (MergerFailed NothingMerged).
Proof.
  intros Hne Hall.
  assert (answered mask 0 (children ctx)) as Ha.
  { intros k child Hk Hm. destruct Hm. apply Hall. by eapply lookup_lt_Some. }
  rewrite merge_answered by done.
  replace (unmasked mask 0 (children ctx)) with (@nil (nat * Reply));
    [by rewrite mergedReply_nothing|].
  symmetry. apply unmasked_nil. intros k r Hk. apply Hall. by eapply lookup_lt_Some.
Qed.

(** Without children the assertion [idx != 0] fails. *)
Theorem merge_no_children ctx mask :
  children ctx = [] → merge ctx mask = Err (AssertionFailed "idx != 0").
Proof. intros Hnil. unfold merge. by rewrite Hnil. Qed.

(** The first non-masked child without a reply makes the loop
    dereference an empty slot: [merge] fails there and the context is not
    changed. *)
Theorem merge_missing_reply ctx mask k :
  children ctx !! k = Some None → k ∉ mask →
  answered mask 0 (take k (children ctx)) →
  merge ctx mask = Err (NoReply k).
Proof.
  intros Hk Hm Ha. unfold merge.
  by rewrite (mergeLoop_NoReply mask 0 _ _ k).
Qed.

(** C5. A loop that completes has counted every child and handed the
    merger exactly the replies of the non-masked children, each once, in
    ascending index order. *)
Theorem mergeLoop_feeds_unmasked mask it rm n rm' :
  mergeLoop mask 0 it rm = Ok (n, rm') →
  n = length it ∧ rm' = mergeAll (unmasked mask 0 it) rm ∧
  StronglySorted lt (unmasked mask 0 it).*1 ∧
  ∀ i r, (i, r) ∈ unmasked mask 0 it ↔ i ∉ mask ∧ it !! i = Some (Some r).
Proof.
  intros (_ & -> & ->)%mergeLoop_Ok.
  split_and!; [done | done | apply unmasked_sorted | apply elem_of_unmasked_0].
Qed.

End merge.

End merging.

(** ** The calls [merge] makes on the merger *)

Section usage.
Context `{merger : ReplyMerger M}.

(** C6. The loop of [merge] obeys the usage protocol of the merger. Run with
    a merger that records its calls, it makes one call of [merge] per
    non-masked child, in index order; the verdict may be requested after
    them exactly when one child at least is not masked. *)
Theorem mergeLoop_obeys_usage mask it n rm :
  mergeLoop (merger := logged) mask 0 it logged_init = Ok (n, rm) →
  rm.2 = mergeCalls (unmasked mask 0 it) ∧
  (accepted (rm.2 ++ [CallMergedReply]) ↔ ∃ i, i < length it ∧ i ∉ mask).
Proof.
  intros (Ha & -> & ->)%mergeLoop_Ok. rewrite mergeAll_logged. simpl.
  split; [done|]. rewrite accepted_mergeCalls. split.
  - intros [_ Hne]. destruct (unmasked mask 0 it) as [|[i r] l] eqn:Hu; [done|].
    assert ((i, r) ∈ unmasked mask 0 it) as Hin by (rewrite Hu; left).
    apply elem_of_unmasked_0 in Hin as [? ?%lookup_lt_Some]. eauto.
  - intros Hex. split; [apply NoDup_unmasked | by apply unmasked_nonempty].
Qed.

End usage.

(** ** Concrete runs *)

(** Children [success, fail(5)] with child 0 masked: the masked success is
    ignored and the reply is generated from the remaining failure. *)
Lemma merge_refines_spec_witness :
  merge (merger := reference)
    (contextOf [Some (replyWith 1 []); Some (replyWith 2 [5%Z])]) {[0]} =
  Ok (mkContext [Some (replyWith 1 []); Some (replyWith 2 [5%Z])]
        (Some (withErrors [mkError 5 EmptyString] EmptyReply))).
Proof. rewrite merge_refines_spec. vm_compute. reflexivity. Defined.

(** Children [success, fail(5)] with child 0 masked: one call of [merge],
    for child 1, and the verdict may be requested. *)
Lemma mergeLoop_obeys_usage_witness :
  accepted ([CallMerge 1 (replyWith 2 [5%Z])] ++ [CallMergedReply]).
Proof.
  edestruct (mergeLoop_obeys_usage (merger := reference) {[0]}
    [Some (replyWith 1 []); Some (replyWith 2 [5%Z])]) as [_ Hacc];
    [reflexivity|].
  apply Hacc. exists 1. split; [simpl; lia | by_compute].
Defined.

(** Children [fail(7), success, fail(9)], none masked: child 1 is forwarded. *)
Lemma merge_forwards_lowest_success_witness :
  merge (contextOf [Some (replyWith 1 [7%Z]); Some (replyWith 2 []); Some (replyWith 3 [9%Z])]) ∅ =
  Ok (mkContext [Some (replyWith 1 [7%Z]); None; Some (replyWith 3 [9%Z])]
        (Some (replyWith 2 []))).
Proof.
  apply (merge_forwards_lowest_success
    (contextOf [Some (replyWith 1 [7%Z]); Some (replyWith 2 []); Some (replyWith 3 [9%Z])])
    ∅ 1 (replyWith 2 [])).
  - by_compute.
  - reflexivity.
  - apply not_elem_of_empty.
  - reflexivity.
  - intros [|j] r' Hj _ Hl; [by simplify_eq/= | lia].
Defined.

(** Children [success, fail(5)] with child 0 masked: the verdict is
    synthesized from the failure, the success is not forwarded. *)
Lemma merge_synthesizes_failures_witness :
  merge (contextOf [Some (replyWith 1 []); Some (replyWith 2 [5%Z])]) {[0]} =
  Ok (mkContext [Some (replyWith 1 []); Some (replyWith 2 [5%Z])]
        (Some (synthesize [replyWith 2 [5%Z]]))).
Proof.
  etrans; [apply (merge_synthesizes_failures
    (contextOf [Some (replyWith 1 []); Some (replyWith 2 [5%Z])]) {[0]})|].
  - by_compute.
  - exists 1. split; [simpl; lia | by_compute].
  - intros [|[|i]] r Hm Hl; simplify_eq/=; [|done].
    destruct Hm. by_compute.
  - vm_compute. reflexivity.
Defined.

Lemma merge_returns_verdict_witness :
  ∃ ctx', merge (contextOf [Some (replyWith 1 [7%Z]); Some (replyWith 2 [])]) ∅ = Ok ctx' ∧
          is_Some (getReply ctx') ∧ length (children ctx') = 2.
Proof.
  apply (merge_returns_verdict
    (contextOf [Some (replyWith 1 [7%Z]); Some (replyWith 2 [])]) ∅).
  - by_compute.
  - exists 0. split; [simpl; lia | apply not_elem_of_empty].
Defined.

Lemma merge_masked_untouched_witness :
  ({[0]} : gset nat) = {[0]} ∧
  (0 ∈ ({[0]} : gset nat) →
   children (mkContext [Some (replyWith 1 []); Some (replyWith 2 [5%Z])]
     (Some (synthesize [replyWith 2 [5%Z]]))) !! 0 =
   children (contextOf [Some (replyWith 1 []); Some (replyWith 2 [5%Z])]) !! 0).
Proof.
  split; [reflexivity|].
  apply (merge_masked_untouched
    (contextOf [Some (replyWith 1 []); Some (replyWith 2 [5%Z])]) {[0]} _ 0).
  vm_compute. reflexivity.
Defined.

(** Children [fail(4), fail(9), fail(4)]: code 4 is reported twice and comes
    first, code 9 once. *)
Lemma merge_failure_codes_witness :
  ∃ ctx' reply,
    merge (contextOf [Some (replyWith 1 [4%Z]); Some (replyWith 1 [9%Z]); Some (replyWith 1 [4%Z])]) ∅ = Ok ctx' ∧
    getReply ctx' = Some reply ∧ codes reply = [4%Z; 9%Z].
Proof.
  destruct (merge_failure_codes
    (contextOf [Some (replyWith 1 [4%Z]); Some (replyWith 1 [9%Z]); Some (replyWith 1 [4%Z])]) ∅)
    as (ctx' & reply & Hm & Hr & _ & _ & Hc & _).
  - by_compute.
  - exists 0. split; [simpl; lia | apply not_elem_of_empty].
  - intros [|[|[|i]]] r _ Hl; by simplify_eq/=.
  - exists ctx', reply. split_and!; [done | done |]. rewrite Hc. vm_compute. reflexivity.
Defined.

Lemma merge_all_masked_witness :
  merge (contextOf [Some (replyWith 1 []); Some (replyWith 2 [5%Z])]) {[0; 1]} =
  Err (MergerFailed NothingMerged).
Proof.
  apply (merge_all_masked
    (contextOf [Some (replyWith 1 []); Some (replyWith 2 [5%Z])]) {[0; 1]}).
  - discriminate.
  - intros [|[|i]] Hi; [by_compute.. | simpl in Hi; lia].
Defined.

Lemma merge_no_children_witness :
  merge (contextOf []) {[3]} = Err (AssertionFailed "idx != 0").
Proof. apply (merge_no_children (contextOf []) {[3]}). reflexivity. Defined.

Lemma merge_missing_reply_witness :
  merge (contextOf [Some (replyWith 1 []); None; Some (replyWith 2 [])]) ∅ =
  Err (NoReply 1).
Proof.
  apply (merge_missing_reply
    (contextOf [Some (replyWith 1 []); None; Some (replyWith 2 [])]) ∅ 1).
  - reflexivity.
  - apply not_elem_of_empty.
  - by_compute.
Defined.

Lemma mergeLoop_feeds_unmasked_witness :
  ∃ rm : Impl.State,
    mergeLoop {[1]} 0 [Some (replyWith 1 [7%Z]); None; Some (replyWith 2 [])] init =
      Ok (3, rm) ∧
    (unmasked {[1]} 0 [Some (replyWith 1 [7%Z]); None; Some (replyWith 2 [])]).*1 = [0; 2].
Proof.
  eexists. split; [vm_compute; reflexivity|].
  destruct (mergeLoop_feeds_unmasked {[1]}
    [Some (replyWith 1 [7%Z]); None; Some (replyWith 2 [])] init 3
    (Impl.mkState (Some 2) [replyWith 1 [7%Z]])) as (_ & _ & _ & _);
    vm_compute; reflexivity.
Defined.

