(* ===== verification/MergeWidth.v ===== *)
(** * The index of [merge] at its width

    In [documentprotocol.cpp] the loop of [DocumentProtocol::merge] counts
    the children in a [uint32_t], and the mask is a [std::set<uint32_t>].
    [Protocol] counts them in a [nat]. This file writes the loop and [merge]
    again with the index as the source has it, [mergeLoop32] and [merge32]:
    a 32-bit value that [++idx] wraps, compared with a mask of 32-bit
    values.

    - For a context of fewer than 2^32 children the two agree
      ([merge32_agrees]), so every theorem on [merge] is a theorem on
      [merge32] there.
    - The bound is sharp: the index the loop ends with is the number of
      children modulo 2^32 ([mergeLoop32_index]), and a context of exactly
      2^32 children fails the assertion [idx != 0] although it has children
      ([merge32_wraps]). *)

From S2P Require Import Prelude Messagebus Merger Protocol.

Import ReplyMerger DocumentProtocol.

Section width.
Context `{merger : ReplyMerger M}.
Implicit Types (it : list (option Reply)) (rm : M) (ctx : RoutingContext).

(** [++idx] on a [uint32_t]. *)
Definition incr32 (idx : Z) : Z := wrap 32 (idx + 1).

(** The loop of [merge] with [idx] and the mask at 32 bits. *)
Fixpoint mergeLoop32 (mask : gset Z) (idx : Z) (it : list (option Reply))
    (rm : M) : result MergeError (Z * M) :=
  match it with
  | [] => Ok (idx, rm)
  | child :: it' =>
      if decide (idx ∈ mask) then mergeLoop32 mask (incr32 idx) it' rm
      else
        match child with
        | Some reply =>
            mergeLoop32 mask (incr32 idx) it'
              (ReplyMerger.merge (Z.to_nat idx) reply rm)
        | None => Err (NoReply (Z.to_nat idx))
        end
  end.

Definition merge32 (ctx : RoutingContext) (mask : gset Z) :
    result MergeError RoutingContext :=
  let? st := mergeLoop32 mask 0 (children ctx) ReplyMerger.init in
  if decide (st.1 = 0%Z) then Err (AssertionFailed "idx != 0")
  else
    match mergedReply st.2 with
    | Err e => Err (MergerFailed e)
    | Ok res => applyResult res ctx
    end.

(** The state of the loop in [nat], read at 32 bits. *)
Definition widen (st : nat * M) : Z * M := (Z.of_nat st.1, st.2).

(** ** Lemmas *)

Lemma incr32_small (idx : nat) :
  (Z.of_nat idx + 1 < 2 ^ 32)%Z → incr32 (Z.of_nat idx) = Z.of_nat (S idx).
Proof. intros. unfold incr32. rewrite wrap_small; [lia | unfold in_unsigned; lia]. Qed.

Lemma incr32_add idx n :
  wrap 32 (incr32 idx + n) = wrap 32 (idx + (1 + n)).
Proof.
  unfold incr32, wrap. rewrite Zplus_mod_idemp_l. f_equal. lia.
Qed.

Lemma elem_of_widened (mask : gset nat) (idx : nat) :
  Z.of_nat idx ∈ (set_map Z.of_nat mask : gset Z) ↔ idx ∈ mask.
Proof. rewrite elem_of_map. split; [by intros (? & ->%(inj _) & ?) | eauto]. Qed.

(** A mask of 32-bit values is the mask of its members as numbers. *)
Lemma widened_mask (mask : gset Z) :
  set_Forall (in_unsigned 32) mask →
  set_map Z.of_nat (set_map Z.to_nat mask : gset nat) = mask.
Proof.
  intros Hmask. apply set_eq. intros z. rewrite elem_of_map. split.
  - intros (n & -> & (z' & -> & Hz')%elem_of_map).
    destruct (Hmask z' Hz'). by rewrite Z2Nat.id.
  - intros Hz. destruct (Hmask z Hz). exists (Z.to_nat z).
    split; [by rewrite Z2Nat.id | apply elem_of_map; eauto].
Qed.

(** Below 2^32 the loop at 32 bits is the loop on numbers. *)
Lemma mergeLoop32_mergeLoop (mask : gset nat) (idx : nat) it rm :
  (Z.of_nat idx + Z.of_nat (length it) < 2 ^ 32)%Z →
  mergeLoop32 (set_map Z.of_nat mask) (Z.of_nat idx) it rm =
    let? st := mergeLoop mask idx it rm in Ok (widen st).
Proof.
  revert idx rm. induction it as [|child it IH]; intros idx rm Hlen; [done|].
  cbn [mergeLoop32 mergeLoop length] in *.
  rewrite incr32_small, Nat2Z.id by lia.
  rewrite (decide_ext _ _ _ _ (elem_of_widened mask idx)).
  case_decide; [apply IH; lia|]. destruct child; [apply IH; lia | done].
Qed.

(** The loop ends with the number of children it went through added to
    its index, modulo 2^32. *)
Lemma mergeLoop32_index (mask : gset Z) idx it rm idx' rm' :
  in_unsigned 32 idx → mergeLoop32 mask idx it rm = Ok (idx', rm') →
  idx' = wrap 32 (idx + Z.of_nat (length it)).
Proof.
  revert idx rm. induction it as [|child it IH]; intros idx rm Hidx Hloop.
  - simplify_eq/=. by rewrite Z.add_0_r, wrap_small.
  - cbn [mergeLoop32 length] in *.
    assert (wrap 32 (idx + Z.of_nat (S (length it))) =
            wrap 32 (incr32 idx + Z.of_nat (length it))) as ->
      by (rewrite incr32_add; f_equal; lia).
    pose proof (wrap_range 32 ltac:(done) (idx + 1)) as Hnext.
    case_decide; [by eapply IH|]. destruct child; [by eapply IH | done].
Qed.

(** ** Theorems *)

(** C11. For a context of fewer than 2^32 children and a mask of 32-bit
    values, [merge] with its index and mask at the width of the source
    returns what [merge] on numbers returns: the index never wraps. *)
Theorem merge32_agrees ctx (mask : gset Z) :
  (Z.of_nat (length (children ctx)) < 2 ^ 32)%Z →
  set_Forall (in_unsigned 32) mask →
  merge32 ctx mask = merge ctx (set_map Z.to_nat mask).
Proof.
  intros Hlen Hmask. unfold merge32, merge.
  rewrite <-(widened_mask mask Hmask) at 1.
  rewrite (mergeLoop32_mergeLoop _ 0) by (simpl; lia).
  destruct (mergeLoop _ 0 _ _) as [[n rm]|e]; [|done]. simpl.
  by rewrite (decide_ext (Z.of_nat n = 0%Z) (n = 0)) by lia.
Qed.

(** C12. The index wraps at 2^32: [merge] at the width of the source never
    returns a reply for a context of exactly 2^32 children. When every slot
    the loop reads holds a reply, the index is 0 after the loop and the
    assertion [idx != 0] fails, although the context has children. *)
Theorem merge32_wraps ctx (mask : gset Z) :
  Z.of_nat (length (children ctx)) = (2 ^ 32)%Z →
  ¬ is_Ok (merge32 ctx mask) ∧
  (is_Ok (mergeLoop32 mask 0 (children ctx) ReplyMerger.init) →
   merge32 ctx mask = Err (AssertionFailed "idx != 0")).
Proof.
  intros Hlen. unfold merge32.
  destruct (mergeLoop32 _ _ _ _) as [[idx rm]|e] eqn:Hloop; [|split; simpl; tauto].
  apply mergeLoop32_index in Hloop; [|done].
  rewrite Hlen in Hloop. vm_compute in Hloop. subst idx. split; simpl; tauto.
Qed.

End width.

(** ** Concrete runs *)

Section runs.
#[local] Existing Instance reference.

(** Three children, the second masked: the first reply is forwarded at
    either width. *)
Lemma merge32_agrees_witness :
  merge32 (mkContext [Some EmptyReply; None; Some EmptyReply] None) {[1%Z]} =
  merge (mkContext [Some EmptyReply; None; Some EmptyReply] None)
    (set_map Z.to_nat ({[1%Z]} : gset Z)).
Proof.
  apply (merge32_agrees (mkContext [Some EmptyReply; None; Some EmptyReply] None)
    {[1%Z]}); [simpl; lia|].
  intros z ->%elem_of_singleton. done.
Defined.

(** A context of 2^32 children: the assertion fails. *)
Lemma merge32_wraps_witness :
  ¬ is_Ok
    (merge32 (mkContext (replicate (Z.to_nat (2 ^ 32)) (Some EmptyReply)) None) ∅).
Proof.
  apply (merge32_wraps
    (mkContext (replicate (Z.to_nat (2 ^ 32)) (Some EmptyReply)) None) ∅).
  cbn [children]. rewrite length_replicate. apply Z2Nat.id. done.
Defined.

End runs.
