(* ===== verification/ProtocolRegistry.v ===== *)
(** * The registries of a constructed protocol

    Theorems on the constructor [DocumentProtocol.create] and on the
    operations that go through the two registries: [encode], [decode],
    [getRoutableTypes], [putRoutableFactory] and [createPolicy].

    The constructor registers one codec per routable type, all under the
    version specification [version6], and one policy factory per name.
    [created] collects what holds of the protocol it returns; the theorems
    on the operations are consequences. They hold for every interpretation
    [codec] of the routable factories and [createWith] of the policy
    factories, and for every numbering of the enumerators. *)

From S2P Require Import Prelude Messagebus Version RoutableRepo PolicyRepo Protocol.

Import RoutableRepository RoutingPolicyRepository DocumentProtocol.

Section registry.
Context {DocumentTypeRepo IRoutingPolicy : Type} `{numbering : Numbering}.
Context (codec : @RoutableFactories60 DocumentTypeRepo → IRoutableFactory).
Context (createWith :
  @RoutingPolicyFactories DocumentTypeRepo → string → option IRoutingPolicy).
Implicit Types (p : @DocumentProtocol DocumentTypeRepo) (repo : DocumentTypeRepo)
  (t : RoutableType) (f : @RoutableFactories60 DocumentTypeRepo) (v : Version)
  (type : Z) (r : Routable).

(** The codec the constructor registers for the type identifier [type]:
    the row of the table with that type, if there is one. *)
Definition codecOf repo type : option IRoutableFactory :=
  (λ row, codec row.2.2) <$> list_find (λ row, typeId row.1 = type) (routableTable repo).

(** What the constructor establishes. *)
Record created repo (configId : string) p : Prop := {
  created_repo : _repo p = repo;
  created_policy name :
    RoutingPolicyRepository.getFactory name (_routingPolicyRepository p) =
      RoutingPolicyRepository.getFactory name
        (foldl (λ acc row, RoutingPolicyRepository.putFactory row.1 row.2 acc)
           RoutingPolicyRepository.empty (policyTable repo (configString configId)));
  created_codec t f :
    (t, f) ∈ routableTable repo →
    registrations (typeId t) (_routableRepository p) = [(version6, codec f)];
  created_other type :
    (∀ t, typeId t ≠ type) → registrations type (_routableRepository p) = [];
  created_wf : wf (_routableRepository p);
}.

(** ** The tables *)

Lemma NoDup_routableTable repo : NoDup (routableTable repo).*1.
Proof. by_compute. Qed.

Lemma routableTable_types repo : (routableTable repo).*1 = allRoutableTypes.
Proof. done. Qed.

Lemma routableTable_complete repo t : ∃ f, (t, f) ∈ routableTable repo.
Proof.
  pose proof (elem_of_enum t) as Ht.
  change (enum RoutableType) with ((routableTable repo).*1) in Ht.
  apply list_elem_of_fmap in Ht as ([t' f] & -> & ?). eauto.
Qed.

Lemma routableTable_functional repo t f f' :
  (t, f) ∈ routableTable repo → (t, f') ∈ routableTable repo → f = f'.
Proof.
  apply NoDup_fst_functional, NoDup_routableTable.
Qed.

Lemma NoDup_policyTable repo cfg : NoDup (policyTable repo cfg).*1.
Proof. by_compute. Qed.

(** ** Registration *)

Lemma putRoutableFactories_from6 type (f : IRoutableFactory) p :
  putRoutableFactories type f from6 p = putRoutableFactory type f version6 p.
Proof. simpl. by destruct (putRoutableFactory _ _ _ _). Qed.

Lemma putRoutableFactory_Ok type (f : IRoutableFactory) spec p p' :
  putRoutableFactory type f spec p = Ok p' ↔
  ∃ rr, RoutableRepository.putFactory spec type f (_routableRepository p) = Ok rr ∧
        p' = mkDocumentProtocol (_routingPolicyRepository p) rr (_repo p).
Proof.
  unfold putRoutableFactory.
  destruct (RoutableRepository.putFactory _ _ _ _); vsimpl; naive_solver.
Qed.

Lemma putRoutableFactory_Err type (f : IRoutableFactory) spec p e :
  putRoutableFactory type f spec p = Err e ↔
  RoutableRepository.putFactory spec type f (_routableRepository p) = Err e.
Proof.
  unfold putRoutableFactory.
  destruct (RoutableRepository.putFactory _ _ _ _); vsimpl; naive_solver.
Qed.

(** Registering a codec for a type without registrations succeeds, and only
    the registrations of that type change. *)
Lemma putRoutableFactory_fresh type (f : IRoutableFactory) spec p :
  registrations type (_routableRepository p) = [] →
  ∃ p', putRoutableFactory type f spec p = Ok p' ∧
    _routingPolicyRepository p' = _routingPolicyRepository p ∧ _repo p' = _repo p ∧
    (wf (_routableRepository p) → wf (_routableRepository p')) ∧
    ∀ type', registrations type' (_routableRepository p') =
      if decide (type = type') then [(spec, f)]
      else registrations type' (_routableRepository p).
Proof.
  intros Hfresh.
  destruct (RoutableRepository.putFactory spec type f (_routableRepository p))
    as [rr|e] eqn:Hput.
  - eexists. split; [apply putRoutableFactory_Ok; eauto|]. simpl.
    split_and!; [done | done | eauto using putFactory_wf |].
    intros type'. rewrite (registrations_putFactory _ _ _ _ _ _ Hput).
    by rewrite Hfresh.
  - apply putFactory_Err in Hput as (_ & q & Hq & _).
    rewrite Hfresh in Hq. by apply elem_of_nil in Hq.
Qed.

Lemma putRoutableTable_fresh (rows : list (RoutableType * RoutableFactories60)) p :
  NoDup rows.*1 →
  (∀ t, t ∈ rows.*1 → registrations (typeId t) (_routableRepository p) = []) →
  ∃ p', putRoutableTable codec rows p = Ok p' ∧
    _routingPolicyRepository p' = _routingPolicyRepository p ∧ _repo p' = _repo p ∧
    (wf (_routableRepository p) → wf (_routableRepository p')) ∧
    (∀ t f, (t, f) ∈ rows →
       registrations (typeId t) (_routableRepository p') = [(version6, codec f)]) ∧
    (∀ type, (∀ t, t ∈ rows.*1 → typeId t ≠ type) →
       registrations type (_routableRepository p') =
       registrations type (_routableRepository p)).
Proof.
  revert p. induction rows as [|[t f] rows IH]; intros p Hnd Hfresh.
  - exists p. split_and!; try done. by intros t f ?%elem_of_nil.
  - simpl in Hnd. apply NoDup_cons in Hnd as [Ht Hnd].
    destruct (putRoutableFactory_fresh (typeId t) (codec f) version6 p)
      as (p1 & Hput & Hpol & Hrepo & Hwf & Hregs); [apply Hfresh; left|].
    assert (∀ t', t' ∈ rows.*1 → typeId t ≠ typeId t') as Hne
      by (intros t' Ht' ?%(inj typeId); by subst).
    destruct (IH p1 Hnd) as (p' & Htab & Hpol' & Hrepo' & Hwf' & Hin & Hout).
    { intros t' Ht'. rewrite Hregs, decide_False by eauto.
      apply Hfresh. by right. }
    exists p'. split_and!; [| congruence | congruence | eauto | |].
    + cbn [putRoutableTable]. by rewrite putRoutableFactories_from6, Hput.
    + intros t' f' [[= -> ->]|Hrow]%elem_of_cons; [|by apply Hin].
      rewrite Hout, Hregs by (intros t' Ht'; by apply not_eq_sym, Hne).
      by rewrite decide_True.
    + intros type Htype. rewrite Hout by (intros t' Ht'; apply Htype; by right).
      rewrite Hregs, decide_False; [done|]. apply Htype. left.
Qed.

(** Registering policy factories leaves the codec registry alone. *)
Lemma putRoutingPolicyFactory_foldl table p p' :
  p' = foldl (λ p row, putRoutingPolicyFactory row.1 row.2 p) p table →
  _routableRepository p' = _routableRepository p ∧ _repo p' = _repo p ∧
  _routingPolicyRepository p' =
    foldl (λ acc row, RoutingPolicyRepository.putFactory row.1 row.2 acc)
      (_routingPolicyRepository p) table.
Proof.
  intros ->. revert p. induction table as [|row table IH]; intros p; [done|].
  simpl. by destruct (IH (putRoutingPolicyFactory row.1 row.2 p)) as (-> & -> & ->).
Qed.

(** ** The constructor *)

Lemma create_Ok repo configId :
  ∃ p, create codec repo configId = Ok p ∧ created repo configId p.
Proof.
  unfold create.
  remember (foldl _ _ (policyTable repo (configString configId))) as p0 eqn:Hp0.
  apply putRoutingPolicyFactory_foldl in Hp0 as (Hr0 & Hrepo0 & Hpol0).
  cbn [_routableRepository _repo _routingPolicyRepository] in Hr0, Hrepo0, Hpol0.
  destruct (putRoutableTable_fresh (routableTable repo) p0)
    as (p & Htab & Hpol & Hrepo & Hwf & Hin & Hout).
  { apply NoDup_routableTable. }
  { intros t _. rewrite Hr0. apply registrations_empty. }
  exists p. split; [done|]. split.
  - congruence.
  - intros name. by rewrite Hpol, Hpol0.
  - done.
  - intros type Htype. rewrite Hout by eauto. rewrite Hr0. apply registrations_empty.
  - apply Hwf. rewrite Hr0. apply wf_empty.
Qed.

Lemma create_created repo configId p :
  create codec repo configId = Ok p → created repo configId p.
Proof. destruct (create_Ok repo configId) as (p' & -> & ?). by intros [= <-]. Qed.

(** ** Resolution in a constructed protocol *)

Section constructed.
Context (repo : DocumentTypeRepo) (configId : string)
  (p : @DocumentProtocol DocumentTypeRepo).
Context (Hcreate : create codec repo configId = Ok p).

Lemma codecOf_Some type c :
  codecOf repo type = Some c ↔
  ∃ t f, (t, f) ∈ routableTable repo ∧ typeId t = type ∧ c = codec f.
Proof using Type.
  unfold codecOf. rewrite fmap_Some. split.
  - intros ([i [t f]] & (Hi & Ht & _)%list_find_Some & ->).
    exists t, f. split; [by eapply list_elem_of_lookup_2 | done].
  - intros (t & f & Hin & Ht & ->).
    destruct (list_find (λ row, typeId row.1 = type) (routableTable repo))
      as [[i [t' f']]|] eqn:Hfind.
    + exists (i, (t', f')). split; [done|]. simpl.
      apply list_find_Some in Hfind as (Hi & Ht' & _). simpl in Ht'.
      assert (t' = t) as -> by (apply (inj typeId); congruence).
      f_equal. apply (routableTable_functional repo t); [done|].
      by eapply list_elem_of_lookup_2.
    + apply list_find_None in Hfind. rewrite Forall_forall in Hfind.
      by destruct (Hfind _ Hin).
Qed.

Lemma codecOf_typeId t f :
  (t, f) ∈ routableTable repo → codecOf repo (typeId t) = Some (codec f).
Proof using Type. intros. apply codecOf_Some. eauto. Qed.

Lemma codecOf_None type : codecOf repo type = None ↔ ∀ t, typeId t ≠ type.
Proof using Type.
  split.
  - intros Hnone t Ht. destruct (routableTable_complete repo t) as [f Hf].
    rewrite <-Ht, (codecOf_typeId t f) in Hnone by done. done.
  - intros Hne. destruct (codecOf repo type) as [c|] eqn:Hc; [|done].
    apply codecOf_Some in Hc as (t & _ & _ & Ht & _). by destruct (Hne t).
Qed.

(** The codec found for a type and a version in the constructed protocol:
    the codec of the table, at the versions [version6] covers. *)
Lemma getFactory_created v type :
  RoutableRepository.getFactory v type (_routableRepository p) =
    if matches version6 v then codecOf repo type else None.
Proof using Hcreate.
  pose proof (create_created _ _ _ Hcreate) as Hc.
  unfold RoutableRepository.getFactory, lookupSpec.
  destruct (codecOf repo type) as [c|] eqn:Hcodec.
  - apply codecOf_Some in Hcodec as (t & f & Hin & <- & ->).
    rewrite (created_codec _ _ _ Hc t f Hin). simpl.
    by destruct (matches version6 v).
  - rewrite codecOf_None in Hcodec. rewrite (created_other _ _ _ Hc) by done.
    by destruct (matches version6 v).
Qed.

Lemma encode_registered v r t f :
  (t, f) ∈ routableTable repo → getType r = typeId t →
  matches version6 v = true →
  encode v r p = Ok (putInt (typeId t) ++ encodeBody (codec f) r).
Proof using Hcreate.
  intros Hin Ht Hv. unfold encode, RoutableRepository.encode.
  by rewrite getFactory_created, Hv, Ht, (codecOf_typeId t f).
Qed.

(** ** Theorems *)

(** C17. The constructor cannot fail: the types of its table are pairwise
    distinct, so no registration meets an overlapping one. The protocol it
    returns holds the document type repository, and for every routable type
    exactly the codec of the table, registered under [version6]. *)
Theorem create_succeeds repo' configId' :
  ∃ p', create codec repo' configId' = Ok p' ∧ _repo p' = repo' ∧
    wf (_routableRepository p') ∧
    ∀ t, ∃ f, (t, f) ∈ routableTable repo' ∧
      registrations (typeId t) (_routableRepository p') = [(version6, codec f)].
Proof using Type.
  destruct (create_Ok repo' configId') as (p' & Hp' & Hc).
  exists p'. split_and!; [done | apply Hc | apply Hc |].
  intros t. destruct (routableTable_complete repo' t) as [f Hf].
  exists f. split; [done|]. by apply Hc.
Qed.

(** In the constructed protocol a routable of a registered type is
    encoded, at every version from 6.221 on within major 6, as the type
    identifier in four bytes followed by the body its codec produces. *)
Theorem encode_created v r t f :
  (t, f) ∈ routableTable repo → getType r = typeId t →
  matches version6 v = true →
  encode v r p = Ok (putInt (typeId t) ++ encodeBody (codec f) r) ∧
  length (putInt (typeId t)) = 4 ∧
  getInt (putInt (typeId t) ++ encodeBody (codec f) r) =
    Some (getType r, encodeBody (codec f) r).
Proof using Hcreate.
  intros Hin Ht Hv. split_and!; [by apply encode_registered | apply length_putInt |].
  rewrite Ht. apply getInt_putInt, typeId_range.
Qed.

(** C13. Round trip: what the constructed protocol encodes, it decodes to
    the same routable, provided the codec of the type inverts its own
    encoding. *)
Theorem decode_encode_created v r t f :
  (t, f) ∈ routableTable repo → getType r = typeId t →
  matches version6 v = true →
  decodeBody (codec f) (encodeBody (codec f) r) = Ok (Some r) →
  ∃ bs, encode v r p = Ok bs ∧ decode v bs p = Some r.
Proof using Hcreate.
  intros Hin Ht Hv Hrt. eexists. split; [by apply encode_registered|].
  unfold decode, RoutableRepository.decode.
  rewrite getInt_putInt by apply typeId_range.
  by rewrite getFactory_created, Hv, (codecOf_typeId t f), Hrt.
Qed.

(** C19. [encode] fails with the type and the version when the version is
    outside [version6] or the type is none of the registered ones. *)
Theorem encode_unsupported v r :
  matches version6 v = false ∨ (∀ t, typeId t ≠ getType r) →
  encode v r p = Err (UnsupportedTypeOrVersion (getType r) v).
Proof using Hcreate.
  intros Hcase. unfold encode, RoutableRepository.encode.
  rewrite getFactory_created.
  destruct Hcase as [-> | Hne]; [done|].
  apply codecOf_None in Hne as ->. by destruct (matches version6 v).
Qed.

(** C16. [decode] is a total function of the bytes: it is the body decoder
    of the codec that the header and the version select, with every failure
    (a short header, an unknown type, a version outside [version6], a
    rejection or an exception of the codec) turned into absent. *)
Theorem decode_created v data :
  decode v data p =
    match getInt data with
    | None => None
    | Some (type, body) =>
        if matches version6 v then
          match codecOf repo type with
          | Some c => match decodeBody c body with Ok r => r | Err _ => None end
          | None => None
          end
        else None
    end.
Proof using Hcreate.
  unfold decode, RoutableRepository.decode.
  destruct (getInt data) as [[type body]|]; [|done].
  rewrite getFactory_created.
  destruct (matches version6 v); [|done]. by destruct (codecOf repo type).
Qed.

(** C15. What the constructed protocol encodes is well formed: the version
    is one that [version6] covers, the routable has a registered type, and
    the blob is the identifier of that type in four bytes, which [getInt]
    reads back, followed by the body of the codec of that type; it is a
    byte string when the body is. *)
Theorem encode_well_formed v r bs :
  encode v r p = Ok bs →
  matches version6 v = true ∧
  ∃ t f, (t, f) ∈ routableTable repo ∧ getType r = typeId t ∧
    bs = putInt (typeId t) ++ encodeBody (codec f) r ∧
    getInt bs = Some (typeId t, encodeBody (codec f) r) ∧
    4 ≤ length bs ∧
    (bytes (encodeBody (codec f) r) → bytes bs).
Proof using Hcreate.
  unfold encode. intros (c & Hc & ->)%encode_Ok.
  rewrite getFactory_created in Hc.
  destruct (matches version6 v); [|done]. split; [done|].
  apply codecOf_Some in Hc as (t & f & Hin & Ht & ->).
  exists t, f. rewrite <-Ht.
  split_and!; [done | done | done | | |].
  - apply getInt_putInt, typeId_range.
  - rewrite length_app, length_putInt. lia.
  - intros Hbody. apply Forall_app. split; [apply bytes_putInt | done].
Qed.

(** C20. [getRoutableTypes] appends to the vector the identifiers of all
    thirty-six routable types, each once, at a version that [version6]
    covers, and nothing at any other version; the number it returns is the
    number of identifiers appended. *)
Theorem getRoutableTypes_created v out :
  (getRoutableTypes v out p).2 ≡ₚ
    out ++ (if matches version6 v then typeId <$> allRoutableTypes else []) ∧
  (getRoutableTypes v out p).1 = if matches version6 v then 36 else 0.
Proof using Hcreate.
  assert (supportedTypes v (_routableRepository p) ≡ₚ
    if matches version6 v then typeId <$> allRoutableTypes else []) as Hperm.
  { apply NoDup_Permutation; [apply NoDup_supportedTypes | |].
    - destruct (matches version6 v); [|constructor].
      apply (NoDup_fmap_2 typeId). exact (NoDup_enum RoutableType).
    - intros type. rewrite elem_of_supportedTypes, getFactory_created.
      destruct (matches version6 v); [|by rewrite elem_of_nil, is_Some_alt].
      rewrite list_elem_of_fmap, <-not_eq_None_Some, codecOf_None.
      split; [|intros (t & -> & _) Hne; by apply (Hne t)].
      intros Hex. destruct (decide (∃ t, typeId t = type)) as [[t <-]|Hno].
      + exists t. split; [done | exact (elem_of_enum t)].
      + destruct Hex. intros t Ht. apply Hno. eauto.
  }
  unfold getRoutableTypes, RoutableRepository.getRoutableTypes. simpl.
  split; [by rewrite Hperm|]. rewrite Hperm. by destruct (matches version6 v).
Qed.

(** C22. Every name of the constructor's table creates a policy through the
    factory registered under it, with the parameter as given; a parameter
    the factory refuses is a construction error that carries the name and
    the parameter. *)
Theorem createPolicy_created name pf param :
  (name, pf) ∈ policyTable repo (configString configId) →
  createPolicy createWith name param p =
    match createWith pf param with
    | Some policy => Ok policy
    | None => Err (PolicyConstructionError name param)
    end.
Proof using Hcreate.
  intros Hin. pose proof (create_created _ _ _ Hcreate) as Hc.
  unfold createPolicy, RoutingPolicyRepository.createPolicy.
  rewrite (created_policy _ _ _ Hc).
  by rewrite (getFactory_foldl_elem_of _ _ pf) by (apply NoDup_policyTable || done).
Qed.

(** A name that is not in the constructor's table is an unknown policy
    name. *)
Theorem createPolicy_unknown_name name param :
  name ∉ (policyTable repo (configString configId)).*1 →
  createPolicy createWith name param p = Err (UnknownPolicyName name).
Proof using Hcreate.
  intros Hin. pose proof (create_created _ _ _ Hcreate) as Hc.
  unfold createPolicy, RoutingPolicyRepository.createPolicy.
  by rewrite (created_policy _ _ _ Hc), getFactory_foldl_notin.
Qed.

(** C23. No second codec can be registered for a routable type under major
    version 6: the specification overlaps [version6] whatever its minor
    floor, and the registration fails with a configuration error. *)
Theorem putRoutableFactory_overlap t g n :
  putRoutableFactory (typeId t) g (mkVersionSpecification 6 n) p =
    Err (ConfigurationError (typeId t) (mkVersionSpecification 6 n)).
Proof using Hcreate.
  pose proof (create_created _ _ _ Hcreate) as Hc.
  destruct (routableTable_complete repo t) as [f Hf].
  apply putRoutableFactory_Err, putFactory_Err. split; [done|].
  exists (version6, codec f). rewrite (created_codec _ _ _ Hc t f Hf).
  split; [left | done].
Qed.

(** A codec registered for a routable type under another major version
    is accepted, and both codecs resolve: the constructor's at the versions
    [version6] covers, the new one at the versions its specification
    covers. *)
Theorem putRoutableFactory_other_major t f g spec v :
  (t, f) ∈ routableTable repo → specMajor spec ≠ 6 →
  ∃ p', putRoutableFactory (typeId t) g spec p = Ok p' ∧
    RoutableRepository.getFactory v (typeId t) (_routableRepository p') =
      if matches version6 v then Some (codec f)
      else if matches spec v then Some g else None.
Proof using Hcreate.
  intros Hf Hmajor. pose proof (create_created _ _ _ Hcreate) as Hc.
  destruct (RoutableRepository.putFactory spec (typeId t) g (_routableRepository p))
    as [rr|e] eqn:Hput.
  - eexists. split; [apply putRoutableFactory_Ok; eauto|]. simpl.
    rewrite (getFactory_putFactory _ _ _ _ _ _ _ Hput), getFactory_created.
    rewrite (codecOf_typeId t f) by done.
    destruct (matches version6 v) eqn:Hv6, (matches spec v) eqn:Hs;
      case_decide; try done; try naive_solver.
    apply matches_spec in Hv6 as [? _]. apply matches_spec in Hs as [? _].
    simpl in *. congruence.
  - apply putFactory_Err in Hput as (_ & q & Hq & Ho).
    rewrite (created_codec _ _ _ Hc t f Hf) in Hq.
    apply list_elem_of_singleton in Hq as ->. unfold overlaps in Ho. simpl in Ho.
    by apply bool_decide_eq_true in Ho.
Qed.

End constructed.

End registry.

(** ** Concrete runs *)

Section runs.
#[local] Existing Instance positionNumbering.

Lemma create_sampleProtocol : create echoCodec tt EmptyString = Ok sampleProtocol.
Proof. vm_compute. reflexivity. Qed.

Lemma encode_created_witness :
  encode (mkVersion 6 300) (mkRoutable 0 [1; 2; 3]%Z) sampleProtocol =
    Ok [0; 0; 0; 0; 1; 2; 3]%Z.
Proof.
  etrans; [apply (encode_created echoCodec tt EmptyString sampleProtocol
    create_sampleProtocol _ _ MESSAGE_CREATEVISITOR CreateVisitorMessageFactory)|].
  - left.
  - reflexivity.
  - reflexivity.
  - reflexivity.
Defined.

Lemma decode_encode_created_witness :
  ∃ bs, encode (mkVersion 6 221) (mkRoutable 0 [9]%Z) sampleProtocol = Ok bs ∧
        decode (mkVersion 6 221) bs sampleProtocol = Some (mkRoutable 0 [9]%Z).
Proof.
  apply (decode_encode_created echoCodec tt EmptyString sampleProtocol
    create_sampleProtocol _ _ MESSAGE_CREATEVISITOR CreateVisitorMessageFactory);
    [left | reflexivity..].
Defined.

Lemma encode_well_formed_witness :
  matches version6 (mkVersion 6 300) = true ∧
  ∃ t f, (t, f) ∈ routableTable tt ∧ getType (mkRoutable 0 [1; 2; 3]%Z) = typeId t ∧
    [0; 0; 0; 0; 1; 2; 3]%Z = putInt (typeId t) ++ encodeBody (echoCodec f) (mkRoutable 0 [1; 2; 3]%Z) ∧
    getInt [0; 0; 0; 0; 1; 2; 3]%Z =
      Some (typeId t, encodeBody (echoCodec f) (mkRoutable 0 [1; 2; 3]%Z)) ∧
    4 ≤ length [0; 0; 0; 0; 1; 2; 3]%Z ∧
    (bytes (encodeBody (echoCodec f) (mkRoutable 0 [1; 2; 3]%Z)) →
     bytes [0; 0; 0; 0; 1; 2; 3]%Z).
Proof.
  apply (encode_well_formed echoCodec tt EmptyString sampleProtocol
    create_sampleProtocol (mkVersion 6 300) (mkRoutable 0 [1; 2; 3]%Z)).
  reflexivity.
Defined.

Lemma encode_unsupported_witness :
  encode (mkVersion 5 400) (mkRoutable 0 []) sampleProtocol =
    Err (UnsupportedTypeOrVersion 0 (mkVersion 5 400)).
Proof.
  apply (encode_unsupported echoCodec tt EmptyString sampleProtocol
    create_sampleProtocol). by left.
Defined.

Lemma decode_created_witness :
  decode (mkVersion 6 221) [0; 0; 0; 0; 7]%Z sampleProtocol = Some (mkRoutable 0 [7]%Z) ∧
  decode (mkVersion 6 221) [0; 0; 7]%Z sampleProtocol = None ∧
  decode (mkVersion 6 221) [0; 0; 0; 99; 7]%Z sampleProtocol = None ∧
  decode (mkVersion 7 0) [0; 0; 0; 0; 7]%Z sampleProtocol = None.
Proof.
  split_and!;
    (etrans; [apply (decode_created echoCodec tt EmptyString sampleProtocol
                create_sampleProtocol) | vm_compute; reflexivity]).
Defined.

Lemma getRoutableTypes_created_witness :
  (getRoutableTypes (mkVersion 6 221) [] sampleProtocol).1 = 36 ∧
  (getRoutableTypes (mkVersion 6 220) [] sampleProtocol).1 = 0.
Proof.
  split.
  - apply (getRoutableTypes_created echoCodec tt EmptyString sampleProtocol
      create_sampleProtocol (mkVersion 6 221) []).
  - apply (getRoutableTypes_created echoCodec tt EmptyString sampleProtocol
      create_sampleProtocol (mkVersion 6 220) []).
Defined.

Lemma createPolicy_created_witness :
  createPolicy echoPolicy "DocumentRouteSelector" "raw:route" sampleProtocol =
    Ok "raw:route" ∧
  createPolicy echoPolicy "DocumentRouteSelector" EmptyString sampleProtocol =
    Err (PolicyConstructionError "DocumentRouteSelector" EmptyString).
Proof.
  split;
    apply (createPolicy_created echoCodec echoPolicy tt EmptyString sampleProtocol
      create_sampleProtocol "DocumentRouteSelector"
      (DocumentRouteSelectorPolicyFactory tt "client"));
    vm_compute; do 3 right; left.
Defined.

Lemma createPolicy_unknown_name_witness :
  createPolicy echoPolicy "Random" "x" sampleProtocol = Err (UnknownPolicyName "Random").
Proof.
  apply (createPolicy_unknown_name echoCodec echoPolicy tt EmptyString sampleProtocol
    create_sampleProtocol). by_compute.
Defined.

Lemma putRoutableFactory_overlap_witness :
  putRoutableFactory 3 (echoCodec (D := unit) CreateVisitorMessageFactory)
    (mkVersionSpecification 6 500) sampleProtocol =
    Err (ConfigurationError 3 (mkVersionSpecification 6 500)).
Proof.
  apply (putRoutableFactory_overlap echoCodec tt EmptyString sampleProtocol
    create_sampleProtocol MESSAGE_DOCUMENTSUMMARY).
Defined.

Lemma putRoutableFactory_other_major_witness :
  ∃ p', putRoutableFactory 0 (raisingCodec (D := unit) CreateVisitorMessageFactory)
          (mkVersionSpecification 7 0) sampleProtocol = Ok p' ∧
    RoutableRepository.getFactory (mkVersion 7 3) 0 (_routableRepository p') =
      Some (raisingCodec (D := unit) CreateVisitorMessageFactory).
Proof.
  apply (putRoutableFactory_other_major echoCodec tt EmptyString sampleProtocol
    create_sampleProtocol MESSAGE_CREATEVISITOR CreateVisitorMessageFactory
    (raisingCodec (D := unit) CreateVisitorMessageFactory) (mkVersionSpecification 7 0)
    (mkVersion 7 3)); [left | simpl; lia].
Defined.

End runs.
