(* ===== verification/ProtocolFlow.v ===== *)
(** * The operations of the facade together

    The operations of [DocumentProtocol] are used in one flow: a peer is
    told the routable types the protocol supports at its version
    ([getRoutableTypes]), routables are encoded for it and decoded from it,
    and the reply that [merge] leaves in a routing context is encoded when
    it crosses a node boundary. This file connects the operations.

    - What [getRoutableTypes] reports is what [encode] accepts and all that
      [decode] answers with: the three resolve the codec of a type and a
      version in the same registry. This holds of every protocol, not only
      of the constructed one.
    - For the constructed protocol, the reply of a context after [merge]
      crosses the wire when the replies of the children do: a forwarded
      reply is the reply of a child, so what holds of every child's reply
      holds of it. A generated reply is not the reply of a child; its
      routable is that of the empty reply. *)

From S2P Require Import Prelude Messagebus Version RoutableRepo PolicyRepo Merger Protocol.
From S2P Require Import ProtocolMerge ProtocolRegistry.

Import RoutableRepository RoutingPolicyRepository ReplyMerger DocumentProtocol.

Section flow.
Context {DocumentTypeRepo : Type} `{numbering : Numbering}.
Context (codec : @RoutableFactories60 DocumentTypeRepo → IRoutableFactory).
Implicit Types (p : @DocumentProtocol DocumentTypeRepo) (v : Version)
  (r : Routable) (data : list Z) (ctx : RoutingContext) (mask : gset nat).

(** The types [getRoutableTypes] reports for the version [v]. *)
Definition supported v p : list Z := (getRoutableTypes v [] p).2.

(** The routable [r] crosses the wire at the version [v]: [encode] accepts
    it, and [decode] reads the bytes back as [r]. *)
Definition crossesWire v r p : Prop :=
  ∃ bs, encode v r p = Ok bs ∧ decode v bs p = Some r.

(** ** Lemmas *)

Lemma elem_of_supported v p type :
  type ∈ supported v p ↔
  is_Some (RoutableRepository.getFactory v type (_routableRepository p)).
Proof. apply elem_of_supportedTypes. Qed.

Lemma decode_Some v data p r :
  decode v data p = Some r →
  ∃ type body c, getInt data = Some (type, body) ∧
    RoutableRepository.getFactory v type (_routableRepository p) = Some c ∧
    decodeBody c body = Ok (Some r).
Proof.
  unfold decode, RoutableRepository.decode.
  destruct (getInt data) as [[type body]|]; [|done].
  destruct (RoutableRepository.getFactory _ _ _) as [c|] eqn:Hc; [|done].
  destruct (decodeBody c body) as [[r'|]|] eqn:Hbody; simpl; [|done..].
  intros [= <-]. by exists type, body, c.
Qed.

(** ** Theorems *)

(** C21. Capability negotiation is exact: the protocol encodes a routable at a
    version exactly when it reports the type of the routable for that
    version, and it decodes bytes to a routable only when it reports the
    type their header names. *)
Theorem getRoutableTypes_exact v p :
  (∀ r, getType r ∈ supported v p ↔ is_Ok (encode v r p)) ∧
  (∀ data r, decode v data p = Some r →
     ∃ type body, getInt data = Some (type, body) ∧ type ∈ supported v p).
Proof.
  split.
  - intros r. rewrite elem_of_supported, is_Ok_alt. unfold encode.
    setoid_rewrite encode_Ok. unfold is_Some. naive_solver.
  - intros data r (type & body & c & Hint & Hc & _)%decode_Some.
    exists type, body. split; [done|]. apply elem_of_supported. eauto.
Qed.

Section constructed.
Context `{merger : ReplyMerger M}.
Context (repo : DocumentTypeRepo) (configId : string)
  (p : @DocumentProtocol DocumentTypeRepo).
Context (Hcreate : create codec repo configId = Ok p).

(** A routable of a registered type whose codec inverts its own encoding
    crosses the wire at every version [version6] covers. *)
Lemma crossesWire_registered v r t f :
  (t, f) ∈ routableTable repo → getType r = typeId t →
  matches version6 v = true →
  decodeBody (codec f) (encodeBody (codec f) r) = Ok (Some r) →
  crossesWire v r p.
Proof using Hcreate.
  intros Hin Ht Hv Hrt. eexists.
  split; [by apply (encode_registered codec repo configId)|].
  unfold decode, RoutableRepository.decode.
  rewrite getInt_putInt by apply typeId_range.
  by rewrite (getFactory_created codec repo configId), Hv, (codecOf_typeId codec repo t f), Hrt.
Qed.

(** The routable of the empty reply has type 0; the protocol encodes it
    only when a routable type is numbered 0. *)
Lemma encode_EmptyReply v :
  (∀ t, typeId t ≠ 0%Z) →
  encode v (asRoutable EmptyReply) p = Err (UnsupportedTypeOrVersion 0 v).
Proof using Hcreate.
  intros Hne. unfold encode. apply encode_Err. split; [|done].
  rewrite (getFactory_created codec repo configId) by done.
  change (getType (asRoutable EmptyReply)) with 0%Z.
  apply (codecOf_None codec repo) in Hne as ->. by destruct (matches version6 v).
Qed.

(** C14. The reply of the context after [merge] and the wire. When every reply
    of a non-masked child has a registered type whose codec inverts its own
    encoding, the reply [merge] leaves in the context is either the reply
    of a non-masked child, without errors, and crosses the wire at every
    version [version6] covers; or every non-masked child failed and the
    reply is the generated one, which has the routable of the empty reply:
    the protocol refuses to encode it unless a routable type is numbered
    0. *)
Theorem merged_reply_crosses_wire ctx mask ctx' v :
  merge ctx mask = Ok ctx' →
  matches version6 v = true →
  (∀ i reply, i ∉ mask → children ctx !! i = Some (Some reply) →
     ∃ t f, (t, f) ∈ routableTable repo ∧ getType (asRoutable reply) = typeId t ∧
       decodeBody (codec f) (encodeBody (codec f) (asRoutable reply)) =
         Ok (Some (asRoutable reply))) →
  ∃ reply, getReply ctx' = Some reply ∧
    ((∃ i, children ctx !! i = Some (Some reply) ∧ i ∉ mask ∧ errors reply = [] ∧
        crossesWire v (asRoutable reply) p) ∨
     ((∀ i reply', i ∉ mask → children ctx !! i = Some (Some reply') →
         errors reply' ≠ []) ∧
      ((∀ t, typeId t ≠ 0%Z) →
         encode v (asRoutable reply) p = Err (UnsupportedTypeOrVersion 0 v)))).
Proof using Hcreate.
  intros (Ha & [(i & r & Hi & Hm & Hok & _ & ->) | (_ & Hfail & ->)])%merge_Ok_inv
    Hv Hwire; eexists; (split; [done|]).
  - left. exists i. split_and!; [done..|].
    destruct (Hwire i r Hm Hi) as (t & f & ? & ? & ?).
    by eapply crossesWire_registered.
  - right. split; [|apply encode_EmptyReply].
    intros i reply' Hm Hi. apply (Hfail (i, reply')). by apply elem_of_unmasked_0.
Qed.

End constructed.

End flow.

(** ** Concrete runs *)

Section runs.
#[local] Existing Instance positionNumbering.
#[local] Existing Instance reference.

(** The sample protocol, whose codec carries the body as it is: of the
    two replies of type 0, the second has no error; it is forwarded and
    crosses the wire. *)
Lemma merged_reply_crosses_wire_witness :
  ∃ reply,
    getReply (mkContext [Some (replyWith 0 [5%Z]); None]
                (Some (mkReply (mkRoutable 0 [7%Z]) []))) = Some reply ∧
    (crossesWire (mkVersion 6 300) (asRoutable reply) sampleProtocol ∨
     errors reply ≠ []).
Proof.
  destruct (merged_reply_crosses_wire echoCodec tt EmptyString sampleProtocol
    create_sampleProtocol
    (mkContext [Some (replyWith 0 [5%Z]); Some (mkReply (mkRoutable 0 [7%Z]) [])] None) ∅
    (mkContext [Some (replyWith 0 [5%Z]); None] (Some (mkReply (mkRoutable 0 [7%Z]) [])))
    (mkVersion 6 300)) as (reply & Hreply & Hcase); [by vm_compute | done | |].
  - intros i reply _ Hi.
    exists MESSAGE_CREATEVISITOR, CreateVisitorMessageFactory.
    split; [left|]. destruct i as [|[|i]]; by simplify_eq/=.
  - exists reply. split; [done|].
    destruct Hcase as [(i & _ & _ & _ & Hwire) | [Hfail _]]; [by left | right].
    simpl in Hreply. injection Hreply as <-.
    by destruct (Hfail 1 (mkReply (mkRoutable 0 [7%Z]) []) ltac:(set_solver) eq_refl).
Defined.

End runs.
