(* ===== verification/ProtocolLog.v ===== *)
(** * What the document protocol logs

    [documentprotocol.cpp] has two log statements besides its [LOG_SETUP]:
    [encode] dumps the blob in hexadecimal when the logger wants spam, and
    [decode] logs the message of the exception it catches as a warning.
    [encode_log] and [decode_log] are the events a call issues; the results
    of the calls are [DocumentProtocol.encode] and [DocumentProtocol.decode].

    What the statements read of their arguments is outside the sources:
    [getProtocol] is the protocol name of a routable, [toString] the text of
    a version, [printAsHex] the hexadecimal dump of a blob; [wants] tells
    which levels the logger wants. *)

From stdpp Require Import pretty.
From S2P Require Import Prelude Logging Messagebus Version RoutableRepo PolicyRepo.
From S2P Require Import Protocol ProtocolRegistry.

Import RoutableRepository DocumentProtocol.

Module ProtocolLog.

(** A dump that prints each byte in decimal, for the concrete runs. *)
Definition decimalDump (blob : list Z) : string :=
  foldr (λ b s, pretty b +:+ " " +:+ s) EmptyString blob.

Section logging.
Context {DocumentTypeRepo : Type}.
Context (wants : Log.LogLevel → bool).
Context (getProtocol : Routable → string) (toString : Version → string)
  (printAsHex : list Z → string).
Implicit Types (p : @DocumentProtocol DocumentTypeRepo) (version : Version)
  (routable : Routable) (data : list Z).

(** The component [LOG_SETUP] names. *)
Definition LOG_SETUP : string := ".documentprotocol".

(** The log statement of [encode]: it is reached when the registry has
    returned the blob. *)
Definition encode_log version routable p : list Log.LogEvent :=
  match encode version routable p with
  | Ok blob =>
      if wants Log.spam then
        let message := printAsHex blob in
        Log.LOG wants LOG_SETUP Log.spam
          ("Encoded message of protocol %s type %u using version %s serialization:"
           +:+ Log.LF +:+ "%s")
          [ Log.ArgString (getProtocol routable);
            Log.ArgUnsignedInt (getType routable);
            Log.ArgString (toString version);
            Log.ArgString message ]
      else []
  | Err _ => []
  end.

(** The log statement of [decode], in the handler of the exception. *)
Definition decode_log version data p : list Log.LogEvent :=
  match RoutableRepository.decode version data (_routableRepository p) with
  | Ok _ => []
  | Err what => Log.LOG wants LOG_SETUP Log.warning "%s" [Log.ArgString what]
  end.

(** The text of the spam event of [encode]. *)
Definition encodedLine version routable (blob : list Z) : string :=
  "Encoded message of protocol " +:+ getProtocol routable +:+
  " type " +:+ pretty (getType routable) +:+
  " using version " +:+ toString version +:+
  " serialization:" +:+ Log.LF +:+ printAsHex blob.

(** ** Lemmas *)

Lemma encode_log_message version routable p blob ev :
  in_unsigned 32 (getType routable) →
  encode version routable p = Ok blob → ev ∈ encode_log version routable p →
  Log.level ev = Log.spam ∧
  Log.message ev = Some (encodedLine version routable blob).
Proof.
  intros Htype Henc. unfold encode_log. rewrite Henc.
  destruct (wants Log.spam); [|by intros ?%elem_of_nil].
  intros [_ ->]%Log.elem_of_LOG. split; [done|].
  unfold Log.message, Log.printf, encodedLine. Log.parse_format.
  cbn -[pretty wrap]. by rewrite wrap_small, Log.append_empty_r.
Qed.

Lemma decode_log_message version data p ev :
  ev ∈ decode_log version data p →
  Log.level ev = Log.warning ∧
  ∃ what, RoutableRepository.decode version data (_routableRepository p) = Err what ∧
    Log.message ev = Some what.
Proof.
  unfold decode_log. destruct (RoutableRepository.decode _ _ _) as [r|what];
    [by intros ?%elem_of_nil|].
  intros [_ ->]%Log.elem_of_LOG. split; [done|]. exists what. split; [done|].
  unfold Log.message, Log.printf. cbn. by rewrite Log.append_empty_r.
Qed.

(** ** Theorems *)

(** The log statements of the facade are well typed: the arguments of each
    have the types the conversions of its format expect, so each event has
    a text, whatever the routable, the version and the bytes. *)
Theorem facade_logs_well_typed version routable data p ev :
  ev ∈ encode_log version routable p ++ decode_log version data p →
  Log.well_typed (Log.format ev) (Log.args ev).
Proof.
  intros [Hev|Hev]%elem_of_app; apply Log.printf_is_Some; fold (Log.message ev).
  - unfold encode_log in Hev. destruct (encode version routable p); [|by apply elem_of_nil in Hev].
    destruct (wants Log.spam); [|by apply elem_of_nil in Hev].
    apply Log.elem_of_LOG in Hev as [_ ->]. unfold Log.message, Log.printf.
    Log.parse_format. by cbn -[pretty wrap].
  - by apply decode_log_message in Hev as (_ & what & _ & ->).
Qed.

(** [encode] issues the hexadecimal dump of the blob it returns, once, when
    the logger wants spam and the registry did not raise; otherwise it logs
    nothing. *)
Theorem encode_logged version routable p :
  in_unsigned 32 (getType routable) →
  match encode version routable p with
  | Ok blob =>
      if wants Log.spam then
        ∃ ev, encode_log version routable p = [ev] ∧ Log.level ev = Log.spam ∧
          Log.message ev = Some (encodedLine version routable blob)
      else encode_log version routable p = []
  | Err _ => encode_log version routable p = []
  end.
Proof.
  intros Htype. destruct (encode version routable p) as [blob|e] eqn:Henc;
    [|by unfold encode_log; rewrite Henc].
  pose proof (encode_log_message version routable p blob) as Hmsg.
  unfold encode_log, Log.LOG in *. rewrite Henc in *.
  destruct (wants Log.spam); [|done].
  eexists. split; [done|]. apply Hmsg; [done.. | left].
Qed.

Section constructed.
Context {IRoutingPolicy : Type} `{numbering : Numbering}.
Context (codec : @RoutableFactories60 DocumentTypeRepo → IRoutableFactory).
Context (repo : DocumentTypeRepo) (configId : string)
  (p : @DocumentProtocol DocumentTypeRepo).
Context (Hcreate : create codec repo configId = Ok p).

(** C18. The constructed protocol warns exactly when the codec that the header
    and the version select raises, with the message of the exception; a
    short header, an unknown type, a version outside [version6] and a codec
    that answers absent all give absent without a word. In either case
    [decode] answers absent when it warns. *)
Theorem decode_logged version data :
  wants Log.warning = true →
  match getInt data with
  | Some (type, body) =>
      match (if matches version6 version then codecOf codec repo type else None) with
      | Some c =>
          match decodeBody c body with
          | Err what =>
              decode version data p = None ∧
              ∃ ev, decode_log version data p = [ev] ∧
                Log.level ev = Log.warning ∧ Log.message ev = Some what
          | Ok r => decode version data p = r ∧ decode_log version data p = []
          end
      | None => decode version data p = None ∧ decode_log version data p = []
      end
  | None => decode version data p = None ∧ decode_log version data p = []
  end.
Proof using Hcreate.
  intros Hwants.
  pose proof (decode_log_message version data p) as Hmsg.
  unfold decode, decode_log, RoutableRepository.decode, Log.LOG in *.
  rewrite Hwants in *.
  destruct (getInt data) as [[type body]|]; [|done].
  rewrite (getFactory_created codec repo configId p Hcreate) in *.
  destruct (if matches version6 version then _ else _) as [c|]; [|done].
  destruct (decodeBody c body) as [r|what]; [done|]. split; [done|].
  eexists. split; [done|].
  destruct (Hmsg _ ltac:(left)) as (? & what' & [= <-] & ?). done.
Qed.

End constructed.

End logging.

(** ** Concrete runs *)

Section runs.
#[local] Existing Instance positionNumbering.

Lemma encode_logged_witness :
  Log.message <$>
    encode_log (λ _, true) (λ _, "document") (λ _, "6.300") decimalDump
      (mkVersion 6 300) (mkRoutable 0 [1; 2; 3]%Z) sampleProtocol =
  [Some ("Encoded message of protocol document type 0 using version 6.300 serialization:"
         +:+ Log.LF +:+ "0 0 0 0 1 2 3 ")].
Proof.
  pose proof (encode_logged (λ _, true) (λ _, "document") (λ _, "6.300") decimalDump
    (mkVersion 6 300) (mkRoutable 0 [1; 2; 3]%Z) sampleProtocol) as Hlog.
  assert (encode (mkVersion 6 300) (mkRoutable 0 [1; 2; 3]%Z) sampleProtocol =
    Ok [0; 0; 0; 0; 1; 2; 3]%Z) as Henc by (vm_compute; reflexivity).
  rewrite Henc in Hlog. destruct Hlog as (ev & -> & _ & Hev); [by_compute|].
  simpl. rewrite Hev. vm_compute. reflexivity.
Defined.

(** A codec that raises: the warning carries its message. *)
Lemma decode_logged_witness :
  ∃ p, create (numbering := positionNumbering) raisingCodec tt EmptyString = Ok p ∧
    decode (mkVersion 6 221) [0; 0; 0; 0; 7]%Z p = None ∧
    Log.message <$> decode_log (λ _, true) (mkVersion 6 221) [0; 0; 0; 0; 7]%Z p =
      [Some "unparseable"].
Proof.
  destruct (create (numbering := positionNumbering) raisingCodec tt EmptyString)
    as [p|] eqn:Hp; [|by vm_compute in Hp].
  exists p. split; [done|].
  pose proof (decode_logged (λ _, true) raisingCodec tt EmptyString p Hp
    (mkVersion 6 221) [0; 0; 0; 0; 7]%Z eq_refl) as Hlog.
  vm_compute getInt in Hlog. cbn [matches] in Hlog.
  change (codecOf raisingCodec tt 0) with
    (Some (raisingCodec (D := unit) CreateVisitorMessageFactory)) in Hlog.
  destruct Hlog as (-> & ev & -> & _ & Hev). split; [done|].
  simpl. by rewrite Hev.
Defined.

End runs.

End ProtocolLog.
