(* ===== verification/ProtocolEquiv.v ===== *)
(** * Protocols that behave alike

    The constructor of [DocumentProtocol] is a sequence of registrations.
    Two protocols are equivalent when they hold the same document type
    repository and their registries resolve alike: every name to the same
    policy factory, every type and version to the same codec. The
    operations of the facade respect the equivalence ([Proper] instances),
    and the protocol built from the constructor's tables in any order is
    equivalent to the constructed one. *)

From S2P Require Import Prelude Messagebus Version RoutableRepo PolicyRepo.
From S2P Require Import Merger Protocol ProtocolRegistry.

Import RoutableRepository RoutingPolicyRepository DocumentProtocol.

Section equivalence.
Context {DocumentTypeRepo IRoutingPolicy : Type} `{numbering : Numbering}.
Context (codec : @RoutableFactories60 DocumentTypeRepo → IRoutableFactory).
Context (createWith :
  @RoutingPolicyFactories DocumentTypeRepo → string → option IRoutingPolicy).
Implicit Types (p : @DocumentProtocol DocumentTypeRepo) (repo : DocumentTypeRepo)
  (v : Version) (type : Z) (r : Routable).

#[global] Instance protocol_equiv : Equiv (@DocumentProtocol DocumentTypeRepo) :=
  λ p1 p2,
    _repo p1 = _repo p2 ∧
    _routableRepository p1 ≡ _routableRepository p2 ∧
    ∀ name,
      RoutingPolicyRepository.getFactory name (_routingPolicyRepository p1) =
      RoutingPolicyRepository.getFactory name (_routingPolicyRepository p2).

(** The protocol before any registration. *)
Definition blank repo : @DocumentProtocol DocumentTypeRepo :=
  mkDocumentProtocol RoutingPolicyRepository.empty RoutableRepository.empty repo.

(** The constructor, run on tables of its caller's choice. *)
Definition createFrom (policies : list (string * RoutingPolicyFactories))
    (rows : list (RoutableType * RoutableFactories60)) repo :
    result RepoError DocumentProtocol :=
  putRoutableTable codec rows
    (foldl (λ p row, putRoutingPolicyFactory row.1 row.2 p) (blank repo) policies).

(** ** The operations respect the equivalence *)

#[global] Instance protocol_equivalence :
  Equivalence (≡@{@DocumentProtocol DocumentTypeRepo}).
Proof.
  split.
  - by intros p.
  - intros p1 p2 (? & ? & ?). by split_and!.
  - intros p1 p2 p3 (? & ? & H12) (? & ? & H23).
    split_and!; [congruence | by etrans |]. intros name. by rewrite H12.
Qed.

#[global] Instance protocol_encode_proper v r :
  Proper ((≡) ==> (=)) (DocumentProtocol.encode v r).
Proof. intros p1 p2 (_ & H & _). unfold DocumentProtocol.encode. by rewrite H. Qed.

#[global] Instance protocol_decode_proper v data :
  Proper ((≡) ==> (=)) (DocumentProtocol.decode v data).
Proof. intros p1 p2 (_ & H & _). unfold DocumentProtocol.decode. by rewrite H. Qed.

#[global] Instance protocol_getRoutableTypes_proper v out :
  Proper ((≡) ==> prod_relation (=) (≡ₚ)) (DocumentProtocol.getRoutableTypes v out).
Proof.
  intros p1 p2 (_ & H & _). unfold DocumentProtocol.getRoutableTypes. by rewrite H.
Qed.

#[global] Instance protocol_createPolicy_proper name param :
  Proper ((≡) ==> (=)) (DocumentProtocol.createPolicy createWith name param).
Proof.
  intros p1 p2 (_ & _ & H).
  unfold DocumentProtocol.createPolicy, RoutingPolicyRepository.createPolicy.
  by rewrite H.
Qed.

#[global] Instance putRoutingPolicyFactory_proper name factory :
  Proper ((≡) ==> (≡)) (putRoutingPolicyFactory name factory).
Proof.
  intros p1 p2 (? & ? & H). split_and!; [done..|]. intros name'. simpl.
  rewrite !policy_getFactory_putFactory. by case_decide.
Qed.

#[global] Instance putRoutableFactory_proper type (factory : IRoutableFactory) spec :
  Proper ((≡) ==> (≡)) (putRoutableFactory type factory spec).
Proof.
  intros p1 p2 (Hrepo & H & Hpol). unfold putRoutableFactory.
  destruct (putFactory_proper spec type factory _ _ H) as [rr1 rr2 Hrr|e];
    constructor. by split_and!.
Qed.

(** ** The order of the constructor's registrations *)

Lemma createFrom_tables repo configId :
  create codec repo configId =
  createFrom (policyTable repo (configString configId)) (routableTable repo) repo.
Proof. done. Qed.

(** The registrations of a protocol built from a permutation of the codec
    table. *)
Lemma createFrom_registrations policies rows repo :
  rows ≡ₚ routableTable repo →
  ∃ p', createFrom policies rows repo = Ok p' ∧ _repo p' = repo ∧
    (∀ name,
       RoutingPolicyRepository.getFactory name (_routingPolicyRepository p') =
       RoutingPolicyRepository.getFactory name
         (foldl (λ acc row, RoutingPolicyRepository.putFactory row.1 row.2 acc)
            RoutingPolicyRepository.empty policies)) ∧
    ∀ type, registrations type (_routableRepository p') =
      from_option (λ c, [(version6, c)]) [] (codecOf codec repo type).
Proof.
  intros Hrows. unfold createFrom.
  remember (foldl _ (blank repo) policies) as p0 eqn:Hp0.
  apply putRoutingPolicyFactory_foldl in Hp0 as (Hr0 & Hrepo0 & Hpol0).
  destruct (putRoutableTable_fresh codec rows p0)
    as (p' & Htab & Hpol & Hrepo & _ & Hin & Hout).
  { rewrite Hrows. apply NoDup_routableTable. }
  { intros t _. rewrite Hr0. apply registrations_empty. }
  exists p'. split_and!; [done | by rewrite Hrepo, Hrepo0 | |].
  - intros name. by rewrite Hpol, Hpol0.
  - intros type. destruct (codecOf codec repo type) as [c|] eqn:Hc; simpl.
    + apply codecOf_Some in Hc as (t & f & Hf & <- & ->).
      apply Hin. by rewrite Hrows.
    + rewrite codecOf_None in Hc.
      rewrite Hout by (intros t _; apply Hc). rewrite Hr0. apply registrations_empty.
Qed.

(** C26. The order of the registrations of the constructor has no effect:
    built from its two tables in any order, the protocol is equivalent to
    the constructed one, and so encodes, decodes and creates policies
    alike. *)
Theorem create_order_irrelevant policies rows repo configId p :
  create codec repo configId = Ok p →
  policies ≡ₚ policyTable repo (configString configId) →
  rows ≡ₚ routableTable repo →
  ∃ p', createFrom policies rows repo = Ok p' ∧ p' ≡ p ∧
    ∀ v r data name param,
      DocumentProtocol.encode v r p' = DocumentProtocol.encode v r p ∧
      DocumentProtocol.decode v data p' = DocumentProtocol.decode v data p ∧
      DocumentProtocol.createPolicy createWith name param p' =
        DocumentProtocol.createPolicy createWith name param p.
Proof.
  intros Hp Hpolicies Hrows. rewrite createFrom_tables in Hp.
  destruct (createFrom_registrations policies rows repo Hrows)
    as (p' & Hp' & Hrepo' & Hpol' & Hregs').
  destruct (createFrom_registrations (policyTable repo (configString configId))
    (routableTable repo) repo) as (p1 & Hp1 & Hrepo & Hpol & Hregs); [done|].
  assert (p1 = p) as -> by congruence.
  assert (p' ≡ p) as Heq.
  { split_and!; [congruence | |].
    - intros v type. unfold RoutableRepository.getFactory. by rewrite Hregs', Hregs.
    - intros name. rewrite Hpol', Hpol. symmetry.
      apply getFactory_foldl_Permutation; [apply NoDup_policyTable | done]. }
  exists p'. split_and!; [done.. |]. intros. by rewrite Heq.
Qed.

End equivalence.

(** ** Concrete runs *)

Section runs.
#[local] Existing Instance positionNumbering.

(** Both tables reversed: the protocol resolves as the constructed one. *)
Lemma create_order_irrelevant_witness :
  ∃ p', createFrom (echoCodec (D := unit)) (reverse (policyTable tt "client"))
          (reverse (routableTable tt)) tt = Ok p' ∧
        p' ≡ sampleProtocol.
Proof.
  destruct (create_order_irrelevant (IRoutingPolicy := string) echoCodec echoPolicy
    (reverse (policyTable tt "client")) (reverse (routableTable tt)) tt EmptyString
    sampleProtocol) as (p' & ? & ? & _);
    [apply create_sampleProtocol | apply reverse_Permutation.. | eauto].
Defined.

End runs.
