(* ===== verification/ProtocolErrors.v ===== *)
(** * Error names, error kinds and the constructor's tables

    Theorems on [DocumentProtocol.getErrorName], on
    [DocumentProtocol.hasOnlyErrorsOfType] and its loop, on the reply that
    [merge] installs when every child failed with one code, and on the
    order of the policy table of the constructor. *)

From S2P Require Import Prelude Messagebus PolicyRepo Merger Protocol ProtocolMerge.

Import RoutingPolicyRepository ReplyMerger DocumentProtocol.

(** ** Error names *)

Section names.
Context `{numbering : Numbering}.
Implicit Types (e : DocError) (code : Z) (name : string) (getName : Z → string).

Lemma NoDup_errorCases : NoDup errorCases.*1.
Proof. by_compute. Qed.

Lemma NoDup_errorNames : NoDup errorCases.*2.
Proof. by_compute. Qed.

Lemma errorCases_complete e : ∃ name, (e, name) ∈ errorCases.
Proof.
  pose proof (elem_of_enum e) as He.
  change (enum DocError) with (errorCases.*1) in He.
  apply list_elem_of_fmap in He as ([e' name] & -> & ?). eauto.
Qed.

(** The case the switch takes for [code]. *)
Lemma getErrorName_case code i e name :
  list_find (λ case, errorCode case.1 = code) errorCases = Some (i, (e, name)) →
  (e, name) ∈ errorCases ∧ errorCode e = code.
Proof.
  intros (Hi & He & _)%list_find_Some. split; [by eapply list_elem_of_lookup_2 | done].
Qed.

(** The switch finds the name of an error code of the protocol. *)
Lemma getErrorName_errorCode getName e name :
  (e, name) ∈ errorCases → getErrorName getName (errorCode e) = name.
Proof.
  intros Hin. unfold getErrorName.
  destruct (list_find _ errorCases) as [[i [e' name']]|] eqn:Hfind.
  - apply getErrorName_case in Hfind as [Hin' ->%(inj errorCode)].
    by apply (NoDup_fst_functional errorCases e); [apply NoDup_errorCases|..].
  - apply list_find_None in Hfind. rewrite Forall_forall in Hfind.
    by destruct (Hfind _ Hin).
Qed.

(** A code that is none of the protocol's error codes is named by the
    message bus. *)
Lemma getErrorName_unknown getName code :
  (∀ e, errorCode e ≠ code) → getErrorName getName code = getName code.
Proof.
  intros Hne. unfold getErrorName.
  destruct (list_find _ errorCases) as [[i [e name]]|] eqn:Hfind; [|done].
  apply getErrorName_case in Hfind as [_ He]. by destruct (Hne e).
Qed.

(** C24. [getErrorName] on every code, under every numbering of the error
    codes. The code of each of the twenty-six errors of the protocol has
    the name written here, which is the name of the enumerator without its
    prefix, whatever the message bus would call the code; every other code
    has the name the message bus gives it. *)
Theorem getErrorName_spec getName code :
  (∀ e, getErrorName getName (errorCode e) =
     match e with
     | ERROR_MESSAGE_IGNORED => "MESSAGE_IGNORED"
     | ERROR_POLICY_FAILURE => "POLICY_FAILURE"
     | ERROR_DOCUMENT_NOT_FOUND => "DOCUMENT_NOT_FOUND"
     | ERROR_EXISTS => "EXISTS"
     | ERROR_BUCKET_NOT_FOUND => "BUCKET_NOT_FOUND"
     | ERROR_BUCKET_DELETED => "BUCKET_DELETED"
     | ERROR_NOT_IMPLEMENTED => "NOT_IMPLEMENTED"
     | ERROR_ILLEGAL_PARAMETERS => "ILLEGAL_PARAMETERS"
     | ERROR_IGNORED => "IGNORED"
     | ERROR_UNKNOWN_COMMAND => "UNKNOWN_COMMAND"
     | ERROR_UNPARSEABLE => "UNPARSEABLE"
     | ERROR_NO_SPACE => "NO_SPACE"
     | ERROR_INTERNAL_FAILURE => "INTERNAL_FAILURE"
     | ERROR_PROCESSING_FAILURE => "PROCESSING_FAILURE"
     | ERROR_TIMESTAMP_EXIST => "TIMESTAMP_EXIST"
     | ERROR_STALE_TIMESTAMP => "STALE_TIMESTAMP"
     | ERROR_NODE_NOT_READY => "NODE_NOT_READY"
     | ERROR_WRONG_DISTRIBUTION => "WRONG_DISTRIBUTION"
     | ERROR_REJECTED => "REJECTED"
     | ERROR_ABORTED => "ABORTED"
     | ERROR_BUSY => "BUSY"
     | ERROR_NOT_CONNECTED => "NOT_CONNECTED"
     | ERROR_DISK_FAILURE => "DISK_FAILURE"
     | ERROR_IO_FAILURE => "IO_FAILURE"
     | ERROR_SUSPENDED => "SUSPENDED"
     | ERROR_TEST_AND_SET_CONDITION_FAILED => "TEST_AND_SET_CONDITION_FAILED"
     end) ∧
  ((∀ e, errorCode e ≠ code) → getErrorName getName code = getName code).
Proof.
  split; [|apply getErrorName_unknown].
  intros e. apply getErrorName_errorCode. destruct e; by_compute.
Qed.

(** Distinct error codes of the protocol have distinct names. *)
Theorem getErrorName_distinct getName e e' :
  e ≠ e' → getErrorName getName (errorCode e) ≠ getErrorName getName (errorCode e').
Proof.
  intros Hne. destruct (errorCases_complete e) as [name Hin].
  destruct (errorCases_complete e') as [name' Hin'].
  rewrite (getErrorName_errorCode _ e name), (getErrorName_errorCode _ e' name') by done.
  intros <-. apply Hne.
  apply (NoDup_fst_functional (prod_swap <$> errorCases) name).
  - rewrite <-list_fmap_compose. apply NoDup_errorNames.
  - apply list_elem_of_fmap. by exists (e, name).
  - apply list_elem_of_fmap. by exists (e', name).
Qed.

End names.

(** ** Replies with errors of one kind *)

Section kinds.
Implicit Types (reply : Reply) (errCode : Z).

(** The loop from index [i] with [n] iterations left checks the errors from
    [i] on, when [n] reaches the end of the list. *)
Lemma hasOnlyErrorsOfType_from_spec reply errCode n i :
  i + n = getNumErrors reply →
  hasOnlyErrorsOfType_from reply errCode n i = true ↔
  Forall (λ e, getCode e = errCode) (drop i (errors reply)).
Proof.
  unfold getNumErrors. revert i.
  induction n as [|n IH]; intros i Hlen; simpl.
  - rewrite drop_ge by lia. by split; [constructor|].
  - destruct (getError reply i) as [e|] eqn:He; unfold getError in He;
      [|apply lookup_ge_None in He; lia].
    rewrite (drop_S _ e) by done. rewrite Forall_cons.
    case_decide as Hc.
    + split; [done | by intros [? _]].
    + rewrite IH by lia. tauto.
Qed.

Lemma hasOnlyErrorsOfType_Forall reply errCode :
  hasOnlyErrorsOfType reply errCode = true ↔
  Forall (λ e, getCode e = errCode) (errors reply).
Proof.
  unfold hasOnlyErrorsOfType. by rewrite hasOnlyErrorsOfType_from_spec, drop_0.
Qed.

(** C25. [hasOnlyErrorsOfType] answers true exactly when every error of the
    reply carries the code. *)
Theorem hasOnlyErrorsOfType_spec reply errCode :
  hasOnlyErrorsOfType reply errCode = true ↔
  ∀ e, e ∈ errors reply → getCode e = errCode.
Proof. by rewrite hasOnlyErrorsOfType_Forall, Forall_forall. Qed.

(** A reply without errors has only errors of every kind: the loop
    does not run and the answer is true for any code. *)
Theorem hasOnlyErrorsOfType_no_errors reply errCode :
  errors reply = [] → hasOnlyErrorsOfType reply errCode = true.
Proof. intros Hnil. apply hasOnlyErrorsOfType_Forall. by rewrite Hnil. Qed.

(** The answer is false exactly when some error carries another code. *)
Theorem hasOnlyErrorsOfType_false reply errCode :
  hasOnlyErrorsOfType reply errCode = false ↔
  ∃ i e, getError reply i = Some e ∧ getCode e ≠ errCode.
Proof.
  rewrite <-not_true_iff_false, hasOnlyErrorsOfType_Forall.
  unfold getError. split.
  - intros Hnot. apply not_Forall_Exists in Hnot; [|apply _].
    apply Exists_exists in Hnot as (e & [i Hi]%list_elem_of_lookup_1 & He). eauto.
  - intros (i & e & Hi & He). rewrite Forall_forall. intros Hall.
    apply He, Hall. by eapply list_elem_of_lookup_2.
Qed.

End kinds.

(** ** A fan-out that failed with one code *)

Section uniform.
Context `{merger : ReplyMerger M}.

(** C9. When every non-masked child failed and all their errors carry one
    code, [merge] installs a reply with a single error: an error one of
    those children reported, unmodified. The reply has only errors of that
    code. *)
Theorem merge_uniform_failure ctx mask c :
  answered mask 0 (children ctx) →
  (∃ i, i < length (children ctx) ∧ i ∉ mask) →
  (∀ i r, i ∉ mask → children ctx !! i = Some (Some r) →
     errors r ≠ [] ∧ ∀ e, e ∈ errors r → getCode e = c) →
  ∃ ctx' reply e,
    merge ctx mask = Ok ctx' ∧ getReply ctx' = Some reply ∧
    errors reply = [e] ∧ hasOnlyErrorsOfType reply c = true ∧
    ∃ i r, i ∉ mask ∧ children ctx !! i = Some (Some r) ∧ e ∈ errors r.
Proof.
  intros Ha Hex Hfail.
  pose proof (unmasked_forall _ _ _ Hfail) as Hall.
  pose proof (unmasked_nonempty _ _ Ha Hex) as Hne.
  set (ms := unmasked mask 0 (children ctx)) in *.
  assert (∀ r, r ∈ ms.*2 → errors r ≠ [] ∧ ∀ e, e ∈ errors r → getCode e = c)
    as Hrs by (intros r ([i r'] & -> & ?%Hall)%list_elem_of_fmap; done).
  assert (∃ r, r ∈ ms.*2 ∧ errors r ≠ []) as Hsome.
  { destruct ms as [|[i r] ms'] eqn:Hms; [done|]. exists r.
    split; [left|]. apply (proj1 (Hrs r ltac:(left))). }
  assert (errors (synthesize ms.*2) = [firstError c ms.*2]) as Herr.
  { apply synthesize_uniform; [done|].
    intros r c' Hr (e & -> & He)%list_elem_of_fmap. by apply (proj2 (Hrs r Hr)). }
  exists (mkContext (children ctx) (Some (synthesize ms.*2))), (synthesize ms.*2),
    (firstError c ms.*2).
  split_and!; [| done | done | |].
  - apply merge_all_failed; [done | done |]. intros p Hp. by apply (Hall p).
  - apply hasOnlyErrorsOfType_Forall. rewrite Herr.
    constructor; [apply getCode_firstError | constructor].
  - destruct Hsome as (r0 & Hr0 & Hne0).
    assert (c ∈ observed ms.*2) as Hobs.
    { apply elem_of_observed. exists r0. split; [done|].
      destruct (errors r0) as [|e0 es] eqn:He0; [done|].
      apply list_elem_of_fmap. exists e0. split; [|rewrite He0; left].
      symmetry. apply (proj2 (Hrs r0 Hr0)). rewrite He0. left. }
    apply firstError_elem_of, list_elem_of_bind in Hobs as (r & He & Hr).
    apply list_elem_of_fmap in Hr as ([i r'] & -> & [? ?]%elem_of_unmasked_0).
    eauto.
Qed.

End uniform.

(** ** The policy table of the constructor *)

Section tables.
Context {DocumentTypeRepo IRoutingPolicy : Type}.
Context (createWith :
  @RoutingPolicyFactories DocumentTypeRepo → string → option IRoutingPolicy).
Implicit Types (repo : DocumentTypeRepo) (cfg : string)
  (p : @DocumentProtocol DocumentTypeRepo).

Lemma NoDup_policyNames repo cfg : NoDup (policyTable repo cfg).*1.
Proof. by_compute. Qed.

Lemma putRoutingPolicyFactory_table table p :
  _routingPolicyRepository
    (foldl (λ p row, putRoutingPolicyFactory row.1 row.2 p) p table) =
  foldl (λ acc row, RoutingPolicyRepository.putFactory row.1 row.2 acc)
    (_routingPolicyRepository p) table.
Proof. revert p. induction table as [|row table IH]; intros p; [done|]. apply IH. Qed.

(** The policy factories are not registered in alphabetical order:
    the names of the table, in the order of the constructor, are not
    sorted. *)
Theorem policyTable_not_sorted repo cfg :
  ¬ Sorted String.le (policyTable repo cfg).*1.
Proof. by_compute. Qed.

(** The order of the policy registrations has no effect: registering
    the rows of the table in any order gives a protocol that creates the
    same policy for every name and parameter. *)
Theorem policyTable_order_irrelevant repo cfg table p name param :
  table ≡ₚ policyTable repo cfg →
  createPolicy createWith name param
    (foldl (λ p row, putRoutingPolicyFactory row.1 row.2 p) p table) =
  createPolicy createWith name param
    (foldl (λ p row, putRoutingPolicyFactory row.1 row.2 p) p (policyTable repo cfg)).
Proof.
  intros Hperm. unfold createPolicy, RoutingPolicyRepository.createPolicy.
  rewrite !putRoutingPolicyFactory_table.
  rewrite (getFactory_foldl_Permutation table (policyTable repo cfg)); [done | | done].
  rewrite Hperm. apply NoDup_policyNames.
Qed.

End tables.

(** ** Concrete runs *)

Section runs.
#[local] Existing Instance positionNumbering.

Lemma getErrorName_unknown_witness :
  getErrorName (λ _, "UNKNOWN") 26 = "UNKNOWN" ∧
  getErrorName (λ _, "UNKNOWN") 20 = "BUSY".
Proof.
  split; [|reflexivity].
  apply (getErrorName_unknown (λ _, "UNKNOWN") 26). intros e. destruct e; by_compute.
Defined.

(** With the codes numbered by position, 20 is [ERROR_BUSY] and 26 is no
    code of the protocol. *)
Lemma getErrorName_spec_witness :
  getErrorName (λ _, "from the message bus") (errorCode ERROR_BUSY) = "BUSY" ∧
  getErrorName (λ _, "from the message bus") 26 = "from the message bus".
Proof.
  destruct (getErrorName_spec (λ _, "from the message bus") 26) as [Hknown Hother].
  split; [exact (Hknown ERROR_BUSY)|]. apply Hother. intros e. destruct e; by_compute.
Defined.

Lemma getErrorName_distinct_witness :
  getErrorName (λ _, "UNKNOWN") (errorCode ERROR_BUSY) ≠
  getErrorName (λ _, "UNKNOWN") (errorCode ERROR_ABORTED).
Proof. apply (getErrorName_distinct (λ _, "UNKNOWN") ERROR_BUSY ERROR_ABORTED). done. Defined.

Lemma hasOnlyErrorsOfType_no_errors_witness :
  hasOnlyErrorsOfType (replyWith 1 []) 7 = true ∧
  hasOnlyErrorsOfType (replyWith 1 []) 8 = true.
Proof. split; by apply hasOnlyErrorsOfType_no_errors. Defined.

Lemma merge_uniform_failure_witness :
  ∃ ctx' reply e,
    merge (contextOf [Some (replyWith 1 [5; 5]%Z); Some (replyWith 2 []); Some (replyWith 3 [5]%Z)])
      {[1]} = Ok ctx' ∧
    getReply ctx' = Some reply ∧ errors reply = [e] ∧
    hasOnlyErrorsOfType reply 5 = true.
Proof.
  destruct (merge_uniform_failure
    (contextOf [Some (replyWith 1 [5; 5]%Z); Some (replyWith 2 []); Some (replyWith 3 [5]%Z)])
    {[1]} 5%Z) as (ctx' & reply & e & ? & ? & ? & ? & _).
  - by_compute.
  - exists 0. split; [simpl; lia | by_compute].
  - intros [|[|[|i]]] r Hm Hl; simplify_eq/=.
    + split; [done|]. by intros e [->|[->|?%elem_of_nil]%elem_of_cons]%elem_of_cons.
    + destruct Hm. by_compute.
    + split; [done|]. by intros e [->|?%elem_of_nil]%elem_of_cons.
  - eauto 10.
Defined.

Lemma policyTable_order_irrelevant_witness :
  createPolicy echoPolicy "Storage" "cluster"
    (foldl (λ p row, putRoutingPolicyFactory row.1 row.2 p) sampleProtocol
       (reverse (policyTable tt "client"))) =
  Ok "cluster".
Proof.
  etrans; [apply (policyTable_order_irrelevant echoPolicy tt "client")|].
  - apply reverse_Permutation.
  - vm_compute. reflexivity.
Defined.

Lemma policyTable_not_sorted_witness :
  ¬ Sorted String.le
      ["AND"; "Content"; "MessageType"; "DocumentRouteSelector"; "Extern";
       "LocalService"; "RoundRobin"; "Storage"; "SubsetService"; "LoadBalancer"].
Proof. apply (policyTable_not_sorted (DocumentTypeRepo := unit) tt "client"). Defined.

End runs.
