(* ===== verification/FlushTarget.v ===== *)
(** * The flush target of the memory index

    [IndexFlushTarget] is translated from
    [src/searchcorespi/src/vespa/searchcorespi/index/indexflushtarget.cpp].
    A flush target tells the flush engine what flushing the memory index
    would gain and whether the flush is urgent.

    - The target copies the flush statistics and the two counts of frozen
      memory indexes when it is constructed, and keeps a reference to the
      index maintainer. The methods that read the snapshot take the target
      alone; the methods that go through the reference ([getLastFlushTime],
      [getFlushedSerialNum], [initFlush]) take the maintainer as it is at the
      time of the call.
    - [Gain] is the [int64_t] instance of the gain template of the flush
      target interface: statistics are unsigned 64-bit and are converted on
      construction ([swrap 64]); [gain] is the signed difference.
    - [getApproxBytesToWriteToDisk] returns an unsigned 64-bit value: the
      signed difference is converted back ([wrap 64]).
    - Both subtractions are on [int64_t]. C++ leaves the overflow of a
      signed subtraction undefined; the model wraps, as the machines the
      code runs on do. [defined] says that the subtraction of a gain does
      not overflow: it holds whenever both statistics are below 2^63
      ([defined_fits]), where the model and the language agree, and fails
      for some statistics above ([defined_fails]).
    - [needUrgentFlush] is the decision; [needUrgentFlush_log] is the event
      its [LOG] call issues, for which alone the method reads the flushed
      serial number of the maintainer. *)

From stdpp Require Import pretty.
From S2P Require Import Prelude Logging.

Module IndexFlushTarget.

(** The gain of a flush: the value before and after, as [int64_t]. *)
Record Gain := mkGain {
  getBefore : Z;
  getAfter : Z;
}.

(** Construction from unsigned statistics converts to [int64_t]. *)
Definition toGain (before after : Z) : Gain :=
  mkGain (swrap 64 before) (swrap 64 after).

Definition gain (g : Gain) : Z := swrap 64 (getBefore g - getAfter g).

(** The fields of the flush statistics the target reads, [uint64_t]. *)
Record FlushStats := mkFlushStats {
  memory_before_bytes : Z;
  memory_after_bytes : Z;
}.

(** What the target reads from the index maintainer. *)
Module IndexMaintainer.
Record IndexMaintainer := mkMaintainer {
  getFlushStats : FlushStats;
  getNumFrozenMemoryIndexes : Z;
  getMaxFrozenMemoryIndexes : Z;
  getLastFlushTime : Z;
  getFlushedSerialNum : Z;
}.
End IndexMaintainer.
Notation IndexMaintainer := IndexMaintainer.IndexMaintainer.

(** The statistics of the last flush, with the setting the constructor
    makes. *)
Record FlushStatsLog := mkFlushStatsLog {
  pathElementsToLog : nat;
}.

(** The kind and the component of a flush target: the enumerators the
    constructor names. *)
Inductive FlushType := FLUSH.
Inductive FlushComponent := INDEX.

Record IndexFlushTarget := mkTarget {
  getName : string;
  getType : FlushType;
  getComponent : FlushComponent;
  _flushStats : FlushStats;
  _numFrozenMemoryIndexes : Z;
  _maxFrozenMemoryIndexes : Z;
  _lastStats : FlushStatsLog;
}.

#[global] Instance Gain_eq_dec : EqDecision Gain.
Proof. solve_decision. Defined.
#[global] Instance FlushStats_eq_dec : EqDecision FlushStats.
Proof. solve_decision. Defined.

Definition create (indexMaintainer : IndexMaintainer) (flushStats : FlushStats) :
    IndexFlushTarget :=
  mkTarget "memoryindex.flush" FLUSH INDEX
    flushStats
    (IndexMaintainer.getNumFrozenMemoryIndexes indexMaintainer)
    (IndexMaintainer.getMaxFrozenMemoryIndexes indexMaintainer)
    (mkFlushStatsLog 7).

(** The delegating constructor. *)
Definition create_default (indexMaintainer : IndexMaintainer) : IndexFlushTarget :=
  create indexMaintainer (IndexMaintainer.getFlushStats indexMaintainer).

Definition getApproxMemoryGain (t : IndexFlushTarget) : Gain :=
  toGain (memory_before_bytes (_flushStats t)) (memory_after_bytes (_flushStats t)).

Definition getApproxDiskGain (t : IndexFlushTarget) : Gain := toGain 0 0.

Definition G : Z := 2 ^ 30.

Definition needUrgentFlush (t : IndexFlushTarget) : bool :=
  let urgent :=
    bool_decide (_maxFrozenMemoryIndexes t < _numFrozenMemoryIndexes t)%Z ||
    bool_decide (16 * G < gain (getApproxMemoryGain t))%Z in
  urgent.

Definition getLastFlushTime (t : IndexFlushTarget) (indexMaintainer : IndexMaintainer) : Z :=
  IndexMaintainer.getLastFlushTime indexMaintainer.

Definition getFlushedSerialNum (t : IndexFlushTarget) (indexMaintainer : IndexMaintainer) : Z :=
  IndexMaintainer.getFlushedSerialNum indexMaintainer.

(** [initFlush] hands the serial number and the statistics of the target to
    the maintainer, whose [initFlush] is the function [start]. *)
Definition initFlush {Task} (start : IndexMaintainer → Z → FlushStatsLog → option Task)
    (serialNum : Z) (t : IndexFlushTarget) (indexMaintainer : IndexMaintainer) :
    option Task :=
  start indexMaintainer serialNum (_lastStats t).

Definition getApproxBytesToWriteToDisk (t : IndexFlushTarget) : Z :=
  let gain := toGain (memory_before_bytes (_flushStats t))
                     (memory_after_bytes (_flushStats t)) in
  if decide (getAfter gain < getBefore gain)%Z
  then wrap 64 (getBefore gain - getAfter gain)
  else 0%Z.

(** The subtraction [before - after] of a gain does not overflow
    [int64_t]. *)
Definition defined (g : Gain) : Prop := in_signed 64 (getBefore g - getAfter g).

#[global] Instance defined_dec g : Decision (defined g).
Proof. unfold defined, in_signed. apply _. Defined.

(** The component [LOG_SETUP] names. *)
Definition LOG_SETUP : string := ".searchcorespi.index.indexflushtarget".

(** The [LOG] call of [needUrgentFlush]. *)
Definition needUrgentFlush_log (wants : Log.LogLevel → bool) (t : IndexFlushTarget)
    (indexMaintainer : IndexMaintainer) : list Log.LogEvent :=
  let urgent := needUrgentFlush t in
  let flushedSerial := IndexMaintainer.getFlushedSerialNum indexMaintainer in
  Log.LOG wants LOG_SETUP Log.debug
    ("Num frozen: %u Memory gain: %ld Urgent: %d, flushedSerial=%" +:+ Log.PRIu64)
    [ Log.ArgUnsignedInt (_numFrozenMemoryIndexes t);
      Log.ArgLong (gain (getApproxMemoryGain t));
      Log.ArgInt (Z.b2z urgent);
      Log.ArgUnsignedLong flushedSerial ].

(** The line the debug log shows for the values given. *)
Definition urgencyLine (numFrozen memoryGain : Z) (urgent : bool) (flushedSerial : Z) :
    string :=
  "Num frozen: " +:+ pretty numFrozen +:+ " Memory gain: " +:+ pretty memoryGain +:+
  " Urgent: " +:+ pretty (Z.b2z urgent) +:+
  ", flushedSerial=" +:+ pretty flushedSerial.

(** The statistics are unsigned 64-bit values, the counts unsigned 32-bit. *)
Record wf (t : IndexFlushTarget) : Prop := {
  wf_before : in_unsigned 64 (memory_before_bytes (_flushStats t));
  wf_after : in_unsigned 64 (memory_after_bytes (_flushStats t));
  wf_numFrozen : in_unsigned 32 (_numFrozenMemoryIndexes t);
  wf_maxFrozen : in_unsigned 32 (_maxFrozenMemoryIndexes t);
}.

(** Both statistics fit [int64_t]: the conversion changes nothing. *)
Definition fits (t : IndexFlushTarget) : Prop :=
  (0 ≤ memory_before_bytes (_flushStats t) < 2 ^ 63)%Z ∧
  (0 ≤ memory_after_bytes (_flushStats t) < 2 ^ 63)%Z.

#[global] Instance fits_dec t : Decision (fits t).
Proof. unfold fits. apply _. Defined.

(** A target with the given statistics and counts, for concrete runs. *)
Definition targetOf (before after numFrozen maxFrozen : Z) : IndexFlushTarget :=
  create (IndexMaintainer.mkMaintainer (mkFlushStats before after) numFrozen maxFrozen 0 0)
    (mkFlushStats before after).

(** ** Lemmas *)

Section lemmas.
Implicit Types (t : IndexFlushTarget) (im : IndexMaintainer) (stats : FlushStats).
Local Open Scope Z_scope.

Lemma fits_wf_stats t :
  fits t →
  in_unsigned 64 (memory_before_bytes (_flushStats t)) ∧
  in_unsigned 64 (memory_after_bytes (_flushStats t)).
Proof. unfold fits, in_unsigned. lia. Qed.

Lemma getApproxMemoryGain_fits t :
  fits t →
  getApproxMemoryGain t =
    mkGain (memory_before_bytes (_flushStats t)) (memory_after_bytes (_flushStats t)).
Proof.
  intros [Hb Ha]. unfold getApproxMemoryGain, toGain.
  by rewrite !swrap_small by (unfold in_signed; lia).
Qed.

Lemma gain_exact g :
  in_signed 64 (getBefore g - getAfter g) → gain g = getBefore g - getAfter g.
Proof. by apply swrap_small. Qed.

Lemma gain_fits t :
  fits t →
  gain (getApproxMemoryGain t) =
    memory_before_bytes (_flushStats t) - memory_after_bytes (_flushStats t).
Proof.
  intros Hf. rewrite getApproxMemoryGain_fits by done. destruct Hf.
  apply gain_exact. unfold in_signed. simpl. lia.
Qed.

(** Below 2^63 no subtraction overflows. *)
Lemma defined_fits t : fits t → defined (getApproxMemoryGain t).
Proof.
  intros Hf. rewrite getApproxMemoryGain_fits by done. destruct Hf.
  unfold defined, in_signed. simpl. lia.
Qed.

(** Above, some do: a statistic of 2^63 - 1 bytes before the flush and of
    2^63 after it. *)
Lemma defined_fails :
  wf (create (IndexMaintainer.mkMaintainer (mkFlushStats (2 ^ 63 - 1) (2 ^ 63)) 0 1 0 0)
        (mkFlushStats (2 ^ 63 - 1) (2 ^ 63))) ∧
  ¬ defined (getApproxMemoryGain
      (create (IndexMaintainer.mkMaintainer (mkFlushStats (2 ^ 63 - 1) (2 ^ 63)) 0 1 0 0)
         (mkFlushStats (2 ^ 63 - 1) (2 ^ 63)))).
Proof. split; [split; unfold in_unsigned; simpl; lia | by_compute]. Qed.

Lemma gain_range g : in_signed 64 (gain g).
Proof. by apply swrap_range. Qed.

Lemma needUrgentFlush_true t :
  needUrgentFlush t = true ↔
  _maxFrozenMemoryIndexes t < _numFrozenMemoryIndexes t ∨
  16 * G < gain (getApproxMemoryGain t).
Proof.
  unfold needUrgentFlush. by rewrite orb_true_iff, !bool_decide_eq_true.
Qed.

Lemma getApproxBytesToWriteToDisk_cases t :
  fits t →
  getApproxBytesToWriteToDisk t =
    if decide (memory_after_bytes (_flushStats t) < memory_before_bytes (_flushStats t))
    then memory_before_bytes (_flushStats t) - memory_after_bytes (_flushStats t)
    else 0.
Proof.
  intros Hf. unfold getApproxBytesToWriteToDisk.
  fold (getApproxMemoryGain t). rewrite getApproxMemoryGain_fits by done.
  destruct Hf. simpl. case_decide; [|done].
  apply wrap_small. unfold in_unsigned. lia.
Qed.

Lemma needUrgentFlush_exact t :
  fits t →
  needUrgentFlush t = true ↔
  _maxFrozenMemoryIndexes t < _numFrozenMemoryIndexes t ∨
  16 * 2 ^ 30 < memory_before_bytes (_flushStats t) - memory_after_bytes (_flushStats t).
Proof. intros Hf. by rewrite needUrgentFlush_true, gain_fits. Qed.

(** ** Theorems *)

(** When both statistics fit a signed 64-bit integer, the bytes to write
    are the memory the flush frees, and zero when it frees none. *)
Theorem getApproxBytesToWriteToDisk_fits t :
  fits t →
  getApproxBytesToWriteToDisk t =
    Z.max 0 (memory_before_bytes (_flushStats t) - memory_after_bytes (_flushStats t)).
Proof.
  intros Hf. rewrite getApproxBytesToWriteToDisk_cases by done.
  case_decide; lia.
Qed.

(** C28. Every value the target reports has its C++ type, whatever the
    statistics: the fields and the difference of the memory gain are signed
    64-bit values, the disk gain is zero, and the bytes to write are an
    unsigned 64-bit value that holds the difference of the converted
    statistics without wrapping around. *)
Theorem flush_values_typed t :
  in_signed 64 (getBefore (getApproxMemoryGain t)) ∧
  in_signed 64 (getAfter (getApproxMemoryGain t)) ∧
  in_signed 64 (gain (getApproxMemoryGain t)) ∧
  gain (getApproxDiskGain t) = 0 ∧
  in_unsigned 64 (getApproxBytesToWriteToDisk t) ∧
  getApproxBytesToWriteToDisk t =
    0 `max` (getBefore (getApproxMemoryGain t) - getAfter (getApproxMemoryGain t)).
Proof.
  pose proof (swrap_range 64 ltac:(done) (memory_before_bytes (_flushStats t))) as Hb.
  pose proof (swrap_range 64 ltac:(done) (memory_after_bytes (_flushStats t))) as Ha.
  split_and!; [done | done | apply gain_range | done | |];
    unfold getApproxBytesToWriteToDisk, getApproxMemoryGain, toGain; simpl;
    unfold in_signed, in_unsigned in *; case_decide;
    rewrite ?wrap_small by (unfold in_unsigned; lia); lia.
Qed.

(** C27. When both statistics fit, a flush is urgent exactly when there are
    more frozen memory indexes than allowed or the flush frees more than
    16 GiB. *)
Theorem needUrgentFlush_fits t :
  fits t →
  needUrgentFlush t = true ↔
  _maxFrozenMemoryIndexes t < _numFrozenMemoryIndexes t ∨
  16 * 2 ^ 30 < gain (getApproxMemoryGain t) ∧
  gain (getApproxMemoryGain t) =
    memory_before_bytes (_flushStats t) - memory_after_bytes (_flushStats t).
Proof.
  intros Hf. rewrite needUrgentFlush_exact, gain_fits by done. tauto.
Qed.

(** A flush that would write more than 16 GiB is urgent. *)
Theorem needUrgentFlush_bytes t :
  fits t → 16 * 2 ^ 30 < getApproxBytesToWriteToDisk t → needUrgentFlush t = true.
Proof.
  intros Hf. rewrite getApproxBytesToWriteToDisk_cases, needUrgentFlush_exact by done.
  case_decide; lia.
Qed.

(** C30. A memory statistic of 2^63 bytes or more is read as a negative
    number: with less than 2^63 bytes after the flush, the target reports
    nothing to write although the unsigned statistics say the flush frees
    memory. *)
Theorem getApproxBytesToWriteToDisk_high_before t :
  2 ^ 63 ≤ memory_before_bytes (_flushStats t) < 2 ^ 64 →
  0 ≤ memory_after_bytes (_flushStats t) < 2 ^ 63 →
  getApproxBytesToWriteToDisk t = 0.
Proof.
  intros Hb Ha. unfold getApproxBytesToWriteToDisk, toGain.
  rewrite swrap_high by (done || unfold in_unsigned; lia).
  rewrite swrap_small by (done || unfold in_signed; lia).
  simpl. case_decide; lia.
Qed.

(** Urgency grows with the memory in use: with the same counts and the
    same memory after the flush, a target with more memory before the flush
    is urgent whenever the other is. *)
Theorem needUrgentFlush_mono t t' :
  fits t → fits t' →
  _numFrozenMemoryIndexes t = _numFrozenMemoryIndexes t' →
  _maxFrozenMemoryIndexes t = _maxFrozenMemoryIndexes t' →
  memory_after_bytes (_flushStats t) = memory_after_bytes (_flushStats t') →
  memory_before_bytes (_flushStats t) ≤ memory_before_bytes (_flushStats t') →
  needUrgentFlush t = true → needUrgentFlush t' = true.
Proof.
  intros Hf Hf' Hn Hm Ha Hb. rewrite !needUrgentFlush_exact by done. lia.
Qed.

(** C29. The debug line of [needUrgentFlush] is well typed, and it shows
    what the method decided with: the count of frozen indexes and the
    memory gain of the snapshot, the decision itself, and the serial number
    the maintainer has flushed by now. A logger that does not want debug
    events gets nothing. *)
Theorem needUrgentFlush_logged wants t im :
  wf t → in_unsigned 64 (IndexMaintainer.getFlushedSerialNum im) →
  (∀ ev, ev ∈ needUrgentFlush_log wants t im →
     Log.well_typed (Log.format ev) (Log.args ev)) ∧
  if wants Log.debug then
    ∃ ev, needUrgentFlush_log wants t im = [ev] ∧
      Log.message ev =
        Some (urgencyLine (_numFrozenMemoryIndexes t) (gain (getApproxMemoryGain t))
                (needUrgentFlush t) (IndexMaintainer.getFlushedSerialNum im))
  else needUrgentFlush_log wants t im = [].
Proof.
  intros [_ _ Hn _] Hserial.
  assert (∀ ev, ev ∈ needUrgentFlush_log wants t im →
    Log.message ev =
      Some (urgencyLine (_numFrozenMemoryIndexes t) (gain (getApproxMemoryGain t))
              (needUrgentFlush t) (IndexMaintainer.getFlushedSerialNum im))) as Hmsg.
  { intros ev [_ ->]%Log.elem_of_LOG. unfold Log.message, Log.printf, urgencyLine.
    Log.parse_format.
    cbn -[pretty wrap swrap gain getApproxMemoryGain needUrgentFlush].
    rewrite !wrap_small by done.
    rewrite (swrap_small 64) by first [done | apply gain_range].
    rewrite (swrap_small 32)
      by first [done | destruct (needUrgentFlush t); unfold in_signed; simpl; lia].
    by rewrite Log.append_empty_r. }
  split.
  - intros ev Hev. apply Log.printf_is_Some. fold (Log.message ev).
    by rewrite (Hmsg ev Hev).
  - unfold needUrgentFlush_log, Log.LOG in *. destruct (wants Log.debug); [|done].
    eexists. split; [done|]. apply Hmsg. left.
Qed.

End lemmas.

(** ** Concrete runs *)

Lemma needUrgentFlush_logged_witness :
  Log.message <$>
    needUrgentFlush_log (λ _, true) (targetOf (17 * 2 ^ 30 + 1) 0 3 8)
      (IndexMaintainer.mkMaintainer (mkFlushStats 0 0) 0 0 0 42) =
  [Some "Num frozen: 3 Memory gain: 18253611009 Urgent: 1, flushedSerial=42"].
Proof.
  destruct (needUrgentFlush_logged (λ _, true) (targetOf (17 * 2 ^ 30 + 1) 0 3 8)
    (IndexMaintainer.mkMaintainer (mkFlushStats 0 0) 0 0 0 42))
    as [_ (ev & -> & Hev)]; [split; by_compute | by_compute |].
  simpl. rewrite Hev. vm_compute. reflexivity.
Defined.

Lemma getApproxBytesToWriteToDisk_fits_witness :
  getApproxBytesToWriteToDisk (targetOf 1000 400 0 1) = 600%Z.
Proof.
  etrans; [apply (getApproxBytesToWriteToDisk_fits (targetOf 1000 400 0 1))|].
  - by_compute.
  - reflexivity.
Defined.

Lemma needUrgentFlush_fits_witness :
  needUrgentFlush (targetOf (17 * 2 ^ 30 + 1) 0 0 1) = true.
Proof.
  apply (needUrgentFlush_fits (targetOf (17 * 2 ^ 30 + 1) 0 0 1)).
  - by_compute.
  - right. by_compute.
Defined.

Lemma needUrgentFlush_bytes_witness :
  needUrgentFlush (targetOf (2 ^ 35) 5 0 1) = true.
Proof.
  apply (needUrgentFlush_bytes (targetOf (2 ^ 35) 5 0 1)).
  - by_compute.
  - by_compute.
Defined.

Lemma getApproxBytesToWriteToDisk_high_before_witness :
  getApproxBytesToWriteToDisk (targetOf (2 ^ 63) 0 0 1) = 0%Z.
Proof.
  apply (getApproxBytesToWriteToDisk_high_before (targetOf (2 ^ 63) 0 0 1));
    simpl; lia.
Defined.

Lemma needUrgentFlush_mono_witness :
  needUrgentFlush (targetOf (2 ^ 36) 0 0 1) = true.
Proof.
  apply (needUrgentFlush_mono (targetOf (2 ^ 35) 0 0 1) (targetOf (2 ^ 36) 0 0 1));
    first [reflexivity | by_compute].
Defined.

End IndexFlushTarget.
