(* ===== verification/EnumAttribute.v ===== *)
(** * The single-value enum attribute

    The classes of
    [src/searchlib/src/vespa/searchlib/attribute/singleenumattribute.h] and
    the member functions the header defines in the class bodies: the readers
    of [SingleValueEnumAttributeBase] and the overrides and hooks of the
    class template [SingleValueEnumAttribute<B>]. The member functions the
    header only declares are defined in another file and are not modelled.

    - [_enumIndices] is the vector of enum-store indexes, one per document;
      [operator[]] does not check its argument, so reading a document
      outside the vector is the error [OutOfRange].
    - The parameter [B] of the template is an [EnumAttribute<BaseClass>].
      The class [EnumAttribute] states what the class body uses of it: the
      types it names with [typename B::...] and the enum store, which
      [getEnumStore] returns by reference ([getEnumStore] reads it,
      [setEnumStore] writes it back). [SingleValueEnumAttribute B] derives
      from both: it is a [B] and a [SingleValueEnumAttributeBase].
    - A caller's buffer is a list and [sz] the size the caller states; [get]
      writes slot 0 when [sz > 0] and always answers 1. Writing slot 0 of a
      buffer without elements is the error [OutOfBuffer].
    - A member function that is not [const] returns the object; the hooks
      with empty bodies return it, and their by-reference arguments, as they
      are. *)

From S2P Require Import Prelude.

Module SingleValueEnumAttribute.

(** An index of the enum store; [ref] is the handle it stands for. *)
Record EnumIndex := mkIndex {
  ref : Z;
}.

Record WeightedEnum := mkWeightedEnum {
  getValue : Z;
  getWeight : Z;
}.

Inductive AccessError :=
| OutOfRange (doc : nat)
| OutOfBuffer.

#[global] Instance EnumIndex_eq_dec : EqDecision EnumIndex.
Proof. solve_decision. Defined.
#[global] Instance WeightedEnum_eq_dec : EqDecision WeightedEnum.
Proof. solve_decision. Defined.
#[global] Instance AccessError_eq_dec : EqDecision AccessError.
Proof. solve_decision. Defined.

Record SingleValueEnumAttributeBase := mkBase {
  _enumIndices : list EnumIndex;
}.

Definition getEnumIndex (docId : nat) (a : SingleValueEnumAttributeBase) :
    result AccessError EnumIndex :=
  match _enumIndices a !! docId with
  | Some idx => Ok idx
  | None => Err (OutOfRange docId)
  end.

Definition getE (doc : nat) (a : SingleValueEnumAttributeBase) :
    result AccessError Z :=
  let? idx := getEnumIndex doc a in Ok (ref idx).

(** What the class body uses of its parameter [B]: the types it names, and
    the enum store of [B] with [freezeTree]. [DocId] and [WeightedEnum] are
    those of [AttributeVector] for every [B]. *)
Class EnumAttribute (B : Type) := {
  Change : Type;
  ChangeVector : Type;
  ChangeVectorIterator : Type;
  EnumModifier : Type;
  EnumStore : Type;
  EnumStoreBatchUpdater : Type;
  LoadedVector : Type;
  UniqueSet : Type;
  ValueModifier : Type;
  generation_t : Type;
  GenerationHolder : Type;
  getGenerationHolder : B → GenerationHolder;
  getEnumStore : B → EnumStore;
  setEnumStore : EnumStore → B → B;
  freezeTree : EnumStore → EnumStore;
  getEnumStore_set store b : getEnumStore (setEnumStore store b) = store;
}.
#[global] Arguments Change B {_}.
#[global] Arguments UniqueSet B {_}.
#[global] Arguments EnumStore B {_}.
#[global] Arguments EnumStoreBatchUpdater B {_}.

(** [class SingleValueEnumAttribute : public B, public
    SingleValueEnumAttributeBase]. *)
Record SingleValueEnumAttribute (B : Type) := mkAttribute {
  base : B;
  enumBase : SingleValueEnumAttributeBase;
}.
#[global] Arguments mkAttribute {B} _ _.
#[global] Arguments base {B} _.
#[global] Arguments enumBase {B} _.

(** [e[0] = x]. *)
Definition store {A} (x : A) (e : list A) : result AccessError (list A) :=
  match e with
  | [] => Err OutOfBuffer
  | _ :: e' => Ok (x :: e')
  end.

Section members.
Context `{EnumAttribute B}.
Implicit Types (a : SingleValueEnumAttribute B) (c : Change B).

Definition getEnum (doc : nat) a : result AccessError Z :=
  getE doc (enumBase a).

(** [get(doc, EnumHandle * e, sz)]: the number of values and the buffer. *)
Definition get_EnumHandle (doc : nat) (e : list Z) (sz : nat) a :
    result AccessError (nat * list Z) :=
  if decide (0 < sz) then
    let? h := getE doc (enumBase a) in
    let? e := store h e in
    Ok (1, e)
  else Ok (1, e).

(** [get(doc, WeightedEnum * e, sz)]. *)
Definition get_WeightedEnum (doc : nat) (e : list WeightedEnum) (sz : nat) a :
    result AccessError (nat * list WeightedEnum) :=
  if decide (0 < sz) then
    let? h := getE doc (enumBase a) in
    let? e := store (mkWeightedEnum h 1) e in
    Ok (1, e)
  else Ok (1, e).

(** The hooks a numeric subclass overrides; here they do nothing. *)
Definition considerUpdateAttributeChange c a : SingleValueEnumAttribute B := a.

Definition considerArithmeticAttributeChange c (newUniques : UniqueSet B) a :
    UniqueSet B * SingleValueEnumAttribute B :=
  (newUniques, a).

Definition applyArithmeticValueChange c (updater : EnumStoreBatchUpdater B) a :
    EnumStoreBatchUpdater B * SingleValueEnumAttribute B :=
  (updater, a).

Definition mergeMemoryStats {MemoryUsage} (total : MemoryUsage) a :
    MemoryUsage * SingleValueEnumAttribute B :=
  (total, a).

(** [freezeEnumDictionary] freezes the tree of the enum store of [B]. *)
Definition freezeEnumDictionary a : SingleValueEnumAttribute B :=
  mkAttribute (setEnumStore (freezeTree (getEnumStore (base a))) (base a))
    (enumBase a).

End members.

(** A base whose enum store is a flag that tells whether the tree is
    frozen, for concrete runs. *)
Record FlagBase := mkFlagBase {
  frozen : bool;
}.

#[global] Instance flagAttribute : EnumAttribute FlagBase := {|
  Change := unit;
  ChangeVector := unit;
  ChangeVectorIterator := unit;
  EnumModifier := unit;
  EnumStore := bool;
  EnumStoreBatchUpdater := unit;
  LoadedVector := unit;
  UniqueSet := unit;
  ValueModifier := unit;
  generation_t := unit;
  GenerationHolder := unit;
  getGenerationHolder _ := tt;
  getEnumStore := frozen;
  setEnumStore store _ := mkFlagBase store;
  freezeTree _ := true;
  getEnumStore_set _ _ := eq_refl;
|}.

(** An attribute over the handles [hs], with a tree that is not frozen. *)
Definition attributeOf (hs : list Z) : SingleValueEnumAttribute FlagBase :=
  mkAttribute (mkFlagBase false) (mkBase (mkIndex <$> hs)).

(** ** Lemmas *)

Section base.
Implicit Types (b : SingleValueEnumAttributeBase) (doc : nat) (h : Z).

Lemma getE_Ok doc b h :
  getE doc b = Ok h ↔ ∃ idx, _enumIndices b !! doc = Some idx ∧ ref idx = h.
Proof.
  unfold getE, getEnumIndex. destruct (_enumIndices b !! doc); vsimpl; naive_solver.
Qed.

Lemma getE_Err doc b err :
  getE doc b = Err err ↔ length (_enumIndices b) ≤ doc ∧ err = OutOfRange doc.
Proof.
  unfold getE, getEnumIndex. destruct (_enumIndices b !! doc) eqn:Hl; vsimpl.
  - apply lookup_lt_Some in Hl. split; [done | lia].
  - apply lookup_ge_None in Hl. naive_solver.
Qed.

Lemma getE_is_Ok doc b : is_Ok (getE doc b) ↔ doc < length (_enumIndices b).
Proof.
  rewrite is_Ok_alt. setoid_rewrite getE_Ok. rewrite <-lookup_lt_is_Some.
  unfold is_Some. naive_solver.
Qed.

Lemma store_Ok {A} (x : A) (e : list A) :
  0 < length e → store x e = Ok (<[0 := x]> e).
Proof. destruct e; simpl; [lia | done]. Qed.

Lemma store_Err {A} (x : A) (e : list A) err :
  store x e = Err err ↔ e = [] ∧ err = OutOfBuffer.
Proof. destruct e; simpl; naive_solver. Qed.

Lemma insert_head_lookup {A} (l : list A) (x : A) :
  0 < length l →
  <[0 := x]> l !! 0 = Some x ∧ length (<[0 := x]> l) = length l ∧
  ∀ i, 0 < i → <[0 := x]> l !! i = l !! i.
Proof.
  intros Hl. split_and!.
  - by apply list_lookup_insert_eq.
  - apply length_insert.
  - intros i Hi. apply list_lookup_insert_ne. lia.
Qed.

End base.

Section derived.
Context `{EnumAttribute B}.
Implicit Types (a : SingleValueEnumAttribute B) (doc sz : nat) (h : Z).

(** ** Theorems *)

(** C40. With room in the buffer, [get] for enum handles writes the handle of
    the document to slot 0, leaves the other slots and the length of the
    buffer as they were, and answers 1. *)
Theorem get_EnumHandle_writes doc e sz a idx :
  _enumIndices (enumBase a) !! doc = Some idx → 0 < sz → sz ≤ length e →
  ∃ e', get_EnumHandle doc e sz a = Ok (1, e') ∧
    e' !! 0 = Some (ref idx) ∧ length e' = length e ∧
    ∀ i, 0 < i → e' !! i = e !! i.
Proof.
  intros Hidx Hsz Hlen. unfold get_EnumHandle.
  rewrite decide_True by done.
  assert (getE doc (enumBase a) = Ok (ref idx)) as -> by (apply getE_Ok; eauto).
  simpl. rewrite store_Ok by lia.
  eexists. split; [done|]. apply insert_head_lookup. lia.
Qed.

(** The number [get] answers is 1 whatever the size of the buffer; with
    a buffer of size zero nothing is written and nothing is read, so the
    answer is 1 even for a document the attribute does not hold. *)
Theorem get_EnumHandle_count doc e sz a :
  (∀ n e', get_EnumHandle doc e sz a = Ok (n, e') → n = 1) ∧
  get_EnumHandle doc e 0 a = Ok (1, e).
Proof.
  split; [|done]. intros n e'. unfold get_EnumHandle.
  case_decide; [|by intros [= <- <-]].
  destruct (getE doc _); vsimpl; [|done].
  destruct (store _ e); vsimpl; by intros [= <- <-].
Qed.

(** The three readers agree: for a document of the attribute, the
    handle [getEnum] returns is the handle both [get] overloads write, and
    the weighted overload gives it weight 1. *)
Theorem get_agrees doc es ew sz a :
  doc < length (_enumIndices (enumBase a)) → 0 < sz →
  sz ≤ length es → sz ≤ length ew →
  ∃ h es' ew',
    getEnum doc a = Ok h ∧
    get_EnumHandle doc es sz a = Ok (1, es') ∧
    get_WeightedEnum doc ew sz a = Ok (1, ew') ∧
    es' !! 0 = Some h ∧ ew' !! 0 = Some (mkWeightedEnum h 1).
Proof.
  intros Hdoc Hsz Hes Hew.
  apply getE_is_Ok, is_Ok_alt in Hdoc as [h Hh].
  exists h, (<[0 := h]> es), (<[0 := mkWeightedEnum h 1]> ew).
  unfold getEnum, get_EnumHandle, get_WeightedEnum.
  rewrite !decide_True, Hh by done. simpl. rewrite !store_Ok by lia.
  split_and!; [done.. | |]; apply list_lookup_insert_eq; lia.
Qed.

(** For a document outside the attribute, [get] with room in the buffer
    reads past the vector of indexes. *)
Theorem get_EnumHandle_out_of_range doc e sz a :
  length (_enumIndices (enumBase a)) ≤ doc → 0 < sz →
  get_EnumHandle doc e sz a = Err (OutOfRange doc) ∧
  get_WeightedEnum doc ((λ v, mkWeightedEnum v 1) <$> e) sz a = Err (OutOfRange doc).
Proof.
  intros Hdoc Hsz. unfold get_EnumHandle, get_WeightedEnum.
  rewrite !decide_True by done.
  assert (getE doc (enumBase a) = Err (OutOfRange doc)) as -> by by apply getE_Err.
  done.
Qed.

(** [freezeEnumDictionary] freezes the tree of the enum store of [B] and
    nothing else: the store holds the frozen tree afterwards, and every
    reader answers as before. *)
Theorem freezeEnumDictionary_frozen a :
  getEnumStore (base (freezeEnumDictionary a)) = freezeTree (getEnumStore (base a)) ∧
  enumBase (freezeEnumDictionary a) = enumBase a ∧
  ∀ doc sz es ew,
    getEnum doc (freezeEnumDictionary a) = getEnum doc a ∧
    get_EnumHandle doc es sz (freezeEnumDictionary a) = get_EnumHandle doc es sz a ∧
    get_WeightedEnum doc ew sz (freezeEnumDictionary a) = get_WeightedEnum doc ew sz a.
Proof. split_and!; [apply getEnumStore_set | done | done]. Qed.

End derived.

(** ** Concrete runs *)

Lemma get_EnumHandle_writes_witness :
  ∃ e', get_EnumHandle 1 [0; 0]%Z 2 (attributeOf [10; 20; 30]%Z) = Ok (1, e') ∧
        e' !! 0 = Some 20%Z.
Proof.
  destruct (get_EnumHandle_writes 1 [0; 0]%Z 2 (attributeOf [10; 20; 30]%Z) (mkIndex 20))
    as (e' & ? & ? & _); [reflexivity | lia | simpl; lia | eauto].
Defined.

Lemma get_agrees_witness :
  ∃ h es' ew',
    getEnum 2 (attributeOf [10; 20; 30]%Z) = Ok h ∧
    get_EnumHandle 2 [0]%Z 1 (attributeOf [10; 20; 30]%Z) = Ok (1, es') ∧
    get_WeightedEnum 2 [mkWeightedEnum 0 0] 1 (attributeOf [10; 20; 30]%Z) = Ok (1, ew') ∧
    es' !! 0 = Some h ∧ ew' !! 0 = Some (mkWeightedEnum h 1).
Proof.
  apply (get_agrees 2 [0]%Z [mkWeightedEnum 0 0] 1 (attributeOf [10; 20; 30]%Z));
    simpl; lia.
Defined.

Lemma get_EnumHandle_out_of_range_witness :
  get_EnumHandle 3 [0]%Z 1 (attributeOf [10; 20; 30]%Z) = Err (OutOfRange 3).
Proof.
  apply (get_EnumHandle_out_of_range 3 [0]%Z 1 (attributeOf [10; 20; 30]%Z));
    simpl; lia.
Defined.

End SingleValueEnumAttribute.
