(* ===== verification/LoadAttribute.v ===== *)
(** * The loadattribute tool

    [LoadAttribute] is translated from
    [src/searchlib/src/apps/loadattribute/loadattribute.cpp]: the option
    loop and the phases of [Main], [load], [applyUpdate], [printContent] and
    [usage].

    - What the tool does is a list of [Event]s in the order it does them:
      the lines it prints to standard output, standard error and the output
      file, the files it opens, and the calls it makes on the attribute. A
      procedure is a value of the monad [Trace]: its result, or the failed
      assertion that stopped it, with the events up to there.
    - The attribute vector, the attribute factory, the file header and the
      clock are not part of the sources. The class [Environment] stands for
      them: [exec] is the effect of a call on the attribute, the readers
      ([getNumDocs], [getMaxValueCount], ...) observe it, [readTag] reads a
      tag of the header of a file, [createAttribute] is the factory,
      [seconds] is what the timer shows for a phase, [openFails] tells
      whether an output file cannot be opened.
    - [GetOpt] is the option parser of the application framework. The
      options it returns, in order, and the index at which it stops are
      arguments of [Main].
    - [calls], [printed] and [closed] read off a run the calls on the
      attribute, the lines written to a stream and the output files closed.
    - A buffer is a list; [get] returns the number of values of a document
      and the values it wrote, which overlay the front of the buffer.
    - A failed [assert] is the error [AssertionFailed], which ends the run:
      the assertion is taken as compiled in. Built with [NDEBUG] the tool
      would go on and read the buffer beyond its end; that build is not
      modelled. *)

From Stdlib Require Import Ascii.
From stdpp Require Import pretty.
From S2P Require Import Prelude.

Module LoadAttribute.

Inductive ClassId :=
| IntegerAttribute
| FloatingPointAttribute
| StringAttribute.

(** The value of an update, as the source writes it. *)
Inductive Value :=
| IntValue (v : Z)
| FloatValue (literal : string)
| StringValue (s : string).

(** The calls the tool makes on the attribute. *)
Inductive Call :=
| CallLoad
| CallEnableEnumeratedSave
| CallAppend (doc : nat) (v : Value) (weight : Z)
| CallUpdate (doc : nat) (v : Value)
| CallCommit
| CallSaveAs (fileName : string).

Record Config := mkConfig {
  basicType : string;
  collectionType : string;
  fastSearch : bool;
  huge : bool;
}.

Inductive Stream :=
| Cout
| Cerr
| OutFile (name : string).

Inductive Event :=
| Print (os : Stream) (line : string)
| ReadOpenExisting (name : string)
| OpenOutput (name : string)
| CloseOutput (name : string)
| CreateAttribute (fileName : string) (c : Config)
| OnAttribute (c : Call).

Inductive AppError :=
| AssertionFailed (what : string) (doc : nat).

#[global] Instance ClassId_eq_dec : EqDecision ClassId.
Proof. solve_decision. Defined.
#[global] Instance Value_eq_dec : EqDecision Value.
Proof. solve_decision. Defined.
#[global] Instance Call_eq_dec : EqDecision Call.
Proof. solve_decision. Defined.
#[global] Instance Config_eq_dec : EqDecision Config.
Proof. solve_decision. Defined.
#[global] Instance Stream_eq_dec : EqDecision Stream.
Proof. solve_decision. Defined.
#[global] Instance Event_eq_dec : EqDecision Event.
Proof. solve_decision. Defined.
#[global] Instance AppError_eq_dec : EqDecision AppError.
Proof. solve_decision. Defined.

(** A run: the result, or the error that stopped it, and the events up to
    there. *)
Definition Trace (A : Type) : Type := result AppError A * list Event.

#[global] Instance Trace_ret : MRet Trace := λ A a, (Ok a, []).

#[global] Instance Trace_bind : MBind Trace := λ A B k m,
  match m with
  | (Ok a, ev) => let '(r, ev') := k a in (r, ev ++ ev')
  | (Err e, ev) => (Err e, ev)
  end.

Definition emit (evs : list Event) : Trace unit := (Ok tt, evs).

Definition print (os : Stream) (line : string) : Trace unit :=
  emit [Print os line].

(** [assert(b)]. *)
Definition assert (b : bool) (what : string) (doc : nat) : Trace unit :=
  if b then mret tt else (Err (AssertionFailed what doc), []).

(** Lines written to a stream; a stream that failed to open takes none. *)
Definition write (os : option Stream) (lines : list string) : Trace unit :=
  emit (if os is Some s then Print s <$> lines else []).

Definition outcome {A} (m : Trace A) : result AppError A := m.1.
Definition events {A} (m : Trace A) : list Event := m.2.

(** The calls on the attribute among the events. *)
Definition calls (evs : list Event) : list Call :=
  omap (λ ev, if ev is OnAttribute c then Some c else None) evs.

(** The lines printed to the stream [os] among the events. *)
Definition printed (os : Stream) (evs : list Event) : list string :=
  omap (λ ev, if ev is Print os' line
              then (if decide (os' = os) then Some line else None) else None) evs.

(** The output files closed among the events. *)
Definition closed (evs : list Event) : list string :=
  omap (λ ev, if ev is CloseOutput name then Some name else None) evs.

(** Events that are lines printed, all of them. *)
Definition prints (evs : list Event) : Prop :=
  Forall (λ ev, if ev is Print _ _ then True else False) evs.

(** Events that leave the output file alone: no line is written to it and
    it is not closed. *)
Definition offFile (evs : list Event) : Prop :=
  Forall (λ ev, match ev with
                | Print (OutFile _) _ | CloseOutput _ => False
                | _ => True
                end) evs.

(** The flags of [Main], with [optError]. *)
Record Flags := mkFlags {
  doPrintContent : bool;
  doApplyUpdate : bool;
  doSave : bool;
  doFastSearch : bool;
  doEnableEnumeratedSave : bool;
  doHuge : bool;
  optError : bool;
}.

Definition noFlags : Flags := mkFlags false false false false false false false.

(** The body of the option loop for one option returned by [GetOpt]. *)
Definition handleOption (opt : ascii) (arg : string) (f : Flags) : Trace Flags :=
  match opt with
  | "p"%char =>
      mret (mkFlags true (doApplyUpdate f) (doSave f) (doFastSearch f)
              (doEnableEnumeratedSave f) (doHuge f) (optError f))
  | "a"%char =>
      mret (mkFlags (doPrintContent f) true (doSave f) (doFastSearch f)
              (doEnableEnumeratedSave f) (doHuge f) (optError f))
  | "e"%char =>
      mret (mkFlags (doPrintContent f) (doApplyUpdate f) (doSave f) (doFastSearch f)
              true (doHuge f) (optError f))
  | "h"%char =>
      mret (mkFlags (doPrintContent f) (doApplyUpdate f) (doSave f) (doFastSearch f)
              (doEnableEnumeratedSave f) true (optError f))
  | "f"%char =>
      if decide (arg = "search") then
        mret (mkFlags (doPrintContent f) (doApplyUpdate f) (doSave f) true
                (doEnableEnumeratedSave f) (doHuge f) (optError f))
      else
        print Cerr ("Expected 'search' or 'aggregate', got '" +:+ arg +:+ "'");;
        mret (mkFlags (doPrintContent f) (doApplyUpdate f) (doSave f) (doFastSearch f)
                (doEnableEnumeratedSave f) (doHuge f) true)
  | "s"%char =>
      mret (mkFlags (doPrintContent f) (doApplyUpdate f) true (doFastSearch f)
              (doEnableEnumeratedSave f) (doHuge f) (optError f))
  | _ =>
      mret (mkFlags (doPrintContent f) (doApplyUpdate f) (doSave f) (doFastSearch f)
              (doEnableEnumeratedSave f) (doHuge f) true)
  end.

(** The option loop over the options [GetOpt] returns. *)
Fixpoint parseOptions (opts : list (ascii * string)) (f : Flags) : Trace Flags :=
  match opts with
  | [] => mret f
  | (opt, arg) :: opts' =>
      f ← handleOption opt arg f;
      parseOptions opts' f
  end.

Definition usage : Trace unit :=
  print Cout "usage: loadattribute [-p (print content to <attribute>.out)]";;
  print Cout "                     [-a (apply a single update)]";;
  print Cout "                     [-s (save attribute to <attribute>.save.dat)]";;
  print Cout "                     <attribute>".

(** ** What the option loop computes *)

(** An option the loop rejects: a character outside the option string, or
    [-f] with an argument other than [search]. *)
Definition rejected (o : ascii * string) : bool :=
  match o.1 with
  | "p"%char | "a"%char | "e"%char | "h"%char | "s"%char => false
  | "f"%char => negb (bool_decide (o.2 = "search"))
  | _ => true
  end.

(** The complaint about the argument of [-f]. *)
Definition complaint (o : ascii * string) : list Event :=
  if bool_decide (o.1 = "f"%char) && negb (bool_decide (o.2 = "search"))
  then [Print Cerr ("Expected 'search' or 'aggregate', got '" +:+ o.2 +:+ "'")]
  else [].

Definition given (c : ascii) (opts : list (ascii * string)) : bool :=
  bool_decide (c ∈ opts.*1).

(** The flags the options [opts] set on top of [f]. *)
Definition flagsOf (opts : list (ascii * string)) (f : Flags) : Flags :=
  mkFlags (given "p" opts || doPrintContent f)
          (given "a" opts || doApplyUpdate f)
          (given "s" opts || doSave f)
          (bool_decide (("f"%char, "search") ∈ opts) || doFastSearch f)
          (given "e" opts || doEnableEnumeratedSave f)
          (given "h" opts || doHuge f)
          (existsb rejected opts || optError f).

(** What the tool uses of its surroundings: the attribute vector with the
    effect [exec] of a call and its readers, the header of a file, the
    attribute factory, the clock and the file system. *)
Class Environment (AttributeVector : Type) := {
  getBaseFileName : AttributeVector → string;
  inherits : AttributeVector → ClassId → bool;
  hasMultiValue : AttributeVector → bool;
  hasWeightedSetType : AttributeVector → bool;
  getMaxValueCount : AttributeVector → nat;
  getNumDocs : AttributeVector → nat;
  get_WeightedString : AttributeVector → nat → nat → nat * list (string * Z);
  get_string : AttributeVector → nat → nat → nat * list string;
  exec : Call → AttributeVector → AttributeVector;
  readTag : string → string → string;
  createAttribute : string → Config → AttributeVector;
  seconds : string → string;
  openFails : string → bool;
}.

Section app.
Context `{env : Environment AttributeVector}.

(** One call on the attribute: its event and its effect. *)
Definition call (c : Call) (ptr : AttributeVector) : Trace AttributeVector :=
  emit [OnAttribute c];; mret (exec c ptr).

Definition load (ptr : AttributeVector) : Trace AttributeVector :=
  print Cout ("loading attribute: " +:+ getBaseFileName ptr);;
  ptr ← call CallLoad ptr;
  print Cout "attribute successfully loaded";;
  mret ptr.

(** The update of one class: an append for a multi-value attribute, an
    update otherwise, then the commit. *)
Definition updateWith (multi single : Value) (ptr : AttributeVector) :
    Trace AttributeVector :=
  ptr ← (if hasMultiValue ptr then call (CallAppend 0 multi 1) ptr
         else call (CallUpdate 0 single) ptr);
  call CallCommit ptr.

Definition applyUpdate (ptr : AttributeVector) : Trace AttributeVector :=
  print Cout "applyUpdate";;
  if inherits ptr IntegerAttribute then
    updateWith (IntValue 123456789) (IntValue 123456789) ptr
  else if inherits ptr FloatingPointAttribute then
    updateWith (FloatValue "123456789.5f") (FloatValue "123456789") ptr
  else if inherits ptr StringAttribute then
    updateWith (StringValue "non-existing string value")
      (StringValue "non-existing string value") ptr
  else mret ptr.

(** What [get] wrote overlays the front of the buffer. *)
Definition overlay {A} (written buf : list A) : list A :=
  written ++ drop (length written) buf.

Definition docHeader (doc valueCount : nat) : string :=
  "doc " +:+ pretty doc +:+ ": valueCount(" +:+ pretty valueCount +:+ ")".

Definition weightedLine (i : nat) (v : string * Z) : string :=
  "    " +:+ pretty i +:+ ": [" +:+ v.1 +:+ ", " +:+ pretty v.2 +:+ "]".

Definition stringLine (i : nat) (v : string) : string :=
  "    " +:+ pretty i +:+ ": [" +:+ v +:+ "]".

(** The lines of the values [0 .. valueCount - 1] of the buffer. *)
Definition valueLines {A} (line : nat → A → string) (valueCount : nat)
    (buf : list A) : list string :=
  imap line (take valueCount buf).

(** The loop over the documents from [doc], [n] iterations. *)
Fixpoint printDocs {A} (get : nat → nat → nat * list A) (line : nat → A → string)
    (os : option Stream) (sz : nat) (n doc : nat) (buf : list A) : Trace unit :=
  match n with
  | 0 => mret tt
  | S n' =>
      let '(valueCount, written) := get doc sz in
      let buf := overlay written buf in
      assert (bool_decide (valueCount ≤ sz)) "valueCount <= sz" doc;;
      write os (docHeader doc valueCount :: valueLines line valueCount buf);;
      printDocs get line os sz n' (S doc) buf
  end.

(** [printContent]: the buffers are allocated with default values, the
    empty string and, for a weighted value, the weight 1. *)
Definition printContent (ptr : AttributeVector) (os : option Stream) : Trace unit :=
  let sz := getMaxValueCount ptr in
  if hasWeightedSetType ptr then
    printDocs (get_WeightedString ptr) weightedLine os sz (getNumDocs ptr) 0
      (replicate sz (EmptyString, 1%Z))
  else
    printDocs (get_string ptr) stringLine os sz (getNumDocs ptr) 0
      (replicate (getMaxValueCount ptr) EmptyString).

(** The phases of [Main] after the options are accepted. *)
Definition loadPhase (f : Flags) (fileName : string) : Trace AttributeVector :=
  let datFileName := fileName +:+ ".dat" in
  emit [ReadOpenExisting datFileName];;
  let bt := readTag datFileName "datatype" in
  let ct := readTag datFileName "collectiontype" in
  let c := mkConfig bt ct (doFastSearch f) (doHuge f) in
  emit [CreateAttribute fileName c];;
  let ptr := createAttribute fileName c in
  ptr ← (if doEnableEnumeratedSave f then call CallEnableEnumeratedSave ptr
         else mret ptr);
  ptr ← load ptr;
  print Cout ("load time: " +:+ seconds "load" +:+ " seconds ");;
  print Cout ("numDocs: " +:+ pretty (getNumDocs ptr));;
  mret ptr.

Definition updatePhase (f : Flags) (ptr : AttributeVector) : Trace AttributeVector :=
  if doApplyUpdate f then
    ptr ← applyUpdate ptr;
    print Cout ("update time: " +:+ seconds "update" +:+ " seconds ");;
    mret ptr
  else mret ptr.

Definition printPhase (f : Flags) (fileName : string) (ptr : AttributeVector) :
    Trace unit :=
  if doPrintContent f then
    let outFile := fileName +:+ ".out" in
    emit [OpenOutput outFile];;
    (if openFails outFile
     then print Cout ("failed opening: " +:+ fileName +:+ ".out") else mret tt);;
    print Cout "printContent";;
    printContent ptr (if openFails outFile then None else Some (OutFile outFile));;
    emit [CloseOutput outFile]
  else mret tt.

Definition savePhase (f : Flags) (fileName : string) (ptr : AttributeVector) :
    Trace AttributeVector :=
  if doSave f then
    let saveFile := fileName +:+ ".save" in
    print Cout ("saving attribute: " +:+ saveFile);;
    ptr ← call (CallSaveAs saveFile) ptr;
    print Cout ("save time: " +:+ seconds "save" +:+ " seconds ");;
    mret ptr
  else mret ptr.

(** [Main]: [opts] and [idx] are what [GetOpt] returned. *)
Definition Main (argc : nat) (argv : list string)
    (opts : list (ascii * string)) (idx : nat) : Trace Z :=
  f ← parseOptions opts noFlags;
  if bool_decide (argc ≠ idx + 1) || optError f then
    usage;; mret (-1)%Z
  else
    let fileName := default EmptyString (argv !! idx) in
    ptr ← loadPhase f fileName;
    ptr ← updatePhase f ptr;
    printPhase f fileName ptr;;
    ptr ← savePhase f fileName ptr;
    mret 0%Z.

(** ** What a run does to the attribute *)

(** The attribute after the calls [cs], first to last. *)
Definition run (cs : list Call) (ptr : AttributeVector) : AttributeVector :=
  foldl (λ p c, exec c p) ptr cs.

(** The configuration [Main] builds for the file [fileName]. *)
Definition configOf (f : Flags) (fileName : string) : Config :=
  mkConfig (readTag (fileName +:+ ".dat") "datatype")
           (readTag (fileName +:+ ".dat") "collectiontype")
           (doFastSearch f) (doHuge f).

(** The calls of the load phase and the attribute it leaves. *)
Definition loadCalls (f : Flags) : list Call :=
  (if doEnableEnumeratedSave f then [CallEnableEnumeratedSave] else []) ++ [CallLoad].

Definition loaded (f : Flags) (fileName : string) : AttributeVector :=
  run (loadCalls f) (createAttribute fileName (configOf f fileName)).

(** The calls of [applyUpdate] on the attribute [ptr]. *)
Definition updateCalls (ptr : AttributeVector) : list Call :=
  let change multi single :=
    if hasMultiValue ptr then CallAppend 0 multi 1 else CallUpdate 0 single in
  if inherits ptr IntegerAttribute then
    [change (IntValue 123456789) (IntValue 123456789); CallCommit]
  else if inherits ptr FloatingPointAttribute then
    [change (FloatValue "123456789.5f") (FloatValue "123456789"); CallCommit]
  else if inherits ptr StringAttribute then
    [change (StringValue "non-existing string value")
       (StringValue "non-existing string value"); CallCommit]
  else [].

(** The calls of a whole run with the flags [f]. *)
Definition mainCalls (f : Flags) (fileName : string) : list Call :=
  loadCalls f ++
  (if doApplyUpdate f then updateCalls (loaded f fileName) else []) ++
  (if doSave f then [CallSaveAs (fileName +:+ ".save")] else []).

(** The attribute [Main] prints and saves: the loaded one after the update
    if asked for. *)
Definition updated (f : Flags) (fileName : string) : AttributeVector :=
  run (if doApplyUpdate f then updateCalls (loaded f fileName) else [])
    (loaded f fileName).

(** The number of values [get] reports for the document [doc] to
    [printContent]. *)
Definition reportedCount (ptr : AttributeVector) (doc : nat) : nat :=
  if hasWeightedSetType ptr
  then (get_WeightedString ptr doc (getMaxValueCount ptr)).1
  else (get_string ptr doc (getMaxValueCount ptr)).1.

(** The number of values [get] writes for the document [doc]. *)
Definition writtenCount (ptr : AttributeVector) (doc : nat) : nat :=
  if hasWeightedSetType ptr
  then length (get_WeightedString ptr doc (getMaxValueCount ptr)).2
  else length (get_string ptr doc (getMaxValueCount ptr)).2.

(** The lines of the documents [doc .. doc + n - 1] when [get] writes the
    values it counts. *)
Definition docLines {A} (get : nat → nat → nat * list A) (line : nat → A → string)
    (sz n doc : nat) : list string :=
  flat_map (λ d, docHeader d (get d sz).1 :: imap line (get d sz).2) (seq doc n).

(** The lines of all documents of the attribute [ptr]. *)
Definition contentLines (ptr : AttributeVector) : list string :=
  if hasWeightedSetType ptr
  then docLines (get_WeightedString ptr) weightedLine (getMaxValueCount ptr)
         (getNumDocs ptr) 0
  else docLines (get_string ptr) stringLine (getMaxValueCount ptr) (getNumDocs ptr) 0.

(** The attribute keeps its promise that no document has more values than
    [getMaxValueCount]. *)
Class Honest : Prop := {
  string_count ptr doc :
    (get_string ptr doc (getMaxValueCount ptr)).1 ≤ getMaxValueCount ptr;
  weighted_count ptr doc :
    (get_WeightedString ptr doc (getMaxValueCount ptr)).1 ≤ getMaxValueCount ptr;
}.

End app.

(** ** An environment for concrete runs *)

(** An attribute that records the calls made on it. *)
Record SampleAttribute := mkSample {
  sampleName : string;
  sampleClass : option ClassId;
  sampleMulti : bool;
  sampleWeighted : bool;
  sampleDocs : list (list (string * Z));
  sampleLog : list Call;
}.

Definition sampleExec (c : Call) (a : SampleAttribute) : SampleAttribute :=
  mkSample (sampleName a) (sampleClass a) (sampleMulti a) (sampleWeighted a)
    (sampleDocs a) (sampleLog a ++ [c]).

Definition sampleValues (a : SampleAttribute) (doc : nat) : list (string * Z) :=
  default [] (sampleDocs a !! doc).

(** The largest number of values of a document. *)
Definition sampleMax (a : SampleAttribute) : nat :=
  max_list (length <$> sampleDocs a).

(** The environment of the sample attribute, with [maxOf] as its
    [getMaxValueCount]. The factory makes a multi-value string attribute of
    two documents; the file [locked.out] cannot be opened. *)
Definition sampleEnvWith (maxOf : SampleAttribute → nat) :
    Environment SampleAttribute := {|
  getBaseFileName := sampleName;
  inherits a c := bool_decide (sampleClass a = Some c);
  hasMultiValue := sampleMulti;
  hasWeightedSetType := sampleWeighted;
  getMaxValueCount := maxOf;
  getNumDocs a := length (sampleDocs a);
  get_WeightedString a doc sz :=
    (length (sampleValues a doc), take sz (sampleValues a doc));
  get_string a doc sz :=
    (length (sampleValues a doc), take sz (sampleValues a doc).*1);
  exec := sampleExec;
  readTag file tag := tag;
  createAttribute fileName c :=
    mkSample fileName (Some StringAttribute) true false
      [[("a", 1%Z); ("b", 1%Z)]; [("c", 1%Z)]] [];
  seconds phase := "0";
  openFails name := bool_decide (name = "locked.out");
|}.

Definition sampleEnv : Environment SampleAttribute := sampleEnvWith sampleMax.

(** An attribute that claims one value per document at most. *)
Definition shortEnv : Environment SampleAttribute := sampleEnvWith (λ _, 1).

(** ** The monad *)

Section trace.
Context {A B : Type}.
Implicit Types (m : Trace A) (k : A → Trace B).

Lemma bind_Ok m k a ev :
  m = (Ok a, ev) → m ≫= k = (outcome (k a), ev ++ events (k a)).
Proof. intros ->. unfold mbind, Trace_bind. by destruct (k a). Qed.

Lemma bind_Err m k e ev : m = (Err e, ev) → m ≫= k = (Err e, ev).
Proof. by intros ->. Qed.

Lemma outcome_bind m k :
  outcome (m ≫= k) = match outcome m with Ok a => outcome (k a) | Err e => Err e end.
Proof. destruct m as [[a|e] ev]; [|done]. simpl. by destruct (k a). Qed.

Lemma events_bind m k :
  events (m ≫= k) =
    events m ++ match outcome m with Ok a => events (k a) | Err _ => [] end.
Proof.
  destruct m as [[a|e] ev]; simpl; [by destruct (k a)|].
  unfold events. simpl. by rewrite app_nil_r.
Qed.

(** [Trace] is a monad: sequencing is associative and [mret] does
    nothing. *)
Lemma Trace_left_id (a : A) k : mret a ≫= k = k a.
Proof. unfold mret, mbind, Trace_ret, Trace_bind. by destruct (k a). Qed.

Lemma Trace_right_id m : m ≫= mret = m.
Proof.
  destruct m as [[a|e] ev]; [|done].
  unfold mret, mbind, Trace_ret, Trace_bind. by rewrite app_nil_r.
Qed.

Lemma Trace_assoc {C} m k (h : B → Trace C) :
  (m ≫= k) ≫= h = m ≫= (λ a, k a ≫= h).
Proof.
  destruct m as [[a|e] ev]; [|done]. unfold mbind, Trace_bind.
  destruct (k a) as [[b|e] ev']; [|done]. destruct (h b). by rewrite app_assoc.
Qed.

Lemma emit_bind evs (n : Trace B) :
  (emit evs ;; n) = (outcome n, evs ++ events n).
Proof. by destruct n. Qed.

Lemma write_bind os lines (n : Trace B) :
  (write os lines ;; n) = (outcome n, events (write os lines) ++ events n).
Proof. apply emit_bind. Qed.

Lemma assert_true_bind what doc (n : Trace B) : (assert true what doc ;; n) = n.
Proof. by destruct n. Qed.

Lemma assert_false_bind what doc (n : Trace B) :
  (assert false what doc ;; n) = (Err (AssertionFailed what doc), []).
Proof. done. Qed.

Lemma calls_app evs evs' : calls (evs ++ evs') = calls evs ++ calls evs'.
Proof. apply omap_app. Qed.

Lemma printed_app os evs evs' :
  printed os (evs ++ evs') = printed os evs ++ printed os evs'.
Proof. apply omap_app. Qed.

Lemma closed_app evs evs' : closed (evs ++ evs') = closed evs ++ closed evs'.
Proof. apply omap_app. Qed.

Lemma prints_app evs evs' : prints (evs ++ evs') ↔ prints evs ∧ prints evs'.
Proof. apply Forall_app. Qed.

Lemma prints_Print os (lines : list string) : prints (Print os <$> lines).
Proof. by apply Forall_fmap, Forall_true. Qed.

(** Printing neither calls the attribute nor closes a file. *)
Lemma prints_calls evs : prints evs → calls evs = [].
Proof. induction 1 as [|[] ? ? ? IH]; done. Qed.

Lemma prints_closed evs : prints evs → closed evs = [].
Proof. induction 1 as [|[] ? ? ? IH]; done. Qed.

Lemma offFile_app evs evs' : offFile (evs ++ evs') ↔ offFile evs ∧ offFile evs'.
Proof. apply Forall_app. Qed.

Lemma offFile_OnAttribute (cs : list Call) : offFile (OnAttribute <$> cs).
Proof. by apply Forall_fmap, Forall_true. Qed.

Lemma offFile_closed evs : offFile evs → closed evs = [].
Proof. induction 1 as [|[[]| | | | |] ? ? ? IH]; done. Qed.

Lemma offFile_printed name evs : offFile evs → printed (OutFile name) evs = [].
Proof. induction 1 as [|[[]| | | | |] ? ? ? IH]; done. Qed.

Lemma calls_cons_Print os line evs : calls (Print os line :: evs) = calls evs.
Proof. done. Qed.

Lemma calls_Print os (lines : list string) : calls (Print os <$> lines) = [].
Proof. apply prints_calls, prints_Print. Qed.

Lemma printed_Print os (lines : list string) : printed os (Print os <$> lines) = lines.
Proof.
  induction lines as [|l lines IH]; [done|]. simpl. unfold printed in *. simpl.
  rewrite decide_True by done. simpl. by f_equal.
Qed.

End trace.

(** Pushes [outcome] and [events] through the binds of a procedure. *)
Ltac trace_simpl :=
  repeat first
    [ rewrite outcome_bind | rewrite events_bind
    | progress cbn [outcome events fst snd emit print mret Trace_ret] ].

(** ** The option loop *)

Section options.
Implicit Types (opts : list (ascii * string)) (f : Flags) (o : ascii * string).

Lemma flagsOf_nil f : flagsOf [] f = f.
Proof. by destruct f. Qed.

Lemma elem_of_cons_bool {X} `{EqDecision X} (x y : X) (l : list X) :
  bool_decide (x ∈ y :: l) = bool_decide (x = y) || bool_decide (x ∈ l).
Proof.
  destruct (decide (x = y)) as [->|Hne].
  - rewrite (bool_decide_eq_true_2 (y = y)) by done.
    apply bool_decide_eq_true_2. left.
  - rewrite (bool_decide_eq_false_2 (x = y)) by done.
    apply bool_decide_ext. rewrite elem_of_cons. naive_solver.
Qed.

(** One turn of the loop sets what [flagsOf] says and prints the
    complaint. *)
Lemma handleOption_run opt arg f :
  handleOption opt arg f = (Ok (flagsOf [(opt, arg)] f), complaint (opt, arg)).
Proof.
  destruct f. destruct opt as [[] [] [] [] [] [] [] []];
    try (vm_compute; reflexivity).
  unfold complaint, flagsOf, given, rejected. simpl.
  case_decide as Harg; [by subst|].
  rewrite (bool_decide_eq_false_2 (arg = "search")) by done.
  by rewrite bool_decide_eq_false_2 by (rewrite list_elem_of_singleton; congruence).
Qed.

Lemma flagsOf_cons o opts f : flagsOf (o :: opts) f = flagsOf opts (flagsOf [o] f).
Proof.
  unfold flagsOf, given. cbn [fmap list_fmap existsb doPrintContent doApplyUpdate
    doSave doFastSearch doEnableEnumeratedSave doHuge optError].
  rewrite !elem_of_cons_bool, !orb_false_r.
  f_equal; rewrite ?orb_assoc.
  all: f_equal; apply orb_comm.
Qed.

(** The option loop prints, to standard error, and makes no call on the
    attribute. *)
Lemma prints_complaint opts : prints (opts ≫= complaint).
Proof.
  induction opts as [|o opts IH]; [constructor|]. cbn [mbind list_bind].
  apply prints_app. split; [|done]. unfold complaint.
  destruct (_ && _); by repeat constructor.
Qed.

Lemma offFile_complaint opts : offFile (opts ≫= complaint).
Proof.
  induction opts as [|o opts IH]; [constructor|]. cbn [mbind list_bind].
  apply offFile_app. split; [|done]. unfold complaint.
  destruct (_ && _); by repeat constructor.
Qed.

Lemma calls_complaint opts : calls (opts ≫= complaint) = [].
Proof. apply prints_calls, prints_complaint. Qed.

Lemma parseOptions_run opts f :
  parseOptions opts f = (Ok (flagsOf opts f), opts ≫= complaint).
Proof.
  revert f. induction opts as [|[opt arg] opts IH]; intros f.
  - by rewrite flagsOf_nil.
  - cbn [parseOptions]. rewrite (bind_Ok _ _ _ _ (handleOption_run opt arg f)).
    by rewrite IH, (flagsOf_cons (opt, arg) opts).
Qed.

End options.

(** ** The procedures *)

Section procedures.
Context `{env : Environment AttributeVector}.
Implicit Types (ptr : AttributeVector) (f : Flags) (fileName : string)
  (os : option Stream).

Lemma run_app cs cs' ptr : run (cs ++ cs') ptr = run cs' (run cs ptr).
Proof. apply foldl_app. Qed.

Lemma load_run ptr :
  load ptr =
    (Ok (exec CallLoad ptr),
     [Print Cout ("loading attribute: " +:+ getBaseFileName ptr);
      OnAttribute CallLoad; Print Cout "attribute successfully loaded"]).
Proof. done. Qed.

Lemma applyUpdate_run ptr :
  applyUpdate ptr =
    (Ok (run (updateCalls ptr) ptr),
     Print Cout "applyUpdate" :: (OnAttribute <$> updateCalls ptr)).
Proof.
  unfold applyUpdate, updateCalls, updateWith.
  destruct (inherits ptr IntegerAttribute), (inherits ptr FloatingPointAttribute),
    (inherits ptr StringAttribute), (hasMultiValue ptr); reflexivity.
Qed.

Lemma calls_OnAttribute (cs : list Call) : calls (OnAttribute <$> cs) = cs.
Proof. induction cs as [|c cs IH]; [done|]. simpl. by f_equal. Qed.

Lemma loadPhase_run f fileName :
  outcome (loadPhase f fileName) = Ok (loaded f fileName) ∧
  calls (events (loadPhase f fileName)) = loadCalls f ∧
  offFile (events (loadPhase f fileName)).
Proof.
  unfold loadPhase, loaded, loadCalls.
  destruct (doEnableEnumeratedSave f); (split_and!; [done.. | by repeat constructor]).
Qed.

Lemma updatePhase_run f ptr :
  outcome (updatePhase f ptr) =
    Ok (run (if doApplyUpdate f then updateCalls ptr else []) ptr) ∧
  calls (events (updatePhase f ptr)) =
    (if doApplyUpdate f then updateCalls ptr else []) ∧
  offFile (events (updatePhase f ptr)).
Proof.
  unfold updatePhase. destruct (doApplyUpdate f); [|by split_and!; [..|constructor]].
  rewrite (bind_Ok _ _ _ _ (applyUpdate_run ptr)). simpl. split; [done|].
  unfold events. simpl. split.
  - by rewrite calls_app, calls_OnAttribute, app_nil_r.
  - constructor; [done|]. apply offFile_app.
    split; [apply offFile_OnAttribute | by repeat constructor].
Qed.

Lemma savePhase_run f fileName ptr :
  outcome (savePhase f fileName ptr) =
    Ok (run (if doSave f then [CallSaveAs (fileName +:+ ".save")] else []) ptr) ∧
  calls (events (savePhase f fileName ptr)) =
    (if doSave f then [CallSaveAs (fileName +:+ ".save")] else []) ∧
  offFile (events (savePhase f fileName ptr)).
Proof.
  unfold savePhase. destruct (doSave f); (split_and!; [done.. | by repeat constructor]).
Qed.

(** *** The loop over the documents *)

Section printDocs.
Context {A : Type} (get : nat → nat → nat * list A) (line : nat → A → string).
Context (sz : nat).

(** One turn of the loop when the assertion holds, and when it fails. *)
Lemma printDocs_step os n doc buf :
  (get doc sz).1 ≤ sz →
  printDocs get line os sz (S n) doc buf =
    (outcome (printDocs get line os sz n (S doc) (overlay (get doc sz).2 buf)),
     events (write os (docHeader doc (get doc sz).1 ::
               valueLines line (get doc sz).1 (overlay (get doc sz).2 buf))) ++
     events (printDocs get line os sz n (S doc) (overlay (get doc sz).2 buf))).
Proof.
  intros Hle. cbn [printDocs]. destruct (get doc sz) as [valueCount written].
  cbn [fst snd] in *. rewrite bool_decide_eq_true_2 by done.
  by rewrite assert_true_bind, write_bind.
Qed.

Lemma printDocs_stop os n doc buf :
  sz < (get doc sz).1 →
  printDocs get line os sz (S n) doc buf =
    (Err (AssertionFailed "valueCount <= sz" doc), []).
Proof.
  intros Hlt. cbn [printDocs]. destruct (get doc sz) as [valueCount written].
  cbn [fst snd] in *. by rewrite bool_decide_eq_false_2 by lia.
Qed.

Lemma printDocs_Ok os n doc buf :
  (∀ d, doc ≤ d < doc + n → (get d sz).1 ≤ sz) →
  outcome (printDocs get line os sz n doc buf) = Ok tt.
Proof.
  revert doc buf. induction n as [|n IH]; intros doc buf Hall; [done|].
  rewrite printDocs_step by (apply Hall; lia).
  apply IH. intros d Hd. apply Hall. lia.
Qed.

(** The first document with more values than the buffer holds stops the
    loop. *)
Lemma printDocs_Err os n doc buf d :
  doc ≤ d < doc + n →
  (∀ d', doc ≤ d' < d → (get d' sz).1 ≤ sz) → sz < (get d sz).1 →
  outcome (printDocs get line os sz n doc buf) =
    Err (AssertionFailed "valueCount <= sz" d).
Proof.
  revert doc buf. induction n as [|n IH]; intros doc buf Hd Hbefore Hbad; [lia|].
  destruct (decide (d = doc)) as [->|Hne]; [by rewrite printDocs_stop|].
  rewrite printDocs_step by (apply Hbefore; lia).
  apply IH; [lia | | done]. intros d' Hd'. apply Hbefore. lia.
Qed.

Lemma printed_write s (lines : list string) :
  printed s (events (write (Some s) lines)) = lines.
Proof. apply printed_Print. Qed.

Lemma prints_write os (lines : list string) : prints (events (write os lines)).
Proof. destruct os; [apply prints_Print | constructor]. Qed.

(** The loop prints, whether it ends or stops. *)
Lemma printDocs_prints os n doc buf :
  prints (events (printDocs get line os sz n doc buf)).
Proof.
  revert doc buf. induction n as [|n IH]; intros doc buf; [constructor|].
  destruct (decide ((get doc sz).1 ≤ sz)) as [Hle|Hgt].
  - rewrite printDocs_step by done. cbn [events snd].
    apply prints_app. split; [apply prints_write | apply IH].
  - rewrite printDocs_stop by lia. constructor.
Qed.

Lemma printDocs_calls os n doc buf :
  calls (events (printDocs get line os sz n doc buf)) = [].
Proof. apply prints_calls, printDocs_prints. Qed.

(** A stream that failed to open takes no line. *)
Lemma printDocs_None s n doc buf :
  printed s (events (printDocs get line None sz n doc buf)) = [].
Proof.
  revert doc buf. induction n as [|n IH]; intros doc buf; [done|].
  destruct (decide ((get doc sz).1 ≤ sz)) as [Hle|Hgt].
  - rewrite printDocs_step by done. cbn [events snd].
    by rewrite printed_app, IH.
  - by rewrite printDocs_stop by lia.
Qed.

(** With a stream that failed to open the loop leaves no event at all. *)
Lemma printDocs_None_events n doc buf :
  events (printDocs get line None sz n doc buf) = [].
Proof.
  revert doc buf. induction n as [|n IH]; intros doc buf; [done|].
  destruct (decide ((get doc sz).1 ≤ sz)) as [Hle|Hgt].
  - rewrite printDocs_step by done. cbn [events snd]. by rewrite IH.
  - by rewrite printDocs_stop by lia.
Qed.

Lemma valueLines_overlay (written buf : list A) :
  valueLines line (length written) (overlay written buf) = imap line written.
Proof. unfold valueLines, overlay. by rewrite take_app_length. Qed.

(** When [get] writes as many values as it counts, the lines are those of
    the values of each document: what an earlier document left in the
    buffer never shows. *)
Lemma printDocs_lines s n doc buf :
  (∀ d, doc ≤ d < doc + n →
     (get d sz).1 ≤ sz ∧ (get d sz).1 = length (get d sz).2) →
  printed s (events (printDocs get line (Some s) sz n doc buf)) =
    docLines get line sz n doc.
Proof.
  revert doc buf. induction n as [|n IH]; intros doc buf Hall; [done|].
  destruct (Hall doc ltac:(lia)) as [Hle Hlen].
  rewrite printDocs_step by done. cbn [events snd].
  rewrite printed_app, IH by (intros d Hd; apply Hall; lia).
  by rewrite printed_write, Hlen, valueLines_overlay, <-Hlen.
Qed.

End printDocs.

Lemma printContent_prints ptr os : prints (events (printContent ptr os)).
Proof.
  unfold printContent. destruct (hasWeightedSetType ptr); apply printDocs_prints.
Qed.

(** [printContent] stops at the first document for which the attribute
    reports more values than [getMaxValueCount]: the assertion fails
    there, in the loop of either kind of attribute. *)
Lemma printContent_Err ptr os doc :
  doc < getNumDocs ptr →
  (∀ d, d < doc → reportedCount ptr d ≤ getMaxValueCount ptr) →
  getMaxValueCount ptr < reportedCount ptr doc →
  outcome (printContent ptr os) = Err (AssertionFailed "valueCount <= sz" doc).
Proof.
  unfold printContent, reportedCount. intros Hdoc Hbefore Hbad.
  destruct (hasWeightedSetType ptr);
    (apply printDocs_Err; [lia | | done]); intros d Hd; apply Hbefore; lia.
Qed.

(** [printContent] ends when no document reports more values than
    [getMaxValueCount]. *)
Lemma printContent_Ok_within ptr os :
  (∀ d, d < getNumDocs ptr → reportedCount ptr d ≤ getMaxValueCount ptr) →
  outcome (printContent ptr os) = Ok tt.
Proof.
  unfold printContent, reportedCount. intros Hall.
  destruct (hasWeightedSetType ptr); apply printDocs_Ok; intros d Hd; apply Hall; lia.
Qed.

Lemma printContent_None_events ptr : events (printContent ptr None) = [].
Proof.
  unfold printContent. destruct (hasWeightedSetType ptr); apply printDocs_None_events.
Qed.

(** The print phase whose output file fails to open: the message, then the
    content phase on the failed stream, and the file is closed when the
    content phase ends. *)
Lemma printPhase_failed f fileName ptr :
  doPrintContent f = true → openFails (fileName +:+ ".out") = true →
  printPhase f fileName ptr =
    (outcome (printContent ptr None),
     [OpenOutput (fileName +:+ ".out");
      Print Cout ("failed opening: " +:+ fileName +:+ ".out");
      Print Cout "printContent"] ++
     (if outcome (printContent ptr None) is Ok _
      then [CloseOutput (fileName +:+ ".out")] else [])).
Proof.
  intros Hp Hfail. unfold printPhase. rewrite Hp. cbv zeta. rewrite Hfail.
  pose proof (printContent_None_events ptr) as Hev.
  destruct (printContent ptr None) as [[[]|e] ev]; cbn in Hev; by subst ev.
Qed.

(** The print phase that stops: the output file was opened and is not
    closed. *)
Lemma printPhase_Err f fileName ptr e :
  doPrintContent f = true →
  outcome (printContent ptr
    (if openFails (fileName +:+ ".out") then None
     else Some (OutFile (fileName +:+ ".out")))) = Err e →
  outcome (printPhase f fileName ptr) = Err e ∧
  calls (events (printPhase f fileName ptr)) = [] ∧
  closed (events (printPhase f fileName ptr)) = [] ∧
  OpenOutput (fileName +:+ ".out") ∈ events (printPhase f fileName ptr).
Proof.
  intros Hp. unfold printPhase. rewrite Hp. cbv zeta.
  set (os := if openFails _ then None else _). intros Herr.
  pose proof (printContent_prints ptr os) as Hprints.
  destruct (openFails _); trace_simpl; rewrite Herr;
    rewrite ?calls_app, ?closed_app, ?app_nil_r,
      ?(prints_calls _ Hprints), ?(prints_closed _ Hprints);
    (split_and!; [done.. | left]).
Qed.

(** When the attribute writes as many values as it reports and never
    more than [getMaxValueCount], [printContent] writes for each document
    its header and one line per value, with its weight for a weighted set,
    in document order; the values an earlier document left in the buffer
    never show. *)
Lemma printContent_lines ptr s :
  (∀ d, d < getNumDocs ptr →
     reportedCount ptr d ≤ getMaxValueCount ptr ∧
     reportedCount ptr d = writtenCount ptr d) →
  outcome (printContent ptr (Some s)) = Ok tt ∧
  printed s (events (printContent ptr (Some s))) = contentLines ptr.
Proof.
  unfold printContent, reportedCount, writtenCount, contentLines. intros Hall.
  destruct (hasWeightedSetType ptr);
    (split; [apply printDocs_Ok | apply printDocs_lines]);
    intros d Hd; apply Hall; lia.
Qed.

(** The print phase on an attribute that writes what it reports: the file
    takes the lines of the attribute and is closed. *)
Lemma printPhase_lines f fileName ptr :
  doPrintContent f = true → openFails (fileName +:+ ".out") = false →
  (∀ d, d < getNumDocs ptr →
     reportedCount ptr d ≤ getMaxValueCount ptr ∧
     reportedCount ptr d = writtenCount ptr d) →
  outcome (printPhase f fileName ptr) = Ok tt ∧
  calls (events (printPhase f fileName ptr)) = [] ∧
  printed (OutFile (fileName +:+ ".out")) (events (printPhase f fileName ptr)) =
    contentLines ptr ∧
  closed (events (printPhase f fileName ptr)) = [fileName +:+ ".out"].
Proof.
  intros Hp Hopen Hall. unfold printPhase. rewrite Hp. cbv zeta. rewrite Hopen.
  destruct (printContent_lines ptr (OutFile (fileName +:+ ".out")) Hall)
    as [Hok Hlines].
  pose proof (printContent_prints ptr (Some (OutFile (fileName +:+ ".out"))))
    as Hprints.
  trace_simpl. rewrite Hok. trace_simpl.
  rewrite !calls_app, !printed_app, !closed_app, Hlines,
    (prints_calls _ Hprints), (prints_closed _ Hprints).
  split_and!; [done | done | apply app_nil_r | done].
Qed.

(** [Main] after the options were accepted: the phases, one after the
    other. *)
Lemma Main_phases argc argv opts idx fileName :
  argc = idx + 1 → argv !! idx = Some fileName → existsb rejected opts = false →
  Main argc argv opts idx =
    let f := flagsOf opts noFlags in
    emit (opts ≫= complaint);;
    ptr ← loadPhase f fileName;
    ptr ← updatePhase f ptr;
    printPhase f fileName ptr;;
    ptr ← savePhase f fileName ptr;
    mret 0%Z.
Proof.
  intros Hargc Hfile Hok. unfold Main.
  rewrite (bind_Ok _ _ _ _ (parseOptions_run opts noFlags)), emit_bind.
  assert (bool_decide (argc ≠ idx + 1) || optError (flagsOf opts noFlags) = false)
    as ->; [|by rewrite Hfile].
  apply orb_false_iff. split; [by apply bool_decide_eq_false_2; intros []|].
  simpl. by rewrite Hok.
Qed.

Lemma printContent_Ok `{!Honest} ptr os :
  outcome (printContent ptr os) = Ok tt ∧
  calls (events (printContent ptr os)) = [].
Proof.
  unfold printContent. destruct (hasWeightedSetType ptr).
  - split; [|apply printDocs_calls]. apply printDocs_Ok. intros. apply weighted_count.
  - split; [|apply printDocs_calls]. apply printDocs_Ok. intros. apply string_count.
Qed.

Lemma printPhase_run `{!Honest} f fileName ptr :
  outcome (printPhase f fileName ptr) = Ok tt ∧
  calls (events (printPhase f fileName ptr)) = [].
Proof.
  unfold printPhase. destruct (doPrintContent f); [|done]. cbv zeta.
  set (os := if openFails _ then None else _).
  destruct (printContent_Ok ptr os) as [Hok Hcalls].
  destruct (openFails _); trace_simpl; rewrite ?Hok; trace_simpl;
    by rewrite ?calls_app, ?Hcalls.
Qed.

(** ** Theorems *)

(** The option loop sets each flag exactly when its option was given,
    sets fast search exactly when [-f search] was given, and sets the error
    flag exactly when an option was rejected: a character outside the
    option string, or [-f] with another argument. *)
Theorem parseOptions_flags opts :
  ∃ f, outcome (parseOptions opts noFlags) = Ok f ∧
    doPrintContent f = given "p" opts ∧ doApplyUpdate f = given "a" opts ∧
    doSave f = given "s" opts ∧ doEnableEnumeratedSave f = given "e" opts ∧
    doHuge f = given "h" opts ∧
    doFastSearch f = bool_decide (("f"%char, "search") ∈ opts) ∧
    optError f = existsb rejected opts.
Proof.
  exists (flagsOf opts noFlags). rewrite parseOptions_run. simpl.
  by rewrite !orb_false_r.
Qed.

(** C34. With a rejected option or without exactly one file name after the
    options, [Main] prints the complaints and the usage, returns -1, and
    touches neither a file nor the attribute. *)
Theorem Main_rejected argc argv opts idx :
  argc ≠ idx + 1 ∨ existsb rejected opts = true →
  outcome (Main argc argv opts idx) = Ok (-1)%Z ∧
  events (Main argc argv opts idx) = (opts ≫= complaint) ++ events usage ∧
  calls (events (Main argc argv opts idx)) = [].
Proof.
  intros Hbad. unfold Main.
  rewrite (bind_Ok _ _ _ _ (parseOptions_run opts noFlags)).
  assert (bool_decide (argc ≠ idx + 1) || optError (flagsOf opts noFlags) = true)
    as ->.
  { apply orb_true_iff. destruct Hbad as [?|Hrej]; [left|right].
    - by apply bool_decide_eq_true_2.
    - simpl. by rewrite Hrej. }
  split_and!; [done..|]. cbn [events snd]. by rewrite calls_app, calls_complaint.
Qed.

(** C31. An accepted run of an attribute that keeps its promise returns 0,
    and the calls on the attribute are, in this order: the enabling of
    enumerated save if asked for, the load, the update and its commit if
    asked for, and the save if asked for. *)
Theorem Main_accepted argc argv opts idx fileName :
  Honest → argc = idx + 1 → argv !! idx = Some fileName → existsb rejected opts = false →
  outcome (Main argc argv opts idx) = Ok 0%Z ∧
  calls (events (Main argc argv opts idx)) = mainCalls (flagsOf opts noFlags) fileName.
Proof.
  intros honest Hargc Hfile Hok. rewrite (Main_phases _ _ _ _ fileName) by done.
  cbv zeta. set (f := flagsOf opts noFlags).
  destruct (loadPhase_run f fileName) as (Hl & Hlc & _).
  destruct (updatePhase_run f (loaded f fileName)) as (Hu & Huc & _).
  fold (updated f fileName) in Hu.
  destruct (printPhase_run f fileName (updated f fileName)) as (Hp & Hpc).
  destruct (savePhase_run f fileName (updated f fileName)) as (Hs & Hsc & _).
  split.
  - trace_simpl. rewrite Hl. trace_simpl. rewrite Hu. trace_simpl.
    rewrite Hp. trace_simpl. by rewrite Hs.
  - trace_simpl. rewrite Hl. trace_simpl. rewrite Hu.
    trace_simpl. rewrite Hp. trace_simpl. rewrite Hs. trace_simpl.
    rewrite !calls_app, Hlc, Huc, Hpc, Hsc, calls_complaint. unfold mainCalls.
    by rewrite app_nil_r.
Qed.

(** C32. An accepted run with [-p] whose output file opens, on an attribute
    that writes as many values as it reports and never more than
    [getMaxValueCount], returns 0; the output file holds, for each document
    in order, its header and one line per value, of the attribute as it is
    after the update if one was asked for; the file is closed, and the
    calls on the attribute are those of the flags. *)
Theorem Main_content argc argv opts idx fileName :
  argc = idx + 1 → argv !! idx = Some fileName → existsb rejected opts = false →
  given "p" opts = true → openFails (fileName +:+ ".out") = false →
  let f := flagsOf opts noFlags in
  (∀ d, d < getNumDocs (updated f fileName) →
     reportedCount (updated f fileName) d ≤ getMaxValueCount (updated f fileName) ∧
     reportedCount (updated f fileName) d = writtenCount (updated f fileName) d) →
  outcome (Main argc argv opts idx) = Ok 0%Z ∧
  printed (OutFile (fileName +:+ ".out")) (events (Main argc argv opts idx)) =
    contentLines (updated f fileName) ∧
  closed (events (Main argc argv opts idx)) = [fileName +:+ ".out"] ∧
  calls (events (Main argc argv opts idx)) = mainCalls f fileName.
Proof.
  intros Hargc Hfile Hok Hp Hopen f Hall.
  rewrite (Main_phases _ _ _ _ fileName) by done. cbv zeta. fold f.
  destruct (loadPhase_run f fileName) as (Hl & Hlc & Hlo).
  destruct (updatePhase_run f (loaded f fileName)) as (Hu & Huc & Huo).
  fold (updated f fileName) in Hu.
  destruct (printPhase_lines f fileName (updated f fileName))
    as (Hpe & Hpc & Hpl & Hpo); [by subst f; simpl; rewrite Hp | done..|].
  destruct (savePhase_run f fileName (updated f fileName)) as (Hs & Hsc & Hso).
  pose proof (offFile_complaint opts) as Hco.
  split_and!; trace_simpl; rewrite Hl; trace_simpl; rewrite Hu; trace_simpl;
    rewrite Hpe; trace_simpl; rewrite Hs; [done|..]; trace_simpl.
  - rewrite !printed_app, Hpl, (offFile_printed _ _ Hco), (offFile_printed _ _ Hlo),
      (offFile_printed _ _ Huo), (offFile_printed _ _ Hso).
    apply app_nil_r.
  - by rewrite !closed_app, Hpo, (offFile_closed _ Hco), (offFile_closed _ Hlo),
      (offFile_closed _ Huo), (offFile_closed _ Hso).
  - rewrite !calls_app, Hlc, Huc, Hpc, Hsc, calls_complaint. unfold mainCalls.
    by rewrite app_nil_r.
Qed.

(** C33. An accepted run with [-p] on an attribute that reports, for some
    document, more values than [getMaxValueCount], stops at the first such
    document with the failed assertion: the attribute was loaded, and
    updated if asked for, but it is not saved although [-s] may be given,
    and the output file is left open. *)
Theorem Main_assertion argc argv opts idx fileName doc :
  argc = idx + 1 → argv !! idx = Some fileName → existsb rejected opts = false →
  given "p" opts = true →
  let f := flagsOf opts noFlags in
  doc < getNumDocs (updated f fileName) →
  (∀ d, d < doc →
     reportedCount (updated f fileName) d ≤ getMaxValueCount (updated f fileName)) →
  getMaxValueCount (updated f fileName) < reportedCount (updated f fileName) doc →
  outcome (Main argc argv opts idx) = Err (AssertionFailed "valueCount <= sz" doc) ∧
  calls (events (Main argc argv opts idx)) =
    loadCalls f ++ (if doApplyUpdate f then updateCalls (loaded f fileName) else []) ∧
  closed (events (Main argc argv opts idx)) = [].
Proof.
  intros Hargc Hfile Hok Hp f Hdoc Hbefore Hbad.
  rewrite (Main_phases _ _ _ _ fileName) by done. cbv zeta. fold f.
  destruct (loadPhase_run f fileName) as (Hl & Hlc & Hlo%offFile_closed).
  destruct (updatePhase_run f (loaded f fileName)) as (Hu & Huc & Huo%offFile_closed).
  fold (updated f fileName) in Hu.
  destruct (printPhase_Err f fileName (updated f fileName)
    (AssertionFailed "valueCount <= sz" doc)) as (Hpe & Hpc & Hpo & _).
  { subst f. simpl. by rewrite Hp. }
  { by apply printContent_Err. }
  split_and!; trace_simpl; rewrite Hl; trace_simpl; rewrite Hu; trace_simpl;
    rewrite Hpe; [done | |].
  - by rewrite !calls_app, Hlc, Huc, Hpc, calls_complaint, !app_nil_r.
  - by rewrite !closed_app, Hlo, Huo, Hpo, (offFile_closed _ (offFile_complaint opts)).
Qed.

(** C35. [applyUpdate] says so on standard output, changes document 0 once
    and commits: on an integer attribute with the value 123456789, on a
    floating point attribute with 123456789.5f when it appends and with
    123456789 when it updates, on a string attribute with the string
    "non-existing string value"; by an append of weight 1 on a multi-value
    attribute, by an update otherwise. The classes are tried in this order.
    On an attribute of no known class it makes no call. The attribute it
    leaves is the attribute after exactly those calls. *)
Theorem applyUpdate_calls ptr :
  outcome (applyUpdate ptr) = Ok (run (calls (events (applyUpdate ptr))) ptr) ∧
  printed Cout (events (applyUpdate ptr)) = ["applyUpdate"] ∧
  calls (events (applyUpdate ptr)) =
    if inherits ptr IntegerAttribute then
      [if hasMultiValue ptr then CallAppend 0 (IntValue 123456789) 1
       else CallUpdate 0 (IntValue 123456789); CallCommit]
    else if inherits ptr FloatingPointAttribute then
      [if hasMultiValue ptr then CallAppend 0 (FloatValue "123456789.5f") 1
       else CallUpdate 0 (FloatValue "123456789"); CallCommit]
    else if inherits ptr StringAttribute then
      [if hasMultiValue ptr
       then CallAppend 0 (StringValue "non-existing string value") 1
       else CallUpdate 0 (StringValue "non-existing string value"); CallCommit]
    else [].
Proof.
  rewrite applyUpdate_run. cbn [outcome events fst snd].
  rewrite calls_cons_Print, calls_OnAttribute. split; [done|]. unfold updateCalls.
  split; [|done].
  destruct (inherits ptr IntegerAttribute), (inherits ptr FloatingPointAttribute),
    (inherits ptr StringAttribute), (hasMultiValue ptr); reflexivity.
Qed.

(** C36. [-f aggregate] is rejected although the complaint offers it: the
    tool prints that it expected 'search' or 'aggregate' and got
    'aggregate', and returns -1. *)
Theorem Main_aggregate argc argv opts idx :
  ("f"%char, "aggregate") ∈ opts →
  outcome (Main argc argv opts idx) = Ok (-1)%Z ∧
  "Expected 'search' or 'aggregate', got 'aggregate'" ∈
    printed Cerr (events (Main argc argv opts idx)).
Proof.
  intros Hin. unfold Main.
  rewrite (bind_Ok _ _ _ _ (parseOptions_run opts noFlags)).
  assert (existsb rejected opts = true) as Hrej
    by (apply existsb_exists; exists ("f"%char, "aggregate"); by rewrite <-list_elem_of_In).
  assert (bool_decide (argc ≠ idx + 1) || optError (flagsOf opts noFlags) = true)
    as -> by (simpl; rewrite Hrej; apply orb_true_r).
  split; [done|]. cbn [events snd]. rewrite printed_app. apply elem_of_app. left.
  clear Hrej. induction opts as [|o opts IH]; [by apply elem_of_nil in Hin|].
  cbn [mbind list_bind]. rewrite printed_app. apply elem_of_app.
  apply elem_of_cons in Hin as [<-|Hin]; [left; left | right; by apply IH].
Qed.

(** C37. A failed open of the output file does not stop the print phase.
    The tool opens the file, says on standard output that the opening
    failed, announces the content and goes through the documents all the
    same: when no document reports more values than [getMaxValueCount] the
    phase ends and closes the file, and nothing else happened, no line is
    written; at the first document that reports more, the assertion stops
    the tool as it does with a file that opened, and the file is not
    closed. *)
Theorem printPhase_failed_open f fileName ptr :
  doPrintContent f = true → openFails (fileName +:+ ".out") = true →
  ((∀ d, d < getNumDocs ptr → reportedCount ptr d ≤ getMaxValueCount ptr) →
     printPhase f fileName ptr =
       (Ok tt,
        [OpenOutput (fileName +:+ ".out");
         Print Cout ("failed opening: " +:+ fileName +:+ ".out");
         Print Cout "printContent";
         CloseOutput (fileName +:+ ".out")])) ∧
  (∀ doc, doc < getNumDocs ptr →
     (∀ d, d < doc → reportedCount ptr d ≤ getMaxValueCount ptr) →
     getMaxValueCount ptr < reportedCount ptr doc →
     printPhase f fileName ptr =
       (Err (AssertionFailed "valueCount <= sz" doc),
        [OpenOutput (fileName +:+ ".out");
         Print Cout ("failed opening: " +:+ fileName +:+ ".out");
         Print Cout "printContent"])).
Proof.
  intros Hp Hfail. rewrite (printPhase_failed f fileName ptr Hp Hfail). split.
  - intros Hall. by rewrite (printContent_Ok_within ptr None Hall).
  - intros doc Hdoc Hbefore Hbad.
    by rewrite (printContent_Err ptr None doc Hdoc Hbefore Hbad).
Qed.

End procedures.

(** ** Concrete runs *)

Section runs.

Lemma sampleEnv_Honest : @Honest _ sampleEnv.
Proof.
  split; intros a doc; simpl; unfold sampleValues, sampleMax;
    (destruct (sampleDocs a !! doc) as [vs|] eqn:Hvs; simpl; [|lia]);
    apply max_list_elem_of_le, list_elem_of_fmap; exists vs;
    (split; [done | by eapply list_elem_of_lookup_2]).
Qed.

Lemma Main_rejected_witness :
  outcome (Main (env := sampleEnv) 3 ["loadattribute"; "-x"; "attr"]
             [("?"%char, EmptyString)] 2) = Ok (-1)%Z.
Proof.
  apply (Main_rejected (env := sampleEnv) 3 ["loadattribute"; "-x"; "attr"]
           [("?"%char, EmptyString)] 2).
  by right.
Defined.

Lemma Main_accepted_witness :
  outcome (Main (env := sampleEnv) 4 ["loadattribute"; "-a"; "-s"; "attr"]
             [("a"%char, EmptyString); ("s"%char, EmptyString)] 3) = Ok 0%Z ∧
  calls (events (Main (env := sampleEnv) 4 ["loadattribute"; "-a"; "-s"; "attr"]
             [("a"%char, EmptyString); ("s"%char, EmptyString)] 3)) =
    [CallLoad; CallAppend 0 (StringValue "non-existing string value") 1;
     CallCommit; CallSaveAs "attr.save"].
Proof.
  apply (Main_accepted (env := sampleEnv)
           4 ["loadattribute"; "-a"; "-s"; "attr"]
           [("a"%char, EmptyString); ("s"%char, EmptyString)] 3 "attr"
           sampleEnv_Honest);
    reflexivity.
Defined.

Lemma printContent_lines_witness :
  printed (OutFile "attr.out")
    (events (printContent (env := sampleEnv)
       (mkSample "attr" (Some StringAttribute) true true
          [[("a", 1%Z); ("b", 7%Z)]; [("c", (-1)%Z)]] []) (Some (OutFile "attr.out")))) =
    ["doc 0: valueCount(2)"; "    0: [a, 1]"; "    1: [b, 7]";
     "doc 1: valueCount(1)"; "    0: [c, -1]"].
Proof.
  etrans; [apply (printContent_lines (env := sampleEnv)
    (mkSample "attr" (Some StringAttribute) true true
       [[("a", 1%Z); ("b", 7%Z)]; [("c", (-1)%Z)]] []) (OutFile "attr.out"))|].
  - intros [|[|d]] Hd; [split; [by_compute | reflexivity].. | simpl in Hd; lia].
  - vm_compute. reflexivity.
Defined.

(** A run with [-a] and [-p]: the file shows the two documents of the
    attribute, and the attribute was updated before. *)
Lemma Main_content_witness :
  printed (OutFile "attr.out")
    (events (Main (env := sampleEnv) 4 ["loadattribute"; "-a"; "-p"; "attr"]
               [("a"%char, EmptyString); ("p"%char, EmptyString)] 3)) =
    ["doc 0: valueCount(2)"; "    0: [a]"; "    1: [b]";
     "doc 1: valueCount(1)"; "    0: [c]"] ∧
  closed (events (Main (env := sampleEnv) 4 ["loadattribute"; "-a"; "-p"; "attr"]
               [("a"%char, EmptyString); ("p"%char, EmptyString)] 3)) = ["attr.out"].
Proof.
  destruct (Main_content (env := sampleEnv) 4 ["loadattribute"; "-a"; "-p"; "attr"]
    [("a"%char, EmptyString); ("p"%char, EmptyString)] 3 "attr")
    as (_ & Hlines & Hclosed & _); [reflexivity.. | | by split].
  intros [|[|d]] Hd; [split; [by_compute | reflexivity].. | vm_compute in Hd; lia].
Defined.

(** The sample attribute claims one value per document at most, and its
    second document has two: the run stops there, after the update and
    before the save. *)
Lemma Main_assertion_witness :
  outcome (Main (env := shortEnv) 5 ["loadattribute"; "-a"; "-p"; "-s"; "attr"]
             [("a"%char, EmptyString); ("p"%char, EmptyString); ("s"%char, EmptyString)]
             4) = Err (AssertionFailed "valueCount <= sz" 0) ∧
  calls (events (Main (env := shortEnv) 5 ["loadattribute"; "-a"; "-p"; "-s"; "attr"]
             [("a"%char, EmptyString); ("p"%char, EmptyString); ("s"%char, EmptyString)]
             4)) =
    [CallLoad; CallAppend 0 (StringValue "non-existing string value") 1; CallCommit] ∧
  closed (events (Main (env := shortEnv) 5 ["loadattribute"; "-a"; "-p"; "-s"; "attr"]
             [("a"%char, EmptyString); ("p"%char, EmptyString); ("s"%char, EmptyString)]
             4)) = [].
Proof.
  apply (Main_assertion (env := shortEnv) 5
           ["loadattribute"; "-a"; "-p"; "-s"; "attr"]
           [("a"%char, EmptyString); ("p"%char, EmptyString); ("s"%char, EmptyString)]
           4 "attr" 0);
    [reflexivity.. | by_compute | intros d Hd; lia | by_compute].
Defined.

Lemma Main_aggregate_witness :
  outcome (Main (env := sampleEnv) 4 ["loadattribute"; "-f"; "aggregate"; "attr"]
             [("f"%char, "aggregate")] 3) = Ok (-1)%Z.
Proof.
  apply (Main_aggregate (env := sampleEnv) 4
           ["loadattribute"; "-f"; "aggregate"; "attr"] [("f"%char, "aggregate")] 3).
  left.
Defined.

(** The file [locked.out] cannot be opened. The attribute that keeps its
    promise is gone through and the file is closed; the attribute that
    claims one value per document stops the tool at its second document,
    which has two. *)
Lemma printPhase_failed_open_witness :
  printPhase (env := sampleEnv) (flagsOf [("p"%char, EmptyString)] noFlags) "locked"
    (mkSample "locked" (Some StringAttribute) true false
       [[("a", 1%Z)]; [("b", 1%Z); ("c", 1%Z)]] []) =
    (Ok tt, [OpenOutput "locked.out"; Print Cout "failed opening: locked.out";
             Print Cout "printContent"; CloseOutput "locked.out"]) ∧
  printPhase (env := shortEnv) (flagsOf [("p"%char, EmptyString)] noFlags) "locked"
    (mkSample "locked" (Some StringAttribute) true false
       [[("a", 1%Z)]; [("b", 1%Z); ("c", 1%Z)]] []) =
    (Err (AssertionFailed "valueCount <= sz" 1),
     [OpenOutput "locked.out"; Print Cout "failed opening: locked.out";
      Print Cout "printContent"]).
Proof.
  split.
  - apply (proj1 (printPhase_failed_open (env := sampleEnv)
             (flagsOf [("p"%char, EmptyString)] noFlags) "locked"
             (mkSample "locked" (Some StringAttribute) true false
                [[("a", 1%Z)]; [("b", 1%Z); ("c", 1%Z)]] []) eq_refl eq_refl)).
    intros d _. apply (string_count (Honest := sampleEnv_Honest)).
  - apply (proj2 (printPhase_failed_open (env := shortEnv)
             (flagsOf [("p"%char, EmptyString)] noFlags) "locked"
             (mkSample "locked" (Some StringAttribute) true false
                [[("a", 1%Z)]; [("b", 1%Z); ("c", 1%Z)]] []) eq_refl eq_refl) 1);
      [by_compute | | by_compute].
    intros [|d] Hd; [by_compute | lia].
Defined.

(** A single-value floating point attribute is updated with 123456789, a
    multi-value one is appended 123456789.5f; the attribute records the
    calls. *)
Lemma applyUpdate_calls_witness :
  calls (events (applyUpdate (env := sampleEnv)
    (mkSample "attr" (Some FloatingPointAttribute) false false [] []))) =
    [CallUpdate 0 (FloatValue "123456789"); CallCommit] ∧
  outcome (applyUpdate (env := sampleEnv)
    (mkSample "attr" (Some FloatingPointAttribute) true false [] [])) =
    Ok (mkSample "attr" (Some FloatingPointAttribute) true false []
          [CallAppend 0 (FloatValue "123456789.5f") 1; CallCommit]).
Proof.
  split.
  - apply (applyUpdate_calls (env := sampleEnv)
             (mkSample "attr" (Some FloatingPointAttribute) false false [] [])).
  - etrans; [apply (applyUpdate_calls (env := sampleEnv)
             (mkSample "attr" (Some FloatingPointAttribute) true false [] []))|].
    reflexivity.
Defined.

End runs.

End LoadAttribute.
