(* ===== verification/SharedLibrary.v ===== *)
(** * The shared library of the signal handler test

    [src/vespalib/src/tests/signalhandler/my_shared_library.cpp] holds two
    functions that a test calls to find their names in a backtrace.
    [my_cool_function] is run by a worker thread: it arrives at a first
    latch, and then waits in a second latch "until main test thread has
    dumped our stack". The test itself is not part of the sources; what its
    main thread does is taken from that comment.

    - A latch ([std::latch]) is its counter. [arrive_and_wait] is two atomic
      actions: [count_down], which decrements the counter and is undefined
      on a counter that is zero, and the wait, which lets the thread pass
      once the counter is zero ([try_wait]).
    - A thread is its position in its code ([WorkerPc], [MainPc]) and one
      function that gives its next action: [my_cool_function] for the
      worker, [main_test_thread] for the main thread. A position inside a
      latch is a thread that has counted down and is blocked.
    - [step] interleaves the two threads: any thread that can act may act
      next. [run] follows a schedule. The state records in [trace] the
      position the worker had when the main thread dumped its stack.
    - [inv] is the invariant of the system with both latches initialised to
      2, the number of threads. *)

From stdpp Require Import relations.
From S2P Require Import Prelude.

Module SharedLibrary.

(** ** Latches *)

(** [count_down()]: undefined on a counter that is zero. *)
Definition count_down (expected : nat) : option nat :=
  if decide (0 < expected) then Some (expected - 1) else None.

(** [try_wait()]: whether a waiting thread may pass. *)
Definition try_wait (expected : nat) : bool := bool_decide (expected = 0).

Record Latches := mkLatches {
  arrival_latch : nat;
  departure_latch : nat;
}.

(** ** The worker: [my_cool_function] *)

Inductive WorkerPc :=
| Called
| InArrival
| PassedArrival
| InDeparture
| Returned.

(** The next action of the worker at position [pc]. *)
Definition my_cool_function (pc : WorkerPc) (l : Latches) :
    option (WorkerPc * Latches) :=
  match pc with
  | Called =>
      n ← count_down (arrival_latch l);
      Some (InArrival, mkLatches n (departure_latch l))
  | InArrival =>
      if try_wait (arrival_latch l) then Some (PassedArrival, l) else None
  | PassedArrival =>
      n ← count_down (departure_latch l);
      Some (InDeparture, mkLatches (arrival_latch l) n)
  | InDeparture =>
      if try_wait (departure_latch l) then Some (Returned, l) else None
  | Returned => None
  end.

(** [my_totally_tubular_and_groovy_function] asks the signal handler for
    the stack trace of the calling thread. *)
Definition my_totally_tubular_and_groovy_function {Thread}
    (get_cross_thread_stack_trace : Thread → string) (pthread_self : Thread) :
    string :=
  get_cross_thread_stack_trace pthread_self.

(** ** The main test thread *)

Inductive MainPc :=
| Spawned
| MainInArrival
| Synchronized
| Dumped
| MainInDeparture
| Joined.

Record State := mkState {
  latches : Latches;
  worker : WorkerPc;
  main : MainPc;
  trace : option WorkerPc;
}.

(** The next action of the main thread: arrive at the first latch, dump
    the stack of the worker, arrive at the second latch. *)
Definition main_test_thread (s : State) : option State :=
  let l := latches s in
  match main s with
  | Spawned =>
      n ← count_down (arrival_latch l);
      Some (mkState (mkLatches n (departure_latch l)) (worker s) MainInArrival (trace s))
  | MainInArrival =>
      if try_wait (arrival_latch l)
      then Some (mkState l (worker s) Synchronized (trace s)) else None
  | Synchronized => Some (mkState l (worker s) Dumped (Some (worker s)))
  | Dumped =>
      n ← count_down (departure_latch l);
      Some (mkState (mkLatches (arrival_latch l) n) (worker s) MainInDeparture (trace s))
  | MainInDeparture =>
      if try_wait (departure_latch l)
      then Some (mkState l (worker s) Joined (trace s)) else None
  | Joined => None
  end.

(** ** The two threads together *)

Inductive Thread :=
| Worker
| Main.

#[global] Instance WorkerPc_eq_dec : EqDecision WorkerPc.
Proof. solve_decision. Defined.
#[global] Instance MainPc_eq_dec : EqDecision MainPc.
Proof. solve_decision. Defined.
#[global] Instance Latches_eq_dec : EqDecision Latches.
Proof. solve_decision. Defined.
#[global] Instance State_eq_dec : EqDecision State.
Proof. solve_decision. Defined.
#[global] Instance Thread_eq_dec : EqDecision Thread.
Proof. solve_decision. Defined.

(** One action of the thread [t]. *)
Definition act (t : Thread) (s : State) : option State :=
  match t with
  | Worker =>
      '(pc, l) ← my_cool_function (worker s) (latches s);
      Some (mkState l pc (main s) (trace s))
  | Main => main_test_thread s
  end.

Definition step : relation State := λ s s', ∃ t, act t s = Some s'.

(** The state after the threads acted in the order of the schedule. *)
Fixpoint run (schedule : list Thread) (s : State) : option State :=
  match schedule with
  | [] => Some s
  | t :: schedule' => s' ← act t s; run schedule' s'
  end.

Definition init (arrival departure : nat) : State :=
  mkState (mkLatches arrival departure) Called Spawned None.

Definition final (s : State) : Prop := worker s = Returned ∧ main s = Joined.

(** The worker is inside [my_cool_function], past its first action: its
    stack shows the function. *)
Definition inside (pc : WorkerPc) : Prop :=
  pc = InArrival ∨ pc = PassedArrival ∨ pc = InDeparture.

(** [P] holds sooner or later on every run from [s], whatever the
    schedule. *)
Inductive eventually (P : State → Prop) (s : State) : Prop :=
| eventually_now : P s → eventually P s
| eventually_later :
    red step s → (∀ s', step s s' → eventually P s') → eventually P s.

(** ** The invariant *)

(** The actions a thread has left. *)
Definition workerLeft (pc : WorkerPc) : nat :=
  match pc with
  | Called => 4 | InArrival => 3 | PassedArrival => 2 | InDeparture => 1
  | Returned => 0
  end.

Definition mainLeft (pc : MainPc) : nat :=
  match pc with
  | Spawned => 5 | MainInArrival => 4 | Synchronized => 3 | Dumped => 2
  | MainInDeparture => 1 | Joined => 0
  end.

Definition remaining (s : State) : nat := workerLeft (worker s) + mainLeft (main s).

(** How many of the two threads have counted a latch down. *)
Definition arrivals (s : State) : nat :=
  (if decide (workerLeft (worker s) ≤ 3) then 1 else 0) +
  (if decide (mainLeft (main s) ≤ 4) then 1 else 0).

Definition departures (s : State) : nat :=
  (if decide (workerLeft (worker s) ≤ 1) then 1 else 0) +
  (if decide (mainLeft (main s) ≤ 1) then 1 else 0).

(** With both latches initialised to 2: each counter is 2 less the threads
    that counted it down, a thread past a latch has seen its counter at
    zero, and the stack was dumped with the worker inside. *)
Record inv (s : State) : Prop := {
  inv_arrival : arrival_latch (latches s) + arrivals s = 2;
  inv_departure : departure_latch (latches s) + departures s = 2;
  inv_worker_arrival : workerLeft (worker s) ≤ 2 → arrival_latch (latches s) = 0;
  inv_main_arrival : mainLeft (main s) ≤ 3 → arrival_latch (latches s) = 0;
  inv_worker_departure : worker s = Returned → departure_latch (latches s) = 0;
  inv_main_departure : main s = Joined → departure_latch (latches s) = 0;
  inv_trace :
    match trace s with
    | Some pc => mainLeft (main s) ≤ 2 ∧ inside pc
    | None => 3 ≤ mainLeft (main s)
    end;
}.

(** ** Lemmas *)

Section lemmas.
Implicit Types (s : State) (t : Thread) (schedule : list Thread).

Lemma run_rtc schedule s s' : run schedule s = Some s' → rtc step s s'.
Proof.
  revert s. induction schedule as [|t schedule IH]; intros s; simpl.
  - by intros [= ->].
  - intros (s1 & Hact & Hrun)%bind_Some. eapply rtc_l; [by exists t | eauto].
Qed.

Lemma steps_run s s' : rtc step s s' → ∃ schedule, run schedule s = Some s'.
Proof.
  induction 1 as [s|s s1 s' [t Hact] _ [schedule Hrun]]; [by exists []|].
  exists (t :: schedule). simpl. by rewrite Hact.
Qed.

(** Every action is one of the nine of the two threads. *)
Lemma act_remaining t s s' : act t s = Some s' → remaining s = S (remaining s').
Proof.
  destruct t, s as [[a d] w m tr]; unfold act, main_test_thread, remaining;
    [destruct w | destruct m]; simpl;
    unfold count_down, try_wait; repeat case_decide; repeat case_bool_decide;
    intros; by simplify_eq/=.
Qed.

Lemma step_remaining s s' : step s s' → remaining s' < remaining s.
Proof. intros [t ->%act_remaining]. lia. Qed.

Lemma nsteps_remaining n s s' :
  nsteps step n s s' → remaining s = n + remaining s'.
Proof.
  induction 1 as [|n s s1 s' [t Hact] _ IH]; [done|].
  rewrite (act_remaining _ _ _ Hact), IH. lia.
Qed.

(** No run is infinite, whatever the state it starts from. *)
Lemma step_sn s : sn step s.
Proof.
  remember (remaining s) as k eqn:Hk. revert s Hk.
  induction k as [k IH] using lt_wf_ind. intros s ->.
  constructor. intros s1 Hs1. eapply IH; [by apply step_remaining | done].
Qed.

Lemma inv_init : inv (init 2 2).
Proof. split; try done; cbv; lia. Qed.

Lemma inv_act t s s' : inv s → act t s = Some s' → inv s'.
Proof.
  intros [Ha Hd Hwa Hma Hwd Hmd Htr] Hact.
  destruct s as [[a d] w m tr]. unfold arrivals, departures in *.
  destruct t, w, m; simpl in *;
    unfold act, main_test_thread, my_cool_function, count_down, try_wait in Hact;
    simpl in Hact;
    repeat case_decide; repeat case_bool_decide; simplify_eq/=; try lia;
    (split; unfold arrivals, departures, inside in *; simpl in *;
     repeat case_decide; try destruct tr; intros; simplify_eq; try lia;
     naive_solver lia).
Qed.

Lemma inv_step s s' : inv s → step s s' → inv s'.
Proof. intros Hinv [t Hact]. by eapply inv_act. Qed.

Lemma inv_rtc s s' : inv s → rtc step s s' → inv s'.
Proof. induction 2; eauto using inv_step. Qed.

Lemma final_remaining s : final s ↔ remaining s = 0.
Proof.
  unfold final, remaining. destruct (worker s), (main s); simpl; split;
    intros; destruct_and?; (done || lia).
Qed.

#[global] Instance final_dec s : Decision (final s).
Proof. unfold final. apply _. Defined.

(** Progress: under the invariant a thread can act unless both are done. *)
Lemma inv_progress s : inv s → ¬ final s → red step s.
Proof.
  intros [Ha Hd Hwa Hma Hwd Hmd Htr] Hfinal.
  assert (is_Some (act Worker s) ∨ is_Some (act Main s)) as [[s' Hs]|[s' Hs]];
    [|by exists s', Worker | by exists s', Main].
  destruct s as [[a d] w m tr]. unfold final in Hfinal. simpl in *.
  unfold arrivals, departures in *. simpl in *.
  destruct w, m; simpl in *;
    unfold act, main_test_thread, my_cool_function, count_down, try_wait; simpl;
    repeat case_decide; repeat case_bool_decide; simpl; try lia;
    first [by left; eexists | by right; eexists | naive_solver lia].
Qed.

Lemma eventually_inv s : inv s → eventually final s.
Proof.
  remember (remaining s) as k eqn:Hk. revert s Hk.
  induction k as [k IH] using lt_wf_ind. intros s -> Hinv.
  destruct (decide (final s)) as [|Hnf]; [by apply eventually_now|].
  apply eventually_later; [by apply inv_progress|].
  intros s' Hstep. eapply IH; [by apply step_remaining | done | by eapply inv_step].
Qed.

Lemma run_nsteps schedule s s' :
  run schedule s = Some s' → nsteps step (length schedule) s s'.
Proof.
  revert s. induction schedule as [|t schedule IH]; intros s; simpl.
  - intros [= ->]. constructor.
  - intros (s1 & Hact & Hrun)%bind_Some. econstructor; [by exists t | eauto].
Qed.

Lemma nf_act s : nf step s ↔ ∀ t, act t s = None.
Proof.
  unfold nf, red, step. split.
  - intros Hnf t. destruct (act t s) eqn:Hact; [|done]. destruct Hnf. eauto.
  - intros Hnone (s' & t & Hact). by rewrite Hnone in Hact.
Qed.

(** Under the invariant the runs end where both threads are done. *)
Lemma inv_nf s : inv s → nf step s ↔ final s.
Proof.
  intros Hinv. split.
  - intros Hnf. destruct (decide (final s)); [done|].
    destruct Hnf. by apply inv_progress.
  - intros ?%final_remaining [s' ?%step_remaining]. lia.
Qed.

(** ** Theorems *)

(** C39. With both latches initialised to the number of threads, the stack
    of the worker is dumped while the worker is inside [my_cool_function]:
    whatever the schedule, the position the main thread sees is after the
    worker's arrival and before its return, and the worker does not return
    before its stack was dumped. *)
Theorem dump_sees_worker_inside s :
  rtc step (init 2 2) s →
  (∀ pc, trace s = Some pc → inside pc) ∧
  (worker s = Returned → is_Some (trace s)).
Proof.
  intros [Ha Hd _ _ Hwd _ Htr]%(inv_rtc _ _ inv_init). split.
  - intros pc Hpc. rewrite Hpc in Htr. tauto.
  - intros Hw. specialize (Hwd Hw). unfold departures in Hd. rewrite Hw in Hd.
    destruct (trace s); [done|]. simpl in Hd. repeat case_decide; lia.
Qed.

(** C38. With both latches initialised to the number of threads, both
    threads return on every schedule: no interleaving of the two blocks a
    thread for ever. *)
Theorem threads_both_return : eventually final (init 2 2).
Proof. apply eventually_inv, inv_init. Qed.

(** Every schedule is finite, whatever the latches hold at the start:
    the two threads have nine actions between them, a run of [n] actions
    leaves [remaining] less [n], and no run is longer than that. With both
    latches at 2 a run cannot go on exactly when it has taken all nine. *)
Theorem schedules_terminate n s s' :
  nsteps step n s s' →
  remaining s = n + remaining s' ∧ sn step s ∧
  (s = init 2 2 → (nf step s' ↔ n = 9)).
Proof.
  intros Hn. split_and!.
  - by apply nsteps_remaining.
  - apply step_sn.
  - intros ->. apply nsteps_remaining in Hn as Hrem.
    rewrite inv_nf, final_remaining
      by (eapply inv_rtc; [apply inv_init | by eapply rtc_nsteps_2]).
    change (remaining (init 2 2)) with 9 in Hrem. lia.
Qed.

(** The latches must be initialised to the number of threads. With an
    arrival latch of 1 the main thread can dump the stack before the worker
    has entered the function; with an arrival latch of 3 both threads block
    in it for ever. *)
Theorem latch_count_mismatch :
  (∃ s, rtc step (init 1 2) s ∧ trace s = Some Called) ∧
  (∃ s, rtc step (init 3 2) s ∧ nf step s ∧
        worker s = InArrival ∧ main s = MainInArrival).
Proof.
  split.
  - eexists. split; [apply (run_rtc [Main; Main; Main]); reflexivity | done].
  - eexists. split_and!; [apply (run_rtc [Worker; Main]); reflexivity | | done..].
    apply nf_act. by intros [].
Qed.

End lemmas.

(** ** Concrete runs *)

(** The worker arrives, then the main thread arrives, passes and dumps. *)
Lemma dump_sees_worker_inside_witness : inside InArrival.
Proof.
  destruct (dump_sees_worker_inside
    (mkState (mkLatches 0 2) InArrival Dumped (Some InArrival))) as [Hin _].
  - apply (run_rtc [Worker; Main; Main; Main]). reflexivity.
  - by apply Hin.
Defined.

(** The worker runs as far as it can, then the main thread: nine actions. *)
Lemma schedules_terminate_witness :
  nf step (mkState (mkLatches 0 0) Returned Joined (Some InArrival)).
Proof.
  destruct (schedules_terminate 9 (init 2 2)
    (mkState (mkLatches 0 0) Returned Joined (Some InArrival))) as (_ & _ & Hnf).
  - apply (run_nsteps [Worker; Main; Main; Main; Main; Worker; Worker; Main; Worker]).
    reflexivity.
  - by apply Hnf.
Defined.

End SharedLibrary.
